(** * Nexus NES core: a shallow embedding of the JavaScript sources

    The development follows the source files one module per class:
    - [JS]          the integer fragment of JavaScript numbers the code uses
    - [Controller], [Input]   (input.js)
    - [PPU]         (ppu.js, stored behind input.js)
    - [Memory]      (memory.js, the CPU bus)
    - [CPU]         (cpu.js)
    - [DMCChannel], [APU]     (apu.js)
    - [Emulator]    (emulator.js, stored behind apu.js)
    - [NROM], [Harness]   the cartridge and the host wiring the examples run on
    The definitions come first; the properties of the code follow them, one
    module of facts per class, and [Console] holds the runs on concrete
    machines.

    Objects are records, methods are functions that take the receiver first
    and return the updated receiver (and the returned value, if any). *)

From Stdlib Require Import ZArith Lia QArith.
From stdpp Require Import gmap strings list.

Local Open Scope Z_scope.

(** ** JavaScript numbers

    Every number the modelled code manipulates is an integer, so a number is
    a [Z].  The bitwise operators first convert their operands to a signed
    32-bit integer; the wrap-around is written out in [toInt32]. *)
Module JS.

Definition toInt32 (z : Z) : Z := (z + 2147483648) mod 4294967296 - 2147483648.

  (** [a & b], [a | b], [a ^ b], [~a] *)
Definition band (a b : Z) : Z := Z.land (toInt32 a) (toInt32 b).
Definition bor (a b : Z) : Z := Z.lor (toInt32 a) (toInt32 b).
Definition bxor (a b : Z) : Z := Z.lxor (toInt32 a) (toInt32 b).
Definition bnot (a : Z) : Z := Z.lnot (toInt32 a).

  (** [a << n] and [a >> n]; the shift count is taken modulo 32. *)
Definition shl (a n : Z) : Z := toInt32 (Z.shiftl (toInt32 a) (n mod 32)).
Definition shr (a n : Z) : Z := Z.shiftr (toInt32 a) (n mod 32).

  (** [a % b]: the remainder has the sign of the dividend. *)
Definition rem (a b : Z) : Z := Z.rem a b.

  (** Truthiness of a number in a condition. *)
Definition truthy (z : Z) : bool := negb (z =? 0).

  (** Truthiness of a property read from an object: a missing property is
      [undefined], which is falsy. *)
Definition truthy_prop (o : option Z) : bool :=
    match o with Some z => truthy z | None => false end.

  (** Conversion applied by a store into a [Uint8Array]. *)
Definition toUint8 (z : Z) : Z := z mod 256.

  (** [arr[i]] on an array-like object: [undefined] outside the array. *)
Definition index (arr : list Z) (i : Z) : option Z :=
    if i <? 0 then None else arr !! Z.to_nat i.

  (** [arr[i]] on a typed array read at an index inside it. *)
Definition get (arr : list Z) (i : Z) : Z := arr !!! Z.to_nat i.

  (** [arr[i] = v] on a [Uint8Array]: the value is reduced to a byte, a store
      outside the array is ignored, [undefined] is stored as 0. *)
Definition store (arr : list Z) (i : Z) (v : Z) : list Z :=
    if i <? 0 then arr else <[Z.to_nat i := toUint8 v]> arr.

Definition store_val (arr : list Z) (i : Z) (v : option Z) : list Z :=
    store arr i (default 0 v).

End JS.

(** ** input.js: one controller port *)
Module Controller.

(** [buttons] is the object literal of the constructor, read by property
    name; [keyMap], [gamepadMap] and [gamepadIndex] belong to the host's
    key-binding layer and are not part of the shift-register logic. *)
Record t := mk {
  buttons : gmap string Z;
  strobe : Z;
  shiftRegister : Z
}.

Definition constructor : t :=
  {| buttons := <["A" := 0]> (<["B" := 0]> (<["Select" := 0]> (<["Start" := 0]>
                (<["Up" := 0]> (<["Down" := 0]> (<["Left" := 0]>
                (<["Right" := 0]> ∅)))))));
     strobe := 0;
     shiftRegister := 0 |}.

(** [this.buttons.X ? 1 : 0] *)
Definition pressed (c : t) (name : string) : Z :=
  if JS.truthy_prop (buttons c !! name) then 1 else 0.

Definition reload (c : t) : t :=
  {| buttons := buttons c;
     strobe := strobe c;
     shiftRegister :=
       JS.bor (JS.bor (JS.bor (JS.bor (JS.bor (JS.bor (JS.bor
         (pressed c "A")
         (JS.shl (pressed c "B") 1))
         (JS.shl (pressed c "Select") 2))
         (JS.shl (pressed c "Start") 3))
         (JS.shl (pressed c "Up") 4))
         (JS.shl (pressed c "Down") 5))
         (JS.shl (pressed c "Left") 6))
         (JS.shl (pressed c "Right") 7) |}.

Definition write (c : t) (value : Z) : t :=
  let c1 := {| buttons := buttons c; strobe := JS.band value 1;
               shiftRegister := shiftRegister c |} in
  if JS.truthy (strobe c1) then reload c1 else c1.

Definition read (c : t) : Z * t :=
  if JS.truthy (strobe c) then
    (JS.bor (if JS.truthy_prop (buttons c !! "A") then 1 else 0) 0x40, c)
  else
    (JS.bor (JS.band (shiftRegister c) 1) 0x40,
     {| buttons := buttons c; strobe := strobe c;
        shiftRegister := JS.shr (shiftRegister c) 1 |}).

(** The register [reload] packs from eight button states. *)
Definition packed (a b sel st u d l r : bool) : Z :=
  JS.bor (JS.bor (JS.bor (JS.bor (JS.bor (JS.bor (JS.bor
    (if a then 1 else 0)
    (JS.shl (if b then 1 else 0) 1))
    (JS.shl (if sel then 1 else 0) 2))
    (JS.shl (if st then 1 else 0) 3))
    (JS.shl (if u then 1 else 0) 4))
    (JS.shl (if d then 1 else 0) 5))
    (JS.shl (if l then 1 else 0) 6))
    (JS.shl (if r then 1 else 0) 7).

(** The buttons in the order [reload] packs them, bit 0 first, and their
    states in that order. *)
Definition order : list string :=
  ["A"; "B"; "Select"; "Start"; "Up"; "Down"; "Left"; "Right"].

Definition latched (c : t) : list Z := map (pressed c) order.

(** [n] successive reads: the values in order and the controller afterwards. *)
Fixpoint reads (n : nat) (c : t) : list Z * t :=
  match n with
  | O => ([], c)
  | S n' =>
      let '(v, c1) := read c in
      let '(vs, c2) := reads n' c1 in
      (v :: vs, c2)
  end.

Definition setButton (c : t) (name : string) (pressed : bool) : t :=
  if bool_decide (is_Some (buttons c !! name)) then
    let c1 := {| buttons := <[name := if pressed then 1 else 0]> (buttons c);
                 strobe := strobe c; shiftRegister := shiftRegister c |} in
    if JS.truthy (strobe c1) then reload c1 else c1
  else c.

End Controller.

(** ** input.js: the two ports behind 0x4016 / 0x4017 *)
Module Input.

Record t := mk { player1 : Controller.t; player2 : Controller.t }.

Definition constructor : t :=
  {| player1 := Controller.constructor; player2 := Controller.constructor |}.

Definition write (i : t) (addr value : Z) : t :=
  if addr =? 0x4016 then
    {| player1 := Controller.write (player1 i) value;
       player2 := Controller.write (player2 i) value |}
  else i.

Definition read (i : t) (addr : Z) : Z * t :=
  if addr =? 0x4016 then
    let '(v, c) := Controller.read (player1 i) in
    (v, {| player1 := c; player2 := player2 i |})
  else if addr =? 0x4017 then
    let '(v, c) := Controller.read (player2 i) in
    (v, {| player1 := player1 i; player2 := c |})
  else (0, i).

End Input.

(** ** ppu.js: registers, VRAM, OAM and the register handlers *)
Module PPU.

(** The fields of the constructor.  [vram] is a [Uint8Array] of 0x4000
    bytes and [oam] one of 256 bytes.  [chrROM] is the CHR-ROM image handed
    to the constructor; the 8 KiB pattern-table window that [readRegister]
    indexes lies inside it.  [cpuMemory] holds the indexed elements of the
    object handed to the constructor "for DMA"; emulator.js passes the
    Memory object, which has none.  The canvas context, the frame buffer and
    the colour table are host-side and are only touched by the renderer. *)
Record t := mk {
  ctrl : Z;
  mask : Z;
  status : Z;
  oamAddr : Z;
  scrollX : Z;
  scrollY : Z;
  addr : Z;
  data : Z;
  vram : list Z;
  oam : list Z;
  cycle : Z;
  scanline : Z;
  fineX : Z;
  writeToggle : Z;
  tempAddr : Z;
  vramAddr : Z;
  sprite0Hit : bool;
  chrROM : list Z;
  cpuMemory : list Z
}.

Definition set_ctrl (p : t) (v : Z) : t :=
  {| ctrl := v; mask := mask p; status := status p; oamAddr := oamAddr p;
     scrollX := scrollX p; scrollY := scrollY p; addr := addr p; data :=
     data p; vram := vram p; oam := oam p; cycle := cycle p; scanline :=
     scanline p; fineX := fineX p; writeToggle := writeToggle p; tempAddr
     := tempAddr p; vramAddr := vramAddr p; sprite0Hit := sprite0Hit p;
     chrROM := chrROM p; cpuMemory := cpuMemory p |}.

Definition set_mask (p : t) (v : Z) : t :=
  {| ctrl := ctrl p; mask := v; status := status p; oamAddr := oamAddr p;
     scrollX := scrollX p; scrollY := scrollY p; addr := addr p; data :=
     data p; vram := vram p; oam := oam p; cycle := cycle p; scanline :=
     scanline p; fineX := fineX p; writeToggle := writeToggle p; tempAddr
     := tempAddr p; vramAddr := vramAddr p; sprite0Hit := sprite0Hit p;
     chrROM := chrROM p; cpuMemory := cpuMemory p |}.

Definition set_status (p : t) (v : Z) : t :=
  {| ctrl := ctrl p; mask := mask p; status := v; oamAddr := oamAddr p;
     scrollX := scrollX p; scrollY := scrollY p; addr := addr p; data :=
     data p; vram := vram p; oam := oam p; cycle := cycle p; scanline :=
     scanline p; fineX := fineX p; writeToggle := writeToggle p; tempAddr
     := tempAddr p; vramAddr := vramAddr p; sprite0Hit := sprite0Hit p;
     chrROM := chrROM p; cpuMemory := cpuMemory p |}.

Definition set_oamAddr (p : t) (v : Z) : t :=
  {| ctrl := ctrl p; mask := mask p; status := status p; oamAddr := v;
     scrollX := scrollX p; scrollY := scrollY p; addr := addr p; data :=
     data p; vram := vram p; oam := oam p; cycle := cycle p; scanline :=
     scanline p; fineX := fineX p; writeToggle := writeToggle p; tempAddr
     := tempAddr p; vramAddr := vramAddr p; sprite0Hit := sprite0Hit p;
     chrROM := chrROM p; cpuMemory := cpuMemory p |}.

Definition set_oam (p : t) (v : list Z) : t :=
  {| ctrl := ctrl p; mask := mask p; status := status p; oamAddr :=
     oamAddr p; scrollX := scrollX p; scrollY := scrollY p; addr := addr
     p; data := data p; vram := vram p; oam := v; cycle := cycle p;
     scanline := scanline p; fineX := fineX p; writeToggle := writeToggle
     p; tempAddr := tempAddr p; vramAddr := vramAddr p; sprite0Hit :=
     sprite0Hit p; chrROM := chrROM p; cpuMemory := cpuMemory p |}.

Definition set_vram (p : t) (v : list Z) : t :=
  {| ctrl := ctrl p; mask := mask p; status := status p; oamAddr :=
     oamAddr p; scrollX := scrollX p; scrollY := scrollY p; addr := addr
     p; data := data p; vram := v; oam := oam p; cycle := cycle p;
     scanline := scanline p; fineX := fineX p; writeToggle := writeToggle
     p; tempAddr := tempAddr p; vramAddr := vramAddr p; sprite0Hit :=
     sprite0Hit p; chrROM := chrROM p; cpuMemory := cpuMemory p |}.

Definition set_fineX (p : t) (v : Z) : t :=
  {| ctrl := ctrl p; mask := mask p; status := status p; oamAddr :=
     oamAddr p; scrollX := scrollX p; scrollY := scrollY p; addr := addr
     p; data := data p; vram := vram p; oam := oam p; cycle := cycle p;
     scanline := scanline p; fineX := v; writeToggle := writeToggle p;
     tempAddr := tempAddr p; vramAddr := vramAddr p; sprite0Hit :=
     sprite0Hit p; chrROM := chrROM p; cpuMemory := cpuMemory p |}.

Definition set_writeToggle (p : t) (v : Z) : t :=
  {| ctrl := ctrl p; mask := mask p; status := status p; oamAddr :=
     oamAddr p; scrollX := scrollX p; scrollY := scrollY p; addr := addr
     p; data := data p; vram := vram p; oam := oam p; cycle := cycle p;
     scanline := scanline p; fineX := fineX p; writeToggle := v; tempAddr
     := tempAddr p; vramAddr := vramAddr p; sprite0Hit := sprite0Hit p;
     chrROM := chrROM p; cpuMemory := cpuMemory p |}.

Definition set_tempAddr (p : t) (v : Z) : t :=
  {| ctrl := ctrl p; mask := mask p; status := status p; oamAddr :=
     oamAddr p; scrollX := scrollX p; scrollY := scrollY p; addr := addr
     p; data := data p; vram := vram p; oam := oam p; cycle := cycle p;
     scanline := scanline p; fineX := fineX p; writeToggle := writeToggle
     p; tempAddr := v; vramAddr := vramAddr p; sprite0Hit := sprite0Hit p;
     chrROM := chrROM p; cpuMemory := cpuMemory p |}.

Definition set_vramAddr (p : t) (v : Z) : t :=
  {| ctrl := ctrl p; mask := mask p; status := status p; oamAddr :=
     oamAddr p; scrollX := scrollX p; scrollY := scrollY p; addr := addr
     p; data := data p; vram := vram p; oam := oam p; cycle := cycle p;
     scanline := scanline p; fineX := fineX p; writeToggle := writeToggle
     p; tempAddr := tempAddr p; vramAddr := v; sprite0Hit := sprite0Hit p;
     chrROM := chrROM p; cpuMemory := cpuMemory p |}.

Definition constructor (chrROM cpuMemory : list Z) : t :=
  {| ctrl := 0; mask := 0; status := 0; oamAddr := 0; scrollX := 0;
     scrollY := 0; addr := 0; data := 0;
     vram := replicate (Z.to_nat 0x4000) 0; oam := replicate 256 0;
     cycle := 0; scanline := 0; fineX := 0; writeToggle := 0; tempAddr := 0;
     vramAddr := 0; sprite0Hit := false;
     chrROM := chrROM; cpuMemory := cpuMemory |}.

(** The body of the loop of [performDMA]: [this.oam[i] = this.cpuMemory[base + i]]. *)
Definition dma_byte (src : list Z) (base : Z) (oam : list Z) (i : Z) : list Z :=
  JS.store_val oam i (JS.index src (base + i)).

Definition performDMA (p : t) (page : Z) : t :=
  let base := JS.shl page 8 in
  set_oam p (foldl (dma_byte (cpuMemory p) base) (oam p) (seqZ 0 256)).

(** [this.vramAddr += (this.ctrl & 0x04) ? 32 : 1] *)
Definition bump_vramAddr (p : t) : t :=
  set_vramAddr p (vramAddr p + (if JS.truthy (JS.band (ctrl p) 0x04) then 32 else 1)).

Definition readRegister (p : t) (addr : Z) : Z * t :=
  if addr =? 0x2002 then
    let value := status p in
    let p := set_status p (JS.band (status p) 0x7F) in
    let p := set_writeToggle p 0 in
    (value, p)
  else if addr =? 0x2007 then
    let patternTableAddr := JS.band (vramAddr p) 0x1FFF in
    let data :=
      if patternTableAddr <? 0x2000 then JS.get (chrROM p) patternTableAddr
      else JS.get (vram p) (JS.band (vramAddr p) 0x3FFF) in
    (data, bump_vramAddr p)
  else (0, p).

Definition writeRegister (p : t) (addr value : Z) : t :=
  if addr =? 0x2000 then set_ctrl p value
  else if addr =? 0x2001 then set_mask p value
  else if addr =? 0x2003 then set_oamAddr p value
  else if addr =? 0x2004 then
    set_oamAddr (set_oam p (JS.store (oam p) (oamAddr p) value)) (oamAddr p + 1)
  else if addr =? 0x2005 then
    if writeToggle p =? 0 then
      let p := set_fineX p (JS.band value 7) in
      let p := set_tempAddr p
                 (JS.bor (JS.band (tempAddr p) 0x7FE0) (JS.shr value 3)) in
      set_writeToggle p 1
    else
      let p := set_tempAddr p
                 (JS.bor (JS.bor (JS.band (tempAddr p) 0x0C1F)
                                 (JS.shl (JS.band value 0xF8) 2))
                         (JS.shl (JS.band value 7) 12)) in
      set_writeToggle p 0
  else if addr =? 0x2006 then
    if writeToggle p =? 0 then
      let p := set_tempAddr p
                 (JS.bor (JS.band (tempAddr p) 0x00FF) (JS.shl value 8)) in
      set_writeToggle p 1
    else
      let p := set_tempAddr p (JS.bor (JS.band (tempAddr p) 0xFF00) value) in
      let p := set_vramAddr p (tempAddr p) in
      set_writeToggle p 0
  else if addr =? 0x2007 then
    let p := set_vram p (JS.store (vram p) (JS.band (vramAddr p) 0x3FFF) value) in
    bump_vramAddr p
  else if addr =? 0x4014 then performDMA p value
  else p.

Definition set_cycle (p : t) (v : Z) : t :=
  {| ctrl := ctrl p; mask := mask p; status := status p; oamAddr := oamAddr p;
     scrollX := scrollX p; scrollY := scrollY p; addr := addr p;
     data := data p; vram := vram p; oam := oam p; cycle := v;
     scanline := scanline p; fineX := fineX p; writeToggle := writeToggle p;
     tempAddr := tempAddr p; vramAddr := vramAddr p;
     sprite0Hit := sprite0Hit p; chrROM := chrROM p;
     cpuMemory := cpuMemory p |}.

Definition set_scanline (p : t) (v : Z) : t :=
  {| ctrl := ctrl p; mask := mask p; status := status p; oamAddr := oamAddr p;
     scrollX := scrollX p; scrollY := scrollY p; addr := addr p;
     data := data p; vram := vram p; oam := oam p; cycle := cycle p;
     scanline := v; fineX := fineX p; writeToggle := writeToggle p;
     tempAddr := tempAddr p; vramAddr := vramAddr p;
     sprite0Hit := sprite0Hit p; chrROM := chrROM p;
     cpuMemory := cpuMemory p |}.

Definition set_sprite0Hit (p : t) (v : bool) : t :=
  {| ctrl := ctrl p; mask := mask p; status := status p; oamAddr := oamAddr p;
     scrollX := scrollX p; scrollY := scrollY p; addr := addr p;
     data := data p; vram := vram p; oam := oam p; cycle := cycle p;
     scanline := scanline p; fineX := fineX p; writeToggle := writeToggle p;
     tempAddr := tempAddr p; vramAddr := vramAddr p; sprite0Hit := v;
     chrROM := chrROM p; cpuMemory := cpuMemory p |}.

(** [mirrorAddress]; [mirrorType] is the string given to the constructor,
    and [Math.floor(vramIndex / 0x400)] is the floor quotient. *)
Definition mirrorAddress (mirrorType : string) (addr : Z) : Z :=
  let mirrored := JS.band addr 0x2FFF in
  let vramIndex := mirrored - 0x2000 in
  let table := vramIndex / 0x400 in
  if bool_decide (mirrorType = "horizontal") then
    JS.band table 1 * 0x400 + JS.band vramIndex 0x3FF
  else
    (if JS.truthy (JS.band table 2) then 0x400 else 0)
    + JS.band vramIndex 0x3FF.

(** A byte read outside [vram] is [undefined], which [>>] takes as 0. *)
Definition getAttributePalette (p : t) (mirrorType : string) (tileX tileY : Z)
    : Z :=
  let attrAddr := 0x23C0 + (tileY / 4) * 8 + tileX / 4 in
  let attrByte :=
    default 0 (JS.index (vram p) (mirrorAddress mirrorType attrAddr)) in
  let shift := (if 2 <=? JS.rem tileY 4 then 4 else 0)
               + (if 2 <=? JS.rem tileX 4 then 2 else 0) in
  JS.band (JS.shr attrByte shift) 0x03.

(** A store into the frame buffer, a [Uint8ClampedArray]: an integer is
    clamped to [0, 255], [undefined] is stored as 0, and a store outside
    the array is ignored. *)
Definition store_clamped (arr : list Z) (i : Z) (v : option Z) : list Z :=
  if i <? 0 then arr
  else <[Z.to_nat i := Z.max 0 (Z.min 255 (default 0 v))]> arr.

(** [drawPixel] on the data of the frame buffer ([screenWidth] is 256);
    [color] is the array of the three components. *)
Definition drawPixel (fb : list Z) (x y : Z) (color : list Z) : list Z :=
  if (x <? 0) || (256 <=? x) || (y <? 0) || (240 <=? y) then fb
  else
    let idx := (y * 256 + x) * 4 in
    let fb := store_clamped fb idx (JS.index color 0) in
    let fb := store_clamped fb (idx + 1) (JS.index color 1) in
    let fb := store_clamped fb (idx + 2) (JS.index color 2) in
    store_clamped fb (idx + 3) (Some 255).

(** What [renderFrame] leaves in the fields above.  The renderer draws into
    the frame buffer and the canvas; of the PPU's registers it only touches
    [sprite0Hit], which [renderSprites] clears and then sets, together with
    bit 6 of the status, when its sprite-0 test succeeds on some pixel.
    [hit] is the outcome of that test, which depends on the pattern data
    and the frame buffer.  The palette of the listing is a placeholder
    ([/* 64-color array */]); the renderer is taken with its 64 colours in
    place, so that every colour it passes to [drawPixel] is an array and
    [renderFrame] returns. *)
Definition renderFrame (hit : bool) (p : t) : t :=
  let p := set_sprite0Hit p false in
  if hit then set_sprite0Hit (set_status p (JS.bor (status p) 0x40)) true
  else p.

(** [step]: one dot.  [hit] is consulted when the step enters scanline
    241, where the frame is rendered. *)
Definition step (hit : bool) (p : t) : t :=
  let p := set_cycle p (cycle p + 1) in
  if 340 <? cycle p then
    let p := set_cycle p 0 in
    let p := set_scanline p (scanline p + 1) in
    let p :=
      if scanline p =? 241 then
        renderFrame hit (set_status p (JS.bor (status p) 0x80))
      else p in
    if 262 <=? scanline p then
      set_status (set_scanline p 0) (JS.band (status p) 0x7F)
    else p
  else p.

(** Successive dots, with the outcomes of the sprite-0 tests in order. *)
Definition steps (p : t) (hits : list bool) : t :=
  foldl (fun p h => step h p) p hits.

(** The position in the frame, counted in dots. *)
Definition dot (p : t) : Z := scanline p * 341 + cycle p.

End PPU.

(** ** Collaborators known only through the methods called on them

    memory.js receives its cartridge and its APU from the host and calls
    [cartridge.cpuRead], [cartridge.cpuWrite], [apu.readRegister] and
    [apu.writeRegister] on them; the DMC channel calls [memory.read].  A
    method takes the receiver and returns it updated. *)
Class Cartridge (C : Type) := {
  cpuRead : C -> Z -> Z * C;
  cpuWrite : C -> Z -> Z -> C
}.

Class ApuRegisters (A : Type) := {
  readRegister : A -> Z -> Z * A;
  writeRegister : A -> Z -> Z -> A
}.

Class BusRead (M : Type) := {
  bus_read : M -> Z -> Z * M
}.

(** ** memory.js: the CPU-side address decoder *)
Module Memory.
Section Bus.
Context {C A : Type} `{Cartridge C} `{ApuRegisters A}.

(** [ram] is a [Uint8Array] of 0x0800 bytes. *)
Record t := mk {
  ram : list Z;
  cartridge : C;
  ppu : PPU.t;
  apu : A;
  controllers : Input.t
}.

Definition set_ram (m : t) (v : list Z) : t :=
  {| ram := v; cartridge := cartridge m; ppu := ppu m; apu := apu m;
     controllers := controllers m |}.

Definition set_cartridge (m : t) (v : C) : t :=
  {| ram := ram m; cartridge := v; ppu := ppu m; apu := apu m;
     controllers := controllers m |}.

Definition set_ppu (m : t) (v : PPU.t) : t :=
  {| ram := ram m; cartridge := cartridge m; ppu := v; apu := apu m;
     controllers := controllers m |}.

Definition set_apu (m : t) (v : A) : t :=
  {| ram := ram m; cartridge := cartridge m; ppu := ppu m; apu := v;
     controllers := controllers m |}.

Definition set_controllers (m : t) (v : Input.t) : t :=
  {| ram := ram m; cartridge := cartridge m; ppu := ppu m; apu := apu m;
     controllers := v |}.

Definition reset (m : t) : t :=
  set_ram m (replicate (length (ram m)) 0).

Definition constructor (cartridge : C) (ppu : PPU.t) (apu : A)
    (controllers : Input.t) : t :=
  reset {| ram := replicate (Z.to_nat 0x0800) 0; cartridge := cartridge;
           ppu := ppu; apu := apu; controllers := controllers |}.

Definition read (m : t) (addr : Z) : Z * t :=
  let addr := JS.band addr 0xFFFF in
  if addr <? 0x2000 then
    (JS.get (ram m) (JS.rem addr 0x0800), m)
  else if addr <? 0x4000 then
    let '(v, p) := PPU.readRegister (ppu m) (JS.rem addr 8) in
    (v, set_ppu m p)
  else if (addr =? 0x4016) || (addr =? 0x4017) then
    let '(v, c) := Input.read (controllers m) addr in
    (v, set_controllers m c)
  else if (0x4000 <=? addr) && (addr <? 0x4020) then
    let '(v, a) := readRegister (apu m) addr in
    (v, set_apu m a)
  else if 0x4020 <=? addr then
    let '(v, c) := cpuRead (cartridge m) addr in
    (v, set_cartridge m c)
  else (0, m).

Definition write (m : t) (addr value : Z) : t :=
  let addr := JS.band addr 0xFFFF in
  let value := JS.band value 0xFF in
  if addr <? 0x2000 then
    set_ram m (JS.store (ram m) (JS.rem addr 0x0800) value)
  else if addr <? 0x4000 then
    set_ppu m (PPU.writeRegister (ppu m) (JS.rem addr 8) value)
  else if (0x4000 <=? addr) && (addr <? 0x4020) then
    if (addr =? 0x4016) || (addr =? 0x4017) then
      set_controllers m (Input.write (controllers m) addr value)
    else
      set_apu m (writeRegister (apu m) addr value)
  else if 0x4020 <=? addr then
    set_cartridge m (cpuWrite (cartridge m) addr value)
  else m.

(** A sequence of bus writes, oldest first. *)
Definition writes (m : t) (ws : list (Z * Z)) : t :=
  foldl (fun m w => write m (fst w) (snd w)) m ws.

(** [n] successive reads of the same address: the values in order and the
    bus afterwards. *)
Fixpoint reads (n : nat) (m : t) (addr : Z) : list Z * t :=
  match n with
  | O => ([], m)
  | S n' =>
      let '(v, m1) := read m addr in
      let '(vs, m2) := reads n' m1 addr in
      (v :: vs, m2)
  end.

End Bus.

Arguments t C A : clear implicits.

End Memory.

#[export] Instance Memory_BusRead {C A : Type} `{Cartridge C} `{ApuRegisters A} :
  BusRead (Memory.t C A) := {| bus_read := Memory.read |}.

(** ** cpu.js: the 6502 core *)
Module CPU.
Section Core.
Context {Cart Apu : Type} `{Cartridge Cart} `{ApuRegisters Apu}.

(** The registers of the constructor, the bus the CPU was built on, and the
    console: [console] lists, newest first, the opcodes reported by
    [console.warn("Unhandled opcode: ...")]. *)
Record t := mk {
  A : Z;
  X : Z;
  Y : Z;
  SP : Z;
  PC : Z;
  status : Z;
  cycles : Z;
  memory : Memory.t Cart Apu;
  console : list Z
}.

Definition constructor (memory : Memory.t Cart Apu) : t :=
  {| A := 0x00; X := 0x00; Y := 0x00; SP := 0xFD; PC := 0x0000;
     status := 0x24; cycles := 0; memory := memory; console := [] |}.

Definition set_A (v : Z) (c : t) : t :=
  {| A := v; X := X c; Y := Y c; SP := SP c; PC := PC c; status := status c;
     cycles := cycles c; memory := memory c; console := console c |}.

Definition set_X (v : Z) (c : t) : t :=
  {| A := A c; X := v; Y := Y c; SP := SP c; PC := PC c; status := status c;
     cycles := cycles c; memory := memory c; console := console c |}.

Definition set_Y (v : Z) (c : t) : t :=
  {| A := A c; X := X c; Y := v; SP := SP c; PC := PC c; status := status c;
     cycles := cycles c; memory := memory c; console := console c |}.

Definition set_SP (v : Z) (c : t) : t :=
  {| A := A c; X := X c; Y := Y c; SP := v; PC := PC c; status := status c;
     cycles := cycles c; memory := memory c; console := console c |}.

Definition set_PC (v : Z) (c : t) : t :=
  {| A := A c; X := X c; Y := Y c; SP := SP c; PC := v; status := status c;
     cycles := cycles c; memory := memory c; console := console c |}.

Definition set_status (v : Z) (c : t) : t :=
  {| A := A c; X := X c; Y := Y c; SP := SP c; PC := PC c; status := v;
     cycles := cycles c; memory := memory c; console := console c |}.

Definition set_memory (v : Memory.t Cart Apu) (c : t) : t :=
  {| A := A c; X := X c; Y := Y c; SP := SP c; PC := PC c; status := status c;
     cycles := cycles c; memory := v; console := console c |}.

Definition set_console (v : list Z) (c : t) : t :=
  {| A := A c; X := X c; Y := Y c; SP := SP c; PC := PC c; status := status c;
     cycles := cycles c; memory := memory c; console := v |}.

(** A method is a state transformer over the CPU object. *)
Definition M (R : Type) : Type := t -> R * t.

Definition ret {R : Type} (r : R) : M R := fun c => (r, c).

Definition bind {R S : Type} (m : M R) (k : R -> M S) : M S :=
  fun c => let '(r, c1) := m c in k r c1.

Definition gets {R : Type} (f : t -> R) : M R := fun c => (f c, c).

Definition modify (f : t -> t) : M unit := fun c => (tt, f c).

#[local] Instance M_ret : MRet M := @ret.
#[local] Instance M_bind : MBind M := fun R S k m => bind m k.

Definition read (addr : Z) : M Z :=
  fun c => let '(v, m) := Memory.read (memory c) addr in (v, set_memory m c).

Definition write (addr value : Z) : M unit :=
  modify (fun c => set_memory (Memory.write (memory c) addr value) c).

Definition readWord (addr : Z) : M Z :=
  low ← read addr;
  high ← read (addr + 1);
  mret (JS.bor (JS.shl high 8) low).

Definition reset : M unit :=
  modify (set_A 0);;
  modify (set_X 0);;
  modify (set_Y 0);;
  modify (set_SP 0xFD);;
  modify (set_status 0x24);;
  w ← readWord 0xFFFC;
  modify (set_PC w).

(** [static FLAGS] *)
Definition FLAG_C : Z := JS.shl 1 0.
Definition FLAG_Z : Z := JS.shl 1 1.
Definition FLAG_I : Z := JS.shl 1 2.
Definition FLAG_D : Z := JS.shl 1 3.
Definition FLAG_B : Z := JS.shl 1 4.
Definition FLAG_U : Z := JS.shl 1 5.
Definition FLAG_V : Z := JS.shl 1 6.
Definition FLAG_N : Z := JS.shl 1 7.

(** [value] is the truthiness of the second argument. *)
Definition setFlag (flag : Z) (value : bool) : M unit :=
  modify (fun c =>
    if value then set_status (JS.bor (status c) flag) c
    else set_status (JS.band (status c) (JS.bnot flag)) c).

Definition getFlag (flag : Z) : M bool :=
  gets (fun c => negb (JS.band (status c) flag =? 0)).

(** [this.read(this.PC++)] *)
Definition getImmediate : M Z :=
  pc ← gets PC;
  modify (set_PC (pc + 1));;
  read pc.

(** [console.warn(`Unhandled opcode: ...`)] *)
Definition warn (opcode : Z) : M unit :=
  modify (fun c => set_console (opcode :: console c) c).

(** [this.setFlag(Z, r === 0); this.setFlag(N, r & 0x80)] *)
Definition setZN (r : Z) : M unit :=
  setFlag FLAG_Z (r =? 0);;
  setFlag FLAG_N (JS.truthy (JS.band r 0x80)).

(** [execute] as written in the class body. *)
Definition execute (opcode : Z) : M Z :=
  if opcode =? 0xA9 then
    value ← getImmediate;
    modify (set_A value);;
    a ← gets A;
    setZN a;;
    mret 2
  else if opcode =? 0xAA then
    a ← gets A;
    modify (set_X a);;
    x ← gets X;
    setZN x;;
    mret 2
  else if opcode =? 0xE8 then
    x ← gets X;
    modify (set_X (JS.band (x + 1) 0xFF));;
    x ← gets X;
    setZN x;;
    mret 2
  else
    warn opcode;;
    mret 2.

Definition step : M Z :=
  opcode ← getImmediate;
  execute opcode.

(** *** The methods that follow the class in cpu.js *)

Definition getZeroPage : M Z :=
  a ← getImmediate;
  read a.

Definition getZeroPageAddr : M Z := getImmediate.

Definition getAbsoluteAddr : M Z :=
  pc ← gets PC;
  addr ← readWord pc;
  pc ← gets PC;
  modify (set_PC (pc + 2));;
  mret addr.

Definition getAbsolute : M Z :=
  a ← getAbsoluteAddr;
  read a.

Definition adc (value : Z) : M unit :=
  cf ← getFlag FLAG_C;
  a ← gets A;
  let carry := if (cf : bool) then 1 else 0 in
  let result := a + value + carry in
  setFlag FLAG_C (0xFF <? result);;
  setFlag FLAG_Z (JS.band result 0xFF =? 0);;
  setFlag FLAG_N (JS.truthy (JS.band result 0x80));;
  setFlag FLAG_V
    (JS.truthy (JS.band (JS.band (JS.bnot (JS.bxor a value)) (JS.bxor a result))
                        0x80));;
  modify (set_A (JS.band result 0xFF)).

Definition sbc (value : Z) : M unit :=
  adc (JS.band (JS.bnot value) 0xFF).

(** [this.write(0x0100 + this.SP--, value)] *)
Definition push (value : Z) : M unit :=
  sp ← gets SP;
  modify (set_SP (sp - 1));;
  write (0x0100 + sp) value.

(** [this.read(0x0100 + ++this.SP)] *)
Definition pull : M Z :=
  sp ← gets SP;
  modify (set_SP (sp + 1));;
  read (0x0100 + (sp + 1)).

Definition pushWord (value : Z) : M unit :=
  push (JS.band (JS.shr value 8) 0xFF);;
  push (JS.band value 0xFF).

Definition pullWord : M Z :=
  low ← pull;
  high ← pull;
  mret (JS.bor (JS.shl high 8) low).

(** The second [execute] of cpu.js, with the larger instruction set. *)
Definition execute2 (opcode : Z) : M Z :=
  if opcode =? 0xA9 then
    v ← getImmediate;
    modify (set_A v);;
    a ← gets A;
    setZN a;;
    mret 2
  else if opcode =? 0x85 then
    addr ← getZeroPageAddr;
    a ← gets A;
    write addr a;;
    mret 3
  else if opcode =? 0x8D then
    addr ← getAbsoluteAddr;
    a ← gets A;
    write addr a;;
    mret 4
  else if opcode =? 0x4C then
    addr ← getAbsoluteAddr;
    modify (set_PC addr);;
    mret 3
  else if opcode =? 0x00 then
    pc ← gets PC;
    modify (set_PC (pc + 1));;
    pc ← gets PC;
    pushWord pc;;
    st ← gets status;
    push (JS.bor st FLAG_B);;
    setFlag FLAG_I true;;
    w ← readWord 0xFFFE;
    modify (set_PC w);;
    mret 7
  else if opcode =? 0x69 then
    v ← getImmediate;
    adc v;;
    mret 2
  else if opcode =? 0xE9 then
    v ← getImmediate;
    sbc v;;
    mret 2
  else if opcode =? 0x48 then
    a ← gets A;
    push a;;
    mret 3
  else if opcode =? 0x68 then
    v ← pull;
    modify (set_A v);;
    a ← gets A;
    setZN a;;
    mret 4
  else
    warn opcode;;
    mret 2.

(** The case labels of the two [execute]s. *)
Definition implemented : list Z := [0xA9; 0xAA; 0xE8].

Definition implemented2 : list Z :=
  [0xA9; 0x85; 0x8D; 0x4C; 0x00; 0x69; 0xE9; 0x48; 0x68].

(** [step] running the second [execute]. *)
Definition step2 : M Z :=
  opcode ← getImmediate;
  execute2 opcode.

Definition nmi : M unit :=
  pc ← gets PC;
  pushWord pc;;
  st ← gets status;
  push st;;
  setFlag FLAG_I true;;
  w ← readWord 0xFFFA;
  modify (set_PC w).

Definition irq : M unit :=
  i ← getFlag FLAG_I;
  if negb (i : bool) then
    pc ← gets PC;
    pushWord pc;;
    st ← gets status;
    push st;;
    setFlag FLAG_I true;;
    w ← readWord 0xFFFE;
    modify (set_PC w)
  else mret tt.

End Core.

Arguments t Cart Apu : clear implicits.

End CPU.

(** ** apu.js: the delta-modulation channel *)
Module DMCChannel.

(** The constructor leaves [irqEnabled], [loop], [rate], [currentAddress] and
    [sampleBuffer] undefined.  The first two are only tested for truthiness,
    so undefined is [false]; [rate] is never read; [currentAddress] and
    [sampleBuffer] are assigned by [restartSample] and [fetchSample] before
    the paths that read them can run, and start at 0 here.  The Web Audio
    gain node is host-side. *)
Record t := mk {
  enabled : bool;
  dmcIRQ : bool;
  sampleAddress : Z;
  sampleLength : Z;
  currentLength : Z;
  shiftRegister : Z;
  bitsRemaining : Z;
  bufferEmpty : bool;
  outputLevel : Z;
  irqEnabled : bool;
  loop : bool;
  rate : Z;
  currentAddress : Z;
  sampleBuffer : Z
}.

Definition set_enabled (d : t) (v : bool) : t :=
  {| enabled := v; dmcIRQ := dmcIRQ d; sampleAddress := sampleAddress d;
     sampleLength := sampleLength d; currentLength := currentLength d;
     shiftRegister := shiftRegister d; bitsRemaining := bitsRemaining d;
     bufferEmpty := bufferEmpty d; outputLevel := outputLevel d;
     irqEnabled := irqEnabled d; loop := loop d; rate := rate d;
     currentAddress := currentAddress d; sampleBuffer := sampleBuffer d |}.

Definition set_dmcIRQ (d : t) (v : bool) : t :=
  {| enabled := enabled d; dmcIRQ := v; sampleAddress := sampleAddress d;
     sampleLength := sampleLength d; currentLength := currentLength d;
     shiftRegister := shiftRegister d; bitsRemaining := bitsRemaining d;
     bufferEmpty := bufferEmpty d; outputLevel := outputLevel d;
     irqEnabled := irqEnabled d; loop := loop d; rate := rate d;
     currentAddress := currentAddress d; sampleBuffer := sampleBuffer d |}.

Definition set_sampleAddress (d : t) (v : Z) : t :=
  {| enabled := enabled d; dmcIRQ := dmcIRQ d; sampleAddress := v;
     sampleLength := sampleLength d; currentLength := currentLength d;
     shiftRegister := shiftRegister d; bitsRemaining := bitsRemaining d;
     bufferEmpty := bufferEmpty d; outputLevel := outputLevel d;
     irqEnabled := irqEnabled d; loop := loop d; rate := rate d;
     currentAddress := currentAddress d; sampleBuffer := sampleBuffer d |}.

Definition set_sampleLength (d : t) (v : Z) : t :=
  {| enabled := enabled d; dmcIRQ := dmcIRQ d; sampleAddress :=
     sampleAddress d; sampleLength := v; currentLength := currentLength d;
     shiftRegister := shiftRegister d; bitsRemaining := bitsRemaining d;
     bufferEmpty := bufferEmpty d; outputLevel := outputLevel d;
     irqEnabled := irqEnabled d; loop := loop d; rate := rate d;
     currentAddress := currentAddress d; sampleBuffer := sampleBuffer d |}.

Definition set_currentLength (d : t) (v : Z) : t :=
  {| enabled := enabled d; dmcIRQ := dmcIRQ d; sampleAddress :=
     sampleAddress d; sampleLength := sampleLength d; currentLength := v;
     shiftRegister := shiftRegister d; bitsRemaining := bitsRemaining d;
     bufferEmpty := bufferEmpty d; outputLevel := outputLevel d;
     irqEnabled := irqEnabled d; loop := loop d; rate := rate d;
     currentAddress := currentAddress d; sampleBuffer := sampleBuffer d |}.

Definition set_shiftRegister (d : t) (v : Z) : t :=
  {| enabled := enabled d; dmcIRQ := dmcIRQ d; sampleAddress :=
     sampleAddress d; sampleLength := sampleLength d; currentLength :=
     currentLength d; shiftRegister := v; bitsRemaining := bitsRemaining
     d; bufferEmpty := bufferEmpty d; outputLevel := outputLevel d;
     irqEnabled := irqEnabled d; loop := loop d; rate := rate d;
     currentAddress := currentAddress d; sampleBuffer := sampleBuffer d |}.

Definition set_bitsRemaining (d : t) (v : Z) : t :=
  {| enabled := enabled d; dmcIRQ := dmcIRQ d; sampleAddress :=
     sampleAddress d; sampleLength := sampleLength d; currentLength :=
     currentLength d; shiftRegister := shiftRegister d; bitsRemaining :=
     v; bufferEmpty := bufferEmpty d; outputLevel := outputLevel d;
     irqEnabled := irqEnabled d; loop := loop d; rate := rate d;
     currentAddress := currentAddress d; sampleBuffer := sampleBuffer d |}.

Definition set_bufferEmpty (d : t) (v : bool) : t :=
  {| enabled := enabled d; dmcIRQ := dmcIRQ d; sampleAddress :=
     sampleAddress d; sampleLength := sampleLength d; currentLength :=
     currentLength d; shiftRegister := shiftRegister d; bitsRemaining :=
     bitsRemaining d; bufferEmpty := v; outputLevel := outputLevel d;
     irqEnabled := irqEnabled d; loop := loop d; rate := rate d;
     currentAddress := currentAddress d; sampleBuffer := sampleBuffer d |}.

Definition set_outputLevel (d : t) (v : Z) : t :=
  {| enabled := enabled d; dmcIRQ := dmcIRQ d; sampleAddress :=
     sampleAddress d; sampleLength := sampleLength d; currentLength :=
     currentLength d; shiftRegister := shiftRegister d; bitsRemaining :=
     bitsRemaining d; bufferEmpty := bufferEmpty d; outputLevel := v;
     irqEnabled := irqEnabled d; loop := loop d; rate := rate d;
     currentAddress := currentAddress d; sampleBuffer := sampleBuffer d |}.

Definition set_irqEnabled (d : t) (v : bool) : t :=
  {| enabled := enabled d; dmcIRQ := dmcIRQ d; sampleAddress :=
     sampleAddress d; sampleLength := sampleLength d; currentLength :=
     currentLength d; shiftRegister := shiftRegister d; bitsRemaining :=
     bitsRemaining d; bufferEmpty := bufferEmpty d; outputLevel :=
     outputLevel d; irqEnabled := v; loop := loop d; rate := rate d;
     currentAddress := currentAddress d; sampleBuffer := sampleBuffer d |}.

Definition set_loop (d : t) (v : bool) : t :=
  {| enabled := enabled d; dmcIRQ := dmcIRQ d; sampleAddress :=
     sampleAddress d; sampleLength := sampleLength d; currentLength :=
     currentLength d; shiftRegister := shiftRegister d; bitsRemaining :=
     bitsRemaining d; bufferEmpty := bufferEmpty d; outputLevel :=
     outputLevel d; irqEnabled := irqEnabled d; loop := v; rate := rate d;
     currentAddress := currentAddress d; sampleBuffer := sampleBuffer d |}.

Definition set_rate (d : t) (v : Z) : t :=
  {| enabled := enabled d; dmcIRQ := dmcIRQ d; sampleAddress :=
     sampleAddress d; sampleLength := sampleLength d; currentLength :=
     currentLength d; shiftRegister := shiftRegister d; bitsRemaining :=
     bitsRemaining d; bufferEmpty := bufferEmpty d; outputLevel :=
     outputLevel d; irqEnabled := irqEnabled d; loop := loop d; rate := v;
     currentAddress := currentAddress d; sampleBuffer := sampleBuffer d |}.

Definition set_currentAddress (d : t) (v : Z) : t :=
  {| enabled := enabled d; dmcIRQ := dmcIRQ d; sampleAddress :=
     sampleAddress d; sampleLength := sampleLength d; currentLength :=
     currentLength d; shiftRegister := shiftRegister d; bitsRemaining :=
     bitsRemaining d; bufferEmpty := bufferEmpty d; outputLevel :=
     outputLevel d; irqEnabled := irqEnabled d; loop := loop d; rate :=
     rate d; currentAddress := v; sampleBuffer := sampleBuffer d |}.

Definition set_sampleBuffer (d : t) (v : Z) : t :=
  {| enabled := enabled d; dmcIRQ := dmcIRQ d; sampleAddress :=
     sampleAddress d; sampleLength := sampleLength d; currentLength :=
     currentLength d; shiftRegister := shiftRegister d; bitsRemaining :=
     bitsRemaining d; bufferEmpty := bufferEmpty d; outputLevel :=
     outputLevel d; irqEnabled := irqEnabled d; loop := loop d; rate :=
     rate d; currentAddress := currentAddress d; sampleBuffer := v |}.

Definition constructor : t :=
  {| enabled := false; dmcIRQ := false; sampleAddress := 0xC000;
     sampleLength := 1; currentLength := 0; shiftRegister := 0;
     bitsRemaining := 0; bufferEmpty := true; outputLevel := 64;
     irqEnabled := false; loop := false; rate := 0; currentAddress := 0;
     sampleBuffer := 0 |}.

Definition write (d : t) (addr value : Z) : t :=
  if addr =? 0x4010 then
    let d := set_irqEnabled d (negb (JS.band value 0x80 =? 0)) in
    let d := set_loop d (negb (JS.band value 0x40 =? 0)) in
    set_rate d (JS.band value 0x0F)
  else if addr =? 0x4011 then set_outputLevel d (JS.band value 0x7F)
  else if addr =? 0x4012 then set_sampleAddress d (0xC000 + value * 64)
  else if addr =? 0x4013 then set_sampleLength d (value * 16 + 1)
  else d.

Definition restartSample (d : t) : t :=
  set_currentLength (set_currentAddress d (sampleAddress d)) (sampleLength d).

(** [on] is the truthiness of the argument. *)
Definition setEnabled (d : t) (on : bool) : t :=
  let d := set_enabled d on in
  if enabled d && (currentLength d =? 0) then restartSample d else d.

Section WithMemory.
Context {Mem : Type} `{BusRead Mem}.

Definition fetchSample (d : t) (m : Mem) : t * Mem :=
  if 0 <? currentLength d then
    let '(v, m) := bus_read m (currentAddress d) in
    let d := set_sampleBuffer d v in
    let d := set_currentAddress d (currentAddress d + 1) in
    let d := if 0xFFFF <? currentAddress d then set_currentAddress d 0x8000
             else d in
    let d := set_currentLength d (currentLength d - 1) in
    let d := set_bufferEmpty d false in
    let d :=
      if currentLength d =? 0 then
        if loop d then restartSample d
        else if irqEnabled d then set_dmcIRQ d true
        else d
      else d in
    (d, m)
  else (d, m).

(** The second half of [step]: one bit leaves the shift register. *)
Definition shiftBit (d : t) : t :=
  if 0 <? bitsRemaining d then
    let d :=
      if JS.truthy (JS.band (shiftRegister d) 1) then
        if outputLevel d <=? 125 then set_outputLevel d (outputLevel d + 2)
        else d
      else
        if 2 <=? outputLevel d then set_outputLevel d (outputLevel d - 2)
        else d in
    let d := set_shiftRegister d (JS.shr (shiftRegister d) 1) in
    set_bitsRemaining d (bitsRemaining d - 1)
  else d.

Definition step (d : t) (m : Mem) : t * Mem :=
  if negb (enabled d) then (d, m)
  else
    let '(d, m) :=
      if bitsRemaining d =? 0 then
        let '(d, m) := if bufferEmpty d then fetchSample d m else (d, m) in
        let d :=
          if negb (bufferEmpty d) then
            let d := set_shiftRegister d (sampleBuffer d) in
            let d := set_bitsRemaining d 8 in
            set_bufferEmpty d true
          else d in
        (d, m)
      else (d, m) in
    (shiftBit d, m).

(** What a program can do to the channel: a register write (0x4010-0x4013
    arrive here from [APU.write]), an enable through 0x4015, or a clock. *)
Inductive op :=
  | OpWrite (addr value : Z)
  | OpSetEnabled (on : bool)
  | OpStep.

Definition run_op (s : t * Mem) (o : op) : t * Mem :=
  match o with
  | OpWrite addr value => (write (fst s) addr value, snd s)
  | OpSetEnabled on => (setEnabled (fst s) on, snd s)
  | OpStep => step (fst s) (snd s)
  end.

Definition run (s : t * Mem) (ops : list op) : t * Mem := foldl run_op s ops.

End WithMemory.

End DMCChannel.

(** ** apu.js: the APU around the channels *)
Module APU.

(** The pulse, triangle and noise channels are stubs whose only state is
    their [enabled] flag (their register writes do nothing). *)
Record t := mk {
  pulse1 : bool;
  pulse2 : bool;
  triangle : bool;
  noise : bool;
  dmc : DMCChannel.t;
  cycles : Z;
  frameStep : Z;
  frameCounterMode : Z;
  frameIRQ : bool
}.

Definition constructor : t :=
  {| pulse1 := false; pulse2 := false; triangle := false; noise := false;
     dmc := DMCChannel.constructor; cycles := 0; frameStep := 0;
     frameCounterMode := 0; frameIRQ := false |}.

Definition set_dmc (a : t) (v : DMCChannel.t) : t :=
  {| pulse1 := pulse1 a; pulse2 := pulse2 a; triangle := triangle a;
     noise := noise a; dmc := v; cycles := cycles a; frameStep := frameStep a;
     frameCounterMode := frameCounterMode a; frameIRQ := frameIRQ a |}.

Definition set_frameIRQ (a : t) (v : bool) : t :=
  {| pulse1 := pulse1 a; pulse2 := pulse2 a; triangle := triangle a;
     noise := noise a; dmc := dmc a; cycles := cycles a;
     frameStep := frameStep a; frameCounterMode := frameCounterMode a;
     frameIRQ := v |}.

Definition set_frameCounterMode (a : t) (v : Z) : t :=
  {| pulse1 := pulse1 a; pulse2 := pulse2 a; triangle := triangle a;
     noise := noise a; dmc := dmc a; cycles := cycles a;
     frameStep := frameStep a; frameCounterMode := v; frameIRQ := frameIRQ a |}.

Definition set_frameStep (a : t) (v : Z) : t :=
  {| pulse1 := pulse1 a; pulse2 := pulse2 a; triangle := triangle a;
     noise := noise a; dmc := dmc a; cycles := cycles a; frameStep := v;
     frameCounterMode := frameCounterMode a; frameIRQ := frameIRQ a |}.

Definition set_cycles (a : t) (v : Z) : t :=
  {| pulse1 := pulse1 a; pulse2 := pulse2 a; triangle := triangle a;
     noise := noise a; dmc := dmc a; cycles := v; frameStep := frameStep a;
     frameCounterMode := frameCounterMode a; frameIRQ := frameIRQ a |}.

Definition setChannelEnable (a : t) (value : Z) : t :=
  {| pulse1 := JS.truthy (JS.band value 1);
     pulse2 := JS.truthy (JS.band value 2);
     triangle := JS.truthy (JS.band value 4);
     noise := JS.truthy (JS.band value 8);
     dmc := DMCChannel.setEnabled (dmc a) (JS.truthy (JS.band value 16));
     cycles := cycles a; frameStep := frameStep a;
     frameCounterMode := frameCounterMode a; frameIRQ := frameIRQ a |}.

Definition write (a : t) (addr value : Z) : t :=
  if (0x4000 <=? addr) && (addr <=? 0x4003) then a
  else if (0x4004 <=? addr) && (addr <=? 0x4007) then a
  else if (0x4008 <=? addr) && (addr <=? 0x400B) then a
  else if (0x400C <=? addr) && (addr <=? 0x400F) then a
  else if (0x4010 <=? addr) && (addr <=? 0x4013) then
    set_dmc a (DMCChannel.write (dmc a) addr value)
  else if addr =? 0x4015 then setChannelEnable a value
  else if addr =? 0x4017 then
    let a := set_frameCounterMode a (JS.band (JS.shr value 7) 1) in
    if JS.truthy (JS.band value 0x40) then set_frameIRQ a false else a
  else a.

Definition read (a : t) (addr : Z) : Z * t :=
  if addr =? 0x4015 then
    let status :=
      JS.bor (JS.bor (JS.bor (JS.bor
        (if pulse1 a then 1 else 0)
        (if pulse2 a then 2 else 0))
        (if triangle a then 4 else 0))
        (if noise a then 8 else 0))
        (if DMCChannel.enabled (dmc a) then 16 else 0) in
    (status, set_frameIRQ a false)
  else (0, a).

Definition stepFrameCounter (a : t) : t :=
  if frameCounterMode a =? 0 then
    let a := set_frameStep a (JS.rem (frameStep a + 1) 4) in
    if frameStep a =? 3 then set_frameIRQ a true else a
  else set_frameStep a (JS.rem (frameStep a + 1) 5).

Definition step {Mem : Type} `{BusRead Mem} (a : t) (m : Mem) : t * Mem :=
  let a := set_cycles a (cycles a + 1) in
  let a := if JS.rem (cycles a) 7457 =? 0 then stepFrameCounter a else a in
  let '(d, m) := DMCChannel.step (dmc a) m in
  (set_dmc a d, m).

Definition getIRQ (a : t) : bool := frameIRQ a || DMCChannel.dmcIRQ (dmc a).

(** [n] successive calls of [step]. *)
Fixpoint steps {Mem : Type} `{BusRead Mem} (n : nat) (a : t) (m : Mem)
    : t * Mem :=
  match n with
  | O => (a, m)
  | S n' => let '(a1, m1) := step a m in steps n' a1 m1
  end.

End APU.

(** An adapter that is not in the repository.  memory.js calls
    [apu.readRegister] and [apu.writeRegister]; the APU of apu.js has [read]
    and [write] and neither of those names, so on that object, as it is, a
    bus access to 0x4000-0x4015 or 0x4018-0x401F calls an undefined method
    and throws.  This instance is the bus with the two names bound to
    [read] and [write]; what is proved through it holds of such a wiring
    only, and says so. *)
#[export] Instance APU_ApuRegisters : ApuRegisters APU.t :=
  {| readRegister := APU.read; writeRegister := APU.write |}.

(** ** emulator.js: the scheduler *)
Module Emulator.

(** [static NTSC] and [static PAL]; [FPS] is 60.0 and 50.0. *)
Record Region := mkRegion { CPU_HZ : Z; PPU_PER_CPU : Z; FPS : Z }.

Definition NTSC : Region := {| CPU_HZ := 1789773; PPU_PER_CPU := 3; FPS := 60 |}.
Definition PAL : Region := {| CPU_HZ := 1662607; PPU_PER_CPU := 3; FPS := 50 |}.

(** The pluggable components, as the header of emulator.js lists them.  [W]
    is the state of the object graph the emulator drives (CPU, PPU, APU, bus,
    input and the host sinks); a method takes it and returns it updated.
    [ppu_step] returns the [newFrame] flag.  [presentFrame] is the pull of
    the frame buffer and the call of the video sink, when one is attached;
    [pumpAudio] is [_pumpAudio], which moves floating-point samples from the
    APU to the audio sink. *)
Class Components (W : Type) := {
  cpu_step : W -> Z * W;
  cpu_nmi : W -> W;
  cpu_irq : bool -> W -> W;
  ppu_step : W -> bool * W;
  ppu_nmiLine : W -> bool;
  apu_step : Z -> W -> W;
  apu_irqLine : W -> bool;
  mapper_irqLine : W -> bool;
  bus_irqLine : W -> bool;
  presentFrame : W -> W;
  pumpAudio : W -> W
}.

Record FrameStats := mkStats {
  cpuCyclesRun : Z;
  ppuCyclesRun : Z;
  framesCompleted : Z;
  frameIndex : Z
}.

(** [a < b] on numbers with a fractional part. *)
Definition Qltb (a b : Q) : bool := negb (Qle_bool b a).

Section Scheduler.
Context {W : Type} `{Components W}.

Record t := mk {
  region : Region;
  cpuCyclesPerFrame : Q;
  _nmiPrev : bool;
  _frameCounter : Z;
  world : W
}.

Definition set_world (e : t) (w : W) : t :=
  {| region := region e; cpuCyclesPerFrame := cpuCyclesPerFrame e;
     _nmiPrev := _nmiPrev e; _frameCounter := _frameCounter e; world := w |}.

Definition set_nmiPrev (e : t) (v : bool) : t :=
  {| region := region e; cpuCyclesPerFrame := cpuCyclesPerFrame e;
     _nmiPrev := v; _frameCounter := _frameCounter e; world := world e |}.

Definition set_frameCounter (e : t) (v : Z) : t :=
  {| region := region e; cpuCyclesPerFrame := cpuCyclesPerFrame e;
     _nmiPrev := _nmiPrev e; _frameCounter := v; world := world e |}.

(** The part of the constructor that fixes the timing: [region] is the
    upper-cased option compared with ['PAL'], and
    [cpuCyclesPerFrame = CPU_HZ / FPS].  [w] is the object graph as the
    wiring and the [reset] that end the constructor leave it. *)
Definition constructor (pal : bool) (w : W) : t :=
  let r := if pal then PAL else NTSC in
  {| region := r;
     cpuCyclesPerFrame := (inject_Z (CPU_HZ r) / inject_Z (FPS r))%Q;
     _nmiPrev := false; _frameCounter := 0; world := w |}.

Definition _serviceNMI (e : t) : t :=
  let nmiLevel := ppu_nmiLine (world e) in
  let e := if nmiLevel && negb (_nmiPrev e)
           then set_world e (cpu_nmi (world e)) else e in
  set_nmiPrev e nmiLevel.

Definition _serviceIRQ (e : t) : t :=
  let apuIRQ := apu_irqLine (world e) in
  let mapperIRQ := mapper_irqLine (world e) in
  let busIRQ := bus_irqLine (world e) in
  let irqAsserted := apuIRQ || mapperIRQ || busIRQ in
  set_world e (cpu_irq irqAsserted (world e)).

(** The [for] loop of [runFrame] over the PPU cycles of one instruction;
    [n] is the number of iterations left. *)
Fixpoint ppu_cycles (n : nat) (e : t) (ppuCyclesRun framesCompleted : Z)
    : t * Z * Z :=
  match n with
  | O => (e, ppuCyclesRun, framesCompleted)
  | S n' =>
      let '(newFrame, w) := ppu_step (world e) in
      let e := set_world e w in
      let ppuCyclesRun := ppuCyclesRun + 1 in
      let e := _serviceNMI e in
      if (newFrame : bool) then
        ppu_cycles n' (set_world e (presentFrame (world e))) ppuCyclesRun
          (framesCompleted + 1)
      else ppu_cycles n' e ppuCyclesRun framesCompleted
  end.

(** One pass through the body of the [while] loop of [runFrame]. *)
Definition runFrame_body (e : t) (cpuCyclesRun ppuCyclesRun framesCompleted : Z)
    : t * Z * Z * Z :=
  let '(c, w) := cpu_step (world e) in
  let e := set_world e w in
  let cpuCyclesRun := cpuCyclesRun + c in
  let '(e, ppuCyclesRun, framesCompleted) :=
    ppu_cycles (Z.to_nat (c * PPU_PER_CPU (region e))) e ppuCyclesRun
      framesCompleted in
  let e := set_world e (apu_step c (world e)) in
  let e := set_world e (pumpAudio (world e)) in
  let e := _serviceIRQ e in
  (e, cpuCyclesRun, ppuCyclesRun, framesCompleted).

(** The [while] loop; [fuel] bounds the number of passes and [None] means
    the bound was reached with the loop condition still true. *)
Fixpoint runFrame_loop (fuel : nat) (cpuCyclesTarget : Q) (e : t)
    (cpuCyclesRun ppuCyclesRun framesCompleted : Z) : option (t * Z * Z * Z) :=
  if (framesCompleted =? 0) && Qltb (inject_Z cpuCyclesRun) cpuCyclesTarget then
    match fuel with
    | O => None
    | S fuel' =>
        let '(e, cpuCyclesRun, ppuCyclesRun, framesCompleted) :=
          runFrame_body e cpuCyclesRun ppuCyclesRun framesCompleted in
        runFrame_loop fuel' cpuCyclesTarget e cpuCyclesRun ppuCyclesRun
          framesCompleted
    end
  else Some (e, cpuCyclesRun, ppuCyclesRun, framesCompleted).

(** A wiring whose PPU reports a new frame every [period] dots.  [pos] is
    the PPU's position in its frame and [inv] what every component keeps
    true of the wiring: [ppu.step] advances the position by one dot and
    reports a frame exactly when that completes the period; the other
    components leave the position alone; an instruction takes between 1
    and [cmax] cycles. *)
Record FrameClock (period cmax : Z) (inv : W -> Prop) (pos : W -> Z)
    : Prop := {
  clock_range : forall w, inv w -> 0 <= pos w < period;
  clock_ppu : forall w, inv w ->
    fst (ppu_step w) = (period <=? pos w + 1)
    /\ pos (snd (ppu_step w)) = (if period <=? pos w + 1 then 0 else pos w + 1)
    /\ inv (snd (ppu_step w));
  clock_cpu : forall w, inv w ->
    1 <= fst (cpu_step w) <= cmax
    /\ pos (snd (cpu_step w)) = pos w /\ inv (snd (cpu_step w));
  clock_nmi : forall w, inv w -> pos (cpu_nmi w) = pos w /\ inv (cpu_nmi w);
  clock_irq : forall level w, inv w ->
    pos (cpu_irq level w) = pos w /\ inv (cpu_irq level w);
  clock_apu : forall c w, inv w ->
    pos (apu_step c w) = pos w /\ inv (apu_step c w);
  clock_present : forall w, inv w ->
    pos (presentFrame w) = pos w /\ inv (presentFrame w);
  clock_pump : forall w, inv w -> pos (pumpAudio w) = pos w /\ inv (pumpAudio w)
}.

(** The [for] loop of [stepInstruction]: the PPU cycles of one instruction;
    the [newFrame] flag is not looked at. *)
Fixpoint stepInstruction_ppu (n : nat) (e : t) : t :=
  match n with
  | O => e
  | S n' =>
      let '(_, w) := ppu_step (world e) in
      let e := set_world e w in
      stepInstruction_ppu n' (_serviceNMI e)
  end.

Definition stepInstruction (e : t) : Z * t :=
  let '(c, w) := cpu_step (world e) in
  let e := set_world e w in
  let e := stepInstruction_ppu (Z.to_nat (c * PPU_PER_CPU (region e))) e in
  let e := set_world e (apu_step c (world e)) in
  let e := set_world e (pumpAudio (world e)) in
  let e := _serviceIRQ e in
  (c, e).

Definition runFrame (fuel : nat) (e : t) : option (FrameStats * t) :=
  match runFrame_loop fuel (cpuCyclesPerFrame e) e 0 0 0 with
  | None => None
  | Some (e, cpuCyclesRun, ppuCyclesRun, framesCompleted) =>
      let e := set_frameCounter e (_frameCounter e + framesCompleted) in
      Some ({| cpuCyclesRun := cpuCyclesRun; ppuCyclesRun := ppuCyclesRun;
               framesCompleted := framesCompleted;
               frameIndex := _frameCounter e |}, e)
  end.

End Scheduler.

Arguments t W : clear implicits.

End Emulator.

(** ** Concrete collaborators

    The cartridge class is not among the sources, and the scheduler is
    written against pluggable components; the instances below are the ones
    the examples and counterexamples run on. *)

(** Modelled from the spec: the cartridge behind [cartridge.cpuRead] and
    [cartridge.cpuWrite], which is not among the sources.  Mapper 0 (NROM):
    a PRG-ROM of 16 or 32 KiB mirrored into 0x8000-0xFFFF; the ROM ignores
    writes, and addresses below 0x8000 read as 0. *)
Module NROM.

Record t := mk { prg : list Z }.

Definition read (c : t) (addr : Z) : Z * t :=
  if 0x8000 <=? addr then
    (JS.get (prg c) ((addr - 0x8000) mod Z.of_nat (length (prg c))), c)
  else (0, c).

Definition write (c : t) (addr value : Z) : t := c.

(** A 16 KiB PRG filled with [fill] whose reset vector (0xFFFC, 0xFFFD)
    holds [lo], [hi]. *)
Definition image (fill lo hi : Z) : t :=
  {| prg := replicate (Z.to_nat 16380) fill ++ [lo; hi; fill; fill] |}.

(** A 16 KiB PRG that starts with [code] (at 0x8000) and is zero up to the
    reset vector, which holds 0x8000. *)
Definition program (code : list Z) : t :=
  {| prg := code ++ replicate (Z.to_nat 16380 - length code) 0
            ++ [0x00; 0x80; 0; 0] |}.

End NROM.

#[export] Instance NROM_Cartridge : Cartridge NROM.t :=
  {| cpuRead := NROM.read; cpuWrite := NROM.write |}.

(** The bus and the CPU of a console with an NROM cartridge and the APU of
    apu.js, as their constructors leave them. *)
Definition console_bus (cart : NROM.t) : Memory.t NROM.t APU.t :=
  Memory.constructor cart (PPU.constructor [] []) APU.constructor
    Input.constructor.

Definition console_cpu (cart : NROM.t) : CPU.t NROM.t APU.t :=
  CPU.constructor (console_bus cart).

(** A console whose 16 KiB PRG is zero but for the reset vector 0x8000. *)
Definition blank_bus : Memory.t NROM.t APU.t :=
  console_bus (NROM.image 0 0x00 0x80).

(** A host wiring for the scheduler: the CPU of cpu.js on the bus of
    memory.js, and a PPU reduced to its dot counter, which reports a new
    frame every [frameDots] dots.  [ntscDots] is the frame of [PPU.step]
    ([cycle] runs to 340 and [scanline] to 261).  No interrupt line is ever
    raised and the sinks are detached. *)
Module Harness.

Record t := mk { cpu : CPU.t NROM.t APU.t; dots : Z; frameDots : Z }.

Definition ntscDots : Z := 341 * 262.

Definition ppu_step (w : t) : bool * t :=
  let d := dots w + 1 in
  if frameDots w <=? d then
    (true, {| cpu := cpu w; dots := 0; frameDots := frameDots w |})
  else (false, {| cpu := cpu w; dots := d; frameDots := frameDots w |}).

Definition cpu_step (w : t) : Z * t :=
  (fst (CPU.step (cpu w)),
   {| cpu := snd (CPU.step (cpu w)); dots := dots w;
      frameDots := frameDots w |}).

Definition cpu_nmi (w : t) : t :=
  {| cpu := snd (CPU.nmi (cpu w)); dots := dots w; frameDots := frameDots w |}.

(** The scheduler calls [cpu.irq(irqAsserted)] after every instruction;
    the [irq] of cpu.js has no parameter, so the level is ignored and the
    interrupt is taken whenever the I flag is clear. *)
Definition cpu_irq (level : bool) (w : t) : t :=
  {| cpu := snd (CPU.irq (cpu w)); dots := dots w; frameDots := frameDots w |}.

(** The harness with a PPU frame of 341 * 262 dots, inside its frame. *)
Definition ntsc_frame (w : t) : Prop :=
  frameDots w = ntscDots /\ 0 <= dots w < ntscDots.

(** The console after [reset], with the PPU at dot [dots] of its frame. *)
Definition power_on (cart : NROM.t) (dots frameDots : Z) : t :=
  {| cpu := snd (CPU.reset (console_cpu cart)); dots := dots;
     frameDots := frameDots |}.

End Harness.

#[export] Instance Harness_Components : Emulator.Components Harness.t :=
  {| Emulator.cpu_step := Harness.cpu_step;
     Emulator.cpu_nmi := Harness.cpu_nmi;
     Emulator.cpu_irq := Harness.cpu_irq;
     Emulator.ppu_step := Harness.ppu_step;
     Emulator.ppu_nmiLine := fun _ => false;
     Emulator.apu_step := fun _ w => w;
     Emulator.apu_irqLine := fun _ => false;
     Emulator.mapper_irqLine := fun _ => false;
     Emulator.bus_irqLine := fun _ => false;
     Emulator.presentFrame := fun w => w;
     Emulator.pumpAudio := fun w => w |}.

(** The NTSC scheduler over the harness, as its constructor leaves it. *)
Definition ntsc_emulator (w : Harness.t) : Emulator.t Harness.t :=
  Emulator.constructor false w.

(** The warnings on the console once [runFrame] has returned. *)
Definition warnings_after (r : option (Emulator.FrameStats * Emulator.t Harness.t))
    : option (list Z) :=
  option_map (fun x => CPU.console (Harness.cpu (Emulator.world (snd x)))) r.

(** [n] successive [step2]s: the cycle counts in order and the CPU
    afterwards. *)
Fixpoint steps2 (n : nat) (c : CPU.t NROM.t APU.t)
    : list Z * CPU.t NROM.t APU.t :=
  match n with
  | O => ([], c)
  | S n' =>
      let '(k, c1) := CPU.step2 c in
      let '(ks, c2) := steps2 n' c1 in
      (k :: ks, c2)
  end.

(** The console of [blank_bus] with only Start held on port 1. *)
Definition start_held_bus : Memory.t NROM.t APU.t :=
  Memory.set_controllers blank_bus
    {| Input.player1 := Controller.setButton Controller.constructor "Start" true;
       Input.player2 := Controller.constructor |}.

(** A CPU with A, X and Y loaded, on a cartridge whose reset vector is
    0x1234. *)
Definition loaded_cpu : CPU.t NROM.t APU.t :=
  CPU.set_Y 0x99 (CPU.set_X 0x17 (CPU.set_A 0x42
    (console_cpu (NROM.image 0 0x34 0x12)))).

(** A PPU in VBlank, between the two writes of an address pair: the status
    is 0xE0 and the write toggle is 1. *)
Definition vblank_ppu : PPU.t :=
  PPU.set_writeToggle (PPU.set_status (PPU.constructor [] []) 0xE0) 1.

(** A PPU whose DMA source holds 7 at 0x0200 and whose OAMADDR is 4. *)
Definition dma_ppu : PPU.t :=
  PPU.writeRegister
    (PPU.constructor [] (replicate (Z.to_nat 0x0200) 0 ++ [7])) 0x2003 4.

(** The CPU of a console as the constructors leave it: SP is 0xFD, the
    status is 0x24 and the RAM is zero. *)
Definition fresh_cpu : CPU.t NROM.t APU.t :=
  console_cpu (NROM.image 0 0x00 0x80).

(** A PPU as its constructor leaves it, with no CHR-ROM and no DMA source. *)
Definition fresh_ppu : PPU.t := PPU.constructor [] [].

(** ** Well-formed states

    The sizes and ranges the constructors establish, as predicates on the
    records. *)
Module WF.

Definition byte (x : Z) : Prop := 0 <= x < 256.

(** The RAM is the 2 KiB [Uint8Array] of the constructor: 0x0800 cells,
    each a byte. *)
Definition ram {C A : Type} (m : Memory.t C A) : Prop :=
  length (Memory.ram m) = Z.to_nat 0x0800 /\ Forall byte (Memory.ram m).

(** The PPU is inside its frame, 341 dots by 262 lines. *)
Definition position (p : PPU.t) : Prop :=
  0 <= PPU.cycle p <= 340 /\ 0 <= PPU.scanline p <= 261.

(** The status is a byte whose bit 7 (VBlank) is set exactly on the lines
    241 to 261. *)
Definition vblank (p : PPU.t) : Prop :=
  byte (PPU.status p)
  /\ JS.truthy (JS.band (PPU.status p) 0x80) = (241 <=? PPU.scanline p).

(** The sample window of the DMC: the length registers are positive, the
    start address is one that a byte written to 0x4012 gives, and while
    bytes remain to be fetched the fetch address is in 0x8000-0xFFFF. *)
Definition dmc (d : DMCChannel.t) : Prop :=
  0 <= DMCChannel.currentLength d
  /\ 1 <= DMCChannel.sampleLength d
  /\ 0xC000 <= DMCChannel.sampleAddress d <= 0xFFC0
  /\ (0 < DMCChannel.currentLength d ->
      0x8000 <= DMCChannel.currentAddress d <= 0xFFFF).

(** A register write carries a byte, as the bus delivers it. *)
Definition dmc_op (o : DMCChannel.op) : Prop :=
  match o with
  | DMCChannel.OpWrite _ value => byte value
  | _ => True
  end.

(** The value of an 8-bit register read as a signed number. *)
Definition signed (x : Z) : Z := if x <? 128 then x else x - 256.

End WF.

(** ** Checked tables

    Boolean predicates that the properties below evaluate on every byte,
    pair of bytes or address of a range. *)
Module Checks.

(** The two closed forms, checked on each address of 0x2000-0x3FFF. *)
Definition horizontal_ok (a : Z) : bool :=
  PPU.mirrorAddress "horizontal" a
  =? a mod 0x400 + 0x400 * ((a / 0x400) mod 2).

Definition other_ok (a : Z) : bool :=
  PPU.mirrorAddress "vertical" a
  =? a mod 0x400 + 0x400 * ((a / 0x800) mod 2).

(** What the three updates of the status do to a status byte. *)
Definition status_ok (s : Z) : bool :=
  (0 <=? JS.bor s 0x80) && (JS.bor s 0x80 <? 256)
  && (0 <=? JS.bor s 0x40) && (JS.bor s 0x40 <? 256)
  && (0 <=? JS.band s 0x7F) && (JS.band s 0x7F <? 256)
  && JS.truthy (JS.band (JS.bor s 0x80) 0x80)
  && negb (JS.truthy (JS.band (JS.band s 0x7F) 0x80))
  && Bool.eqb (JS.truthy (JS.band (JS.bor s 0x40) 0x80))
              (JS.truthy (JS.band s 0x80)).

(** The high byte of the address latch, checked on every pair of bytes. *)
Definition latch_ok (r hi : Z) : bool :=
  Z.land (r + 256 * hi) 0xFF00 =? 256 * hi.

(** [setFlag] and [getFlag] on the status alone. *)
Definition sf (s flag : Z) (b : bool) : Z :=
  if b then JS.bor s flag else JS.band s (JS.bnot flag).

Definition gf (s flag : Z) : bool := negb (JS.band s flag =? 0).

(** The flag of bit [k]: [1 << k]. *)
Definition flag (k : Z) : Z := JS.shl 1 k.

(** On a status byte the two updates are [Z.setbit] and [Z.clearbit] and
    the test is [Z.testbit]; checked on every byte and every flag. *)
Definition flag_ok (s k : Z) : bool :=
  (sf s (flag k) true =? Z.setbit s k)
  && (sf s (flag k) false =? Z.clearbit s k)
  && Bool.eqb (gf s (flag k)) (Z.testbit s k)
  && (0 <=? Z.setbit s k) && (Z.setbit s k <? 256)
  && (0 <=? Z.clearbit s k) && (Z.clearbit s k <? 256).

(** Bit 7 and the low byte of a sum of two bytes and a carry. *)
Definition sum_ok (r : Z) : bool :=
  Bool.eqb (JS.truthy (JS.band r 0x80)) (128 <=? r mod 256)
  && (JS.band r 0xFF =? r mod 256).

(** The overflow test of [adc] against the signed sum, and the operand of
    [sbc], on every pair of bytes. *)
Definition overflow_code (a v carry : Z) : bool :=
  JS.truthy
    (JS.band (JS.band (JS.bnot (JS.bxor a v)) (JS.bxor a (a + v + carry))) 0x80).

Definition overflow_signed (a v carry : Z) : bool :=
  (WF.signed a + WF.signed v + carry <? -128)
  || (127 <? WF.signed a + WF.signed v + carry).

(** The same test written with the operators of [Z], which it equals on
    bytes, and the check of it on every pair of bytes. *)
Definition overflow_bitwise (a v carry : Z) : bool :=
  negb (Z.land (Z.land (Z.lnot (Z.lxor a v)) (Z.lxor a (a + v + carry))) 0x80
        =? 0).

Definition overflow_ok (a v : Z) : bool :=
  Bool.eqb (overflow_bitwise a v 0) (overflow_signed a v 0)
  && Bool.eqb (overflow_bitwise a v 1) (overflow_signed a v 1)
  && (Z.land (Z.lnot v) 0xFF =? 255 - v).

(** The status that [APU.read] assembles from the five enable bits that
    [APU.setChannelEnable] takes from a byte. *)
Definition enable_ok (w : Z) : bool :=
  JS.bor (JS.bor (JS.bor (JS.bor
    (if JS.truthy (JS.band w 1) then 1 else 0)
    (if JS.truthy (JS.band w 2) then 2 else 0))
    (if JS.truthy (JS.band w 4) then 4 else 0))
    (if JS.truthy (JS.band w 8) then 8 else 0))
    (if JS.truthy (JS.band w 16) then 16 else 0)
  =? w mod 32.

End Checks.

(** * Properties of the code *)

(** ** JavaScript integer operators *)
Module JSFacts.
Import JS.

Lemma toInt32_small z : -2147483648 <= z < 2147483648 -> toInt32 z = z.
Proof.
  intros Hz. unfold toInt32.
  rewrite Z.mod_small by lia. lia.
Qed.

Lemma toInt32_mod z : toInt32 z mod 4294967296 = z mod 4294967296.
Proof.
  unfold toInt32.
  rewrite Zminus_mod_idemp_l.
  f_equal. lia.
Qed.

Lemma land_low32 z m :
  0 <= m < 4294967296 -> Z.land z m = Z.land (z mod 4294967296) m.
Proof.
  intros Hm.
  assert (Hones : m = Z.land (Z.ones 32) m).
  { rewrite Z.land_comm, Z.land_ones by lia.
    change (2 ^ 32) with 4294967296. rewrite Z.mod_small; lia. }
  rewrite Hones at 1.
  rewrite Z.land_assoc, Z.land_ones by lia. reflexivity.
Qed.

(** Masking with a non-negative 31-bit constant is plain [Z.land]. *)
Lemma band_mask z m : 0 <= m < 2147483648 -> band z m = Z.land z m.
Proof.
  intros Hm. unfold band.
  rewrite (toInt32_small m) by lia.
  rewrite (land_low32 (toInt32 z)), (land_low32 z) by lia.
  now rewrite toInt32_mod.
Qed.

Lemma band_FFFF z : band z 0xFFFF = z mod 65536.
Proof.
  rewrite band_mask by lia.
  change 0xFFFF with (Z.ones 16). now rewrite Z.land_ones by lia.
Qed.

Lemma band_FFFF_small z : 0 <= z < 65536 -> band z 0xFFFF = z.
Proof. intros Hz. rewrite band_FFFF. now apply Z.mod_small. Qed.

Lemma band_FF_byte z : 0 <= z < 256 -> band z 0xFF = z.
Proof.
  intros Hz. rewrite band_mask by lia.
  change 0xFF with (Z.ones 8). rewrite Z.land_ones by lia.
  now apply Z.mod_small.
Qed.

Lemma band_range z m : 0 <= m < 2147483648 -> 0 <= band z m <= m.
Proof.
  intros Hm. rewrite band_mask by lia. split.
  - apply Z.land_nonneg. lia.
  - destruct (Z.eq_dec m 0) as [->|Hne].
    + rewrite Z.land_0_r. lia.
    + rewrite Z.land_comm.
      assert (H := Z.land_nonneg m z).
      destruct (Z.ltb_spec (Z.land m z) (m + 1)) as [|Hge]; [lia|].
      exfalso.
      assert (Hsub : Z.land (Z.land m z) (Z.lnot m) = 0).
      { rewrite (Z.land_comm m z), <- Z.land_assoc, Z.land_lnot_diag.
        apply Z.land_0_r. }
      assert (Hle : Z.ldiff (Z.land m z) m = 0).
      { unfold Z.ldiff in *. rewrite <- Z.ldiff_land in Hsub. exact Hsub. }
      apply Z.ldiff_le in Hle; lia.
Qed.


Lemma rem_nonneg a b : 0 <= a -> 0 < b -> rem a b = a mod b.
Proof. intros Ha Hb. unfold rem. apply Z.rem_mod_nonneg; lia. Qed.

(** [(high << 8) | low] on two bytes is the little-endian 16-bit word. *)
Lemma word_of_bytes lo hi :
  0 <= lo < 256 -> 0 <= hi < 256 -> bor (shl hi 8) lo = lo + 256 * hi.
Proof.
  intros Hlo Hhi. unfold bor, shl.
  rewrite (toInt32_small hi), (toInt32_small lo) by lia.
  change (8 mod 32) with 8.
  rewrite Z.shiftl_mul_pow2 by lia.
  rewrite !(toInt32_small (hi * 2 ^ 8)) by (change (2 ^ 8) with 256; lia).
  assert (Hdisj : Z.land (hi * 2 ^ 8) lo = 0).
  { apply Z.bits_inj'. intros n Hn.
    rewrite Z.land_spec, Z.bits_0.
    destruct (Z.lt_ge_cases n 8) as [Hlt|Hge].
    - now rewrite Z.mul_pow2_bits_low.
    - rewrite andb_false_iff. right.
      destruct (Z.eq_dec lo 0) as [->|Hne]; [apply Z.bits_0|].
      apply Z.bits_above_log2; [lia|].
      assert (Z.log2 lo < 8); [|lia].
      apply Z.log2_lt_pow2; [lia|]. change (2 ^ 8) with 256. lia. }
  rewrite <- (Z.lxor_lor _ _ Hdisj), <- (Z.add_nocarry_lxor _ _ Hdisj).
  change (2 ^ 8) with 256. lia.
Qed.

Lemma testbit_7F i : 0 <= i < 7 -> Z.testbit 0x7F i = true.
Proof.
  intros Hi.
  assert (Hc : i = 0 \/ i = 1 \/ i = 2 \/ i = 3 \/ i = 4 \/ i = 5 \/ i = 6) by lia.
  repeat (destruct Hc as [->|Hc]; [reflexivity|]). now subst.
Qed.

End JSFacts.

(** ** The bus (memory.js) *)
Module BusFacts.
Import JSFacts.

Section Decode.
Context {C A : Type} `{Cartridge C} `{ApuRegisters A}.
Implicit Types m : Memory.t C A.

Lemma set_ppu_same m : Memory.set_ppu m (Memory.ppu m) = m.
Proof. now destruct m. Qed.

(** An address below 0x2000 reads the RAM cell [addr mod 0x0800] and leaves
    the bus as it was. *)
Lemma read_ram m addr :
  0 <= addr < 0x2000 ->
  Memory.read m addr = (JS.get (Memory.ram m) (addr mod 0x0800), m).
Proof.
  intros Ha. cbv beta zeta delta [Memory.read].
  rewrite band_FFFF_small by lia.
  destruct (Z.ltb_spec addr 0x2000) as [_|]; [|lia].
  now rewrite rem_nonneg by lia.
Qed.

(** The register number the bus hands to the PPU is below 8, and the PPU's
    handlers compare it with 0x2000-0x2007 and 0x4014. *)
Lemma readRegister_low p k : 0 <= k < 8 -> PPU.readRegister p k = (0, p).
Proof.
  intros Hk. unfold PPU.readRegister.
  destruct (Z.eqb_spec k 0x2002); [lia|].
  destruct (Z.eqb_spec k 0x2007); [lia|]. reflexivity.
Qed.

Lemma writeRegister_low p k v : 0 <= k < 8 -> PPU.writeRegister p k v = p.
Proof.
  intros Hk. unfold PPU.writeRegister.
  repeat match goal with
         | |- context [Z.eqb k ?c] => destruct (Z.eqb_spec k c); [lia|]
         end.
  reflexivity.
Qed.

Lemma rem8_range addr : 0 <= addr -> 0 <= JS.rem addr 8 < 8.
Proof.
  intros Ha. rewrite rem_nonneg by lia. apply Z.mod_pos_bound. lia.
Qed.

Lemma read_ppu_range m addr :
  0x2000 <= addr < 0x4000 -> Memory.read m addr = (0, m).
Proof.
  intros Ha. cbv beta zeta delta [Memory.read].
  rewrite band_FFFF_small by lia.
  destruct (Z.ltb_spec addr 0x2000); [lia|].
  destruct (Z.ltb_spec addr 0x4000); [|lia].
  rewrite readRegister_low by (apply rem8_range; lia).
  now rewrite set_ppu_same.
Qed.

Lemma write_ppu_range m addr value :
  0x2000 <= addr < 0x4000 -> Memory.write m addr value = m.
Proof.
  intros Ha. cbv beta zeta delta [Memory.write].
  rewrite band_FFFF_small by lia.
  destruct (Z.ltb_spec addr 0x2000); [lia|].
  destruct (Z.ltb_spec addr 0x4000); [|lia].
  rewrite writeRegister_low by (apply rem8_range; lia).
  apply set_ppu_same.
Qed.

(** Two addresses of the RAM window that agree modulo 0x0800 read the same
    cell. *)
Lemma ram_cell_shared m a b :
  0 <= a < 0x2000 -> 0 <= b < 0x2000 -> a mod 0x0800 = b mod 0x0800 ->
  fst (Memory.read m a) = fst (Memory.read m b).
Proof.
  intros Ha Hb Hab. rewrite !read_ram by lia. simpl. now rewrite Hab.
Qed.

(** C2 (as amended).  After any sequence of bus writes, every address in
    [0, 0x1800) reads the same byte as the address 0x0800 above it: the
    2 KiB RAM is mirrored across 0x0000-0x1FFF.  (From 0x1800 on, the
    address 0x0800 above lies in the PPU register window.) *)
Theorem ram_mirror_0800 m (ws : list (Z * Z)) addr :
  0 <= addr < 0x1800 ->
  fst (Memory.read (Memory.writes m ws) addr)
  = fst (Memory.read (Memory.writes m ws) (addr + 0x0800)).
Proof.
  intros Ha. apply ram_cell_shared; try lia.
  replace (addr + 0x0800) with (addr + 1 * 0x0800) by lia.
  now rewrite Z.mod_add by lia.
Qed.

(** C10.  The bus hands [addr % 8] to the PPU's register handlers, which
    compare it with the full addresses 0x2000-0x2007: a bus read of an
    address in [0x2000, 0x4000) returns 0 and a bus write to that range
    changes nothing, so the PPU (registers, latches, VRAM, OAM) is as it was
    after either. *)
Theorem ppu_window_inert m addr value :
  0x2000 <= addr < 0x4000 ->
  fst (Memory.read m addr) = 0
  /\ Memory.ppu (snd (Memory.read m addr)) = Memory.ppu m
  /\ Memory.ppu (Memory.write m addr value) = Memory.ppu m
  /\ snd (Memory.read m addr) = m
  /\ Memory.write m addr value = m.
Proof.
  intros Ha.
  rewrite read_ppu_range, write_ppu_range by assumption.
  repeat split.
Qed.

(** C3.  Every address in [0x2000, 0x4000) reads the same value as its
    image [0x2000 + (addr & 7)] among the first eight: the PPU registers are
    mirrored every 8 bytes through 0x3FFF.  This holds whether the two reads
    are made on the same bus state or one after the other. *)
Theorem ppu_registers_mirrored m addr :
  0x2000 <= addr < 0x4000 ->
  fst (Memory.read m addr) = fst (Memory.read m (0x2000 + JS.band addr 7))
  /\ fst (Memory.read (snd (Memory.read m addr)) (0x2000 + JS.band addr 7))
     = fst (Memory.read m addr).
Proof.
  intros Ha.
  assert (Hk := band_range addr 7 ltac:(lia)).
  rewrite !read_ppu_range by lia.
  split; reflexivity.
Qed.

End Decode.

Lemma ram_mirror_0800_witness :
  0 <= 0x0010 < 0x1800
  /\ fst (Memory.read (Memory.writes blank_bus [(0x0010, 7)]) 0x0010)
     = fst (Memory.read (Memory.writes blank_bus [(0x0010, 7)])
              (0x0010 + 0x0800)).
Proof.
  split; [lia | apply (ram_mirror_0800 blank_bus [(0x0010, 7)] 0x0010); lia].
Defined.

(** C2 as stated fails at 0x1800: after 1 is written there, the address
    reads 1, while 0x1800 + 0x0800 = 0x2000 is decoded to the PPU and
    reads 0. *)
Lemma ram_mirror_1800_cex :
  0 <= 0x1800 < 0x2000
  /\ fst (Memory.read (Memory.writes blank_bus [(0x1800, 1)]) 0x1800) = 1
  /\ fst (Memory.read (Memory.writes blank_bus [(0x1800, 1)])
            (0x1800 + 0x0800)) = 0
  /\ fst (Memory.read (Memory.writes blank_bus [(0x1800, 1)]) 0x1800)
     <> fst (Memory.read (Memory.writes blank_bus [(0x1800, 1)])
               (0x1800 + 0x0800)).
Proof.
  split; [lia|]. vm_compute. repeat split; discriminate.
Qed.

Lemma ppu_window_inert_witness :
  0x2000 <= 0x2002 < 0x4000
  /\ fst (Memory.read blank_bus 0x2002) = 0
  /\ Memory.ppu (snd (Memory.read blank_bus 0x2002)) = Memory.ppu blank_bus
  /\ Memory.ppu (Memory.write blank_bus 0x2002 0x80) = Memory.ppu blank_bus
  /\ snd (Memory.read blank_bus 0x2002) = blank_bus
  /\ Memory.write blank_bus 0x2002 0x80 = blank_bus.
Proof.
  split; [lia | apply (ppu_window_inert blank_bus 0x2002 0x80); lia].
Defined.

Lemma ppu_registers_mirrored_witness :
  0x2000 <= 0x3FFA < 0x4000
  /\ fst (Memory.read blank_bus 0x3FFA)
     = fst (Memory.read blank_bus (0x2000 + JS.band 0x3FFA 7))
  /\ fst (Memory.read (snd (Memory.read blank_bus 0x3FFA))
            (0x2000 + JS.band 0x3FFA 7))
     = fst (Memory.read blank_bus 0x3FFA).
Proof.
  split; [lia | apply (ppu_registers_mirrored blank_bus 0x3FFA); lia].
Defined.

End BusFacts.

(** ** The PPU's register handlers (ppu.js) *)
Module PPUFacts.
Import JSFacts.

(** The handler called with 0x2002, which the bus never does: it returns
    the status byte as it stood; afterwards bit 7 (VBlank) of the status
    and the write toggle [w] are clear, every other status bit [i] is as
    before, and no other field of the PPU has changed. *)
Lemma status_read (p : PPU.t) (i : Z) :
  0 <= i < 7 ->
  fst (PPU.readRegister p 0x2002) = PPU.status p
  /\ PPU.status (snd (PPU.readRegister p 0x2002)) = Z.land (PPU.status p) 0x7F
  /\ Z.testbit (PPU.status (snd (PPU.readRegister p 0x2002))) 7 = false
  /\ Z.testbit (PPU.status (snd (PPU.readRegister p 0x2002))) i
     = Z.testbit (PPU.status p) i
  /\ PPU.writeToggle (snd (PPU.readRegister p 0x2002)) = 0
  /\ snd (PPU.readRegister p 0x2002)
     = PPU.set_writeToggle
         (PPU.set_status p (PPU.status (snd (PPU.readRegister p 0x2002)))) 0.
Proof.
  intros Hi.
  change (PPU.readRegister p 0x2002)
    with (PPU.status p,
          PPU.set_writeToggle (PPU.set_status p (JS.band (PPU.status p) 0x7F)) 0).
  cbn [fst snd PPU.status PPU.writeToggle PPU.set_writeToggle PPU.set_status].
  rewrite band_mask by lia.
  repeat split.
  - rewrite Z.land_spec. change (Z.testbit 0x7F 7) with false.
    apply andb_false_r.
  - rewrite Z.land_spec, testbit_7F by lia. apply andb_true_r.
Qed.

Section Bus.
Context {C A : Type} `{Cartridge C} `{ApuRegisters A}.

(** C7.  A CPU read of 0x2002 does not reach the status register.  On any
    bus whose PPU is in VBlank with the write toggle set (status 0xE0,
    toggle 1), the read returns 0 and leaves the bus as it was: the status
    is still 0xE0 and the toggle still 1.  The bus hands [0x2002 % 8 = 2]
    to [readRegister], whose case labels are the full addresses.  The
    handler's own case 0x2002, reached only by a direct call, returns 0xE0
    and leaves the status 0x60 and the toggle 0. *)
Theorem status_read_through_bus (m : Memory.t C A) :
  Memory.read (Memory.set_ppu m vblank_ppu) 0x2002
  = (0, Memory.set_ppu m vblank_ppu)
  /\ PPU.status
       (Memory.ppu (snd (Memory.read (Memory.set_ppu m vblank_ppu) 0x2002)))
     = 0xE0
  /\ PPU.writeToggle
       (Memory.ppu (snd (Memory.read (Memory.set_ppu m vblank_ppu) 0x2002)))
     = 1
  /\ JS.rem 0x2002 8 = 2
  /\ PPU.readRegister vblank_ppu 2 = (0, vblank_ppu)
  /\ PPU.readRegister vblank_ppu 0x2002
     = (0xE0, PPU.set_writeToggle (PPU.set_status vblank_ppu 0x60) 0).
Proof.
  rewrite BusFacts.read_ppu_range by lia.
  cbn [snd Memory.ppu Memory.set_ppu].
  repeat split.
Qed.

End Bus.

(** The copy loop of [performDMA] after [n] iterations: the first [n] cells
    hold the bytes of the source, the rest are untouched. *)
Lemma dma_fold (src : list Z) (base : Z) (n : nat) (oam : list Z) (i : Z) :
  0 <= i ->
  length (foldl (PPU.dma_byte src base) oam (seqZ 0 (Z.of_nat n))) = length oam
  /\ (i < Z.of_nat n -> i < Z.of_nat (length oam) ->
      JS.get (foldl (PPU.dma_byte src base) oam (seqZ 0 (Z.of_nat n))) i
      = JS.toUint8 (default 0 (JS.index src (base + i))))
  /\ (Z.of_nat n <= i ->
      JS.get (foldl (PPU.dma_byte src base) oam (seqZ 0 (Z.of_nat n))) i
      = JS.get oam i).
Proof.
  intros Hi. induction n as [|n IH].
  - simpl. repeat split; first [lia | reflexivity].
  - rewrite seqZ_S, foldl_app. simpl foldl.
    rewrite Z.add_0_l.
    destruct IH as (Hlen & Hlow & Hhigh).
    set (r := foldl (PPU.dma_byte src base) oam (seqZ 0 (Z.of_nat n))) in *.
    unfold PPU.dma_byte at 1 2 3, JS.store_val, JS.store.
    destruct (Z.ltb_spec (Z.of_nat n) 0) as [|_]; [lia|].
    unfold JS.get in *.
    rewrite Nat2Z.id.
    split; [now rewrite length_insert|].
    split.
    + intros Hlt Hin.
      destruct (Z.eq_dec i (Z.of_nat n)) as [->|Hne].
      * rewrite Nat2Z.id, list_lookup_total_insert_eq by lia. reflexivity.
      * rewrite list_lookup_total_insert_ne by lia. apply Hlow; lia.
    + intros Hge. rewrite list_lookup_total_insert_ne by lia. apply Hhigh. lia.
Qed.

Lemma performDMA_spec (p : PPU.t) (page i : Z) :
  length (PPU.oam p) = 256%nat -> 0 <= i < 256 ->
  JS.get (PPU.oam (PPU.performDMA p page)) i
  = JS.toUint8 (default 0 (JS.index (PPU.cpuMemory p) (JS.shl page 8 + i)))
  /\ length (PPU.oam (PPU.performDMA p page)) = 256%nat
  /\ PPU.performDMA p page = PPU.set_oam p (PPU.oam (PPU.performDMA p page)).
Proof.
  intros Hlen Hi. unfold PPU.performDMA.
  cbn [PPU.oam PPU.set_oam].
  pose proof (dma_fold (PPU.cpuMemory p) (JS.shl page 8) 256 (PPU.oam p) i
                ltac:(lia)) as (Hl & Hlow & _).
  change (Z.of_nat 256) with 256 in Hl, Hlow.
  split; [apply Hlow; lia|].
  split; [now rewrite Hl | reflexivity].
Qed.

End PPUFacts.

(** ** The CPU (cpu.js) *)
Module CPUFacts.
Import JSFacts.

Section Core.
Context {Cart Apu : Type} `{Cartridge Cart} `{ApuRegisters Apu}.
Implicit Types c : CPU.t Cart Apu.

(** The value of a method does not depend on what runs before it, when
    what runs after always returns that value. *)
Lemma fst_bind {R S : Type} (m : CPU.M R) (k : R -> CPU.M S) (v : S) c :
  (forall r c1, fst (k r c1) = v) -> fst (CPU.bind m k c) = v.
Proof.
  intros Hk. unfold CPU.bind. destruct (m c) as [r c1]. apply Hk.
Qed.

(** An address from 0x4020 up is the cartridge's. *)
Lemma read_cartridge (m : Memory.t Cart Apu) addr :
  0x4020 <= addr < 0x10000 ->
  Memory.read m addr
  = (fst (cpuRead (Memory.cartridge m) addr),
     Memory.set_cartridge m (snd (cpuRead (Memory.cartridge m) addr))).
Proof.
  intros Ha. cbv beta zeta delta [Memory.read].
  rewrite band_FFFF_small by lia.
  destruct (Z.ltb_spec addr 0x2000); [lia|].
  destruct (Z.ltb_spec addr 0x4000); [lia|].
  destruct (Z.eqb_spec addr 0x4016); [lia|].
  destruct (Z.eqb_spec addr 0x4017); [lia|].
  destruct (Z.leb_spec 0x4000 addr); [|lia].
  destruct (Z.ltb_spec addr 0x4020); [lia|].
  destruct (Z.leb_spec 0x4020 addr); [|lia].
  cbn [orb andb]. now destruct (cpuRead (Memory.cartridge m) addr).
Qed.

(** A bus read never changes the RAM. *)
Lemma read_keeps_ram (m : Memory.t Cart Apu) addr :
  Memory.ram (snd (Memory.read m addr)) = Memory.ram m.
Proof.
  cbv beta zeta delta [Memory.read].
  repeat match goal with
         | |- context [if ?b then _ else _] => destruct b
         | |- context [let '(_, _) := ?x in _] => destruct x
         end; reflexivity.
Qed.

Lemma reset_unfold c :
  CPU.reset c
  = (tt,
     CPU.set_PC
       (JS.bor
          (JS.shl
             (fst (Memory.read (snd (Memory.read (CPU.memory c) 0xFFFC))
                     (0xFFFC + 1))) 8)
          (fst (Memory.read (CPU.memory c) 0xFFFC)))
       (CPU.set_memory
          (snd (Memory.read (snd (Memory.read (CPU.memory c) 0xFFFC))
                  (0xFFFC + 1)))
          (CPU.set_status 0x24
             (CPU.set_SP 0xFD (CPU.set_Y 0 (CPU.set_X 0 (CPU.set_A 0 c))))))).
Proof.
  cbv beta iota zeta delta
    [CPU.reset CPU.readWord CPU.read CPU.modify CPU.bind CPU.M_bind CPU.M_ret
     CPU.ret mbind mret CPU.set_A CPU.set_X CPU.set_Y CPU.set_SP CPU.set_status
     CPU.set_memory CPU.set_PC CPU.memory CPU.A CPU.X CPU.Y CPU.SP CPU.PC
     CPU.status CPU.cycles CPU.console].
  destruct c as [a x y sp pc st cy mem con].
  destruct (Memory.read mem 0xFFFC) as [low m1].
  cbn [fst snd].
  destruct (Memory.read m1 (0xFFFC + 1)) as [high m2].
  reflexivity.
Qed.

(** C1 (as amended).  Whatever the memory holds, [reset] leaves SP = 0xFD,
    the I flag set (the status is 0x24) and PC equal to the word
    [(high << 8) | low] of the bytes read from 0xFFFC and 0xFFFD, which is
    the little-endian 16-bit word when both are bytes; and it sets A, X and
    Y to 0. *)
Theorem reset_registers c :
  CPU.SP (snd (CPU.reset c)) = 0xFD
  /\ CPU.status (snd (CPU.reset c)) = 0x24
  /\ JS.truthy (JS.band (CPU.status (snd (CPU.reset c))) CPU.FLAG_I) = true
  /\ CPU.PC (snd (CPU.reset c))
     = JS.bor
         (JS.shl
            (fst (Memory.read (snd (Memory.read (CPU.memory c) 0xFFFC)) 0xFFFD))
            8)
         (fst (Memory.read (CPU.memory c) 0xFFFC))
  /\ (0 <= fst (Memory.read (CPU.memory c) 0xFFFC) < 256 ->
      0 <= fst (Memory.read (snd (Memory.read (CPU.memory c) 0xFFFC)) 0xFFFD)
        < 256 ->
      CPU.PC (snd (CPU.reset c))
      = fst (Memory.read (CPU.memory c) 0xFFFC)
        + 256
          * fst (Memory.read (snd (Memory.read (CPU.memory c) 0xFFFC)) 0xFFFD))
  /\ CPU.A (snd (CPU.reset c)) = 0
  /\ CPU.X (snd (CPU.reset c)) = 0
  /\ CPU.Y (snd (CPU.reset c)) = 0.
Proof.
  rewrite reset_unfold. change (0xFFFC + 1) with 0xFFFD.
  cbn [snd CPU.SP CPU.status CPU.PC CPU.A CPU.X CPU.Y CPU.set_PC CPU.set_memory
       CPU.set_status CPU.set_SP CPU.set_Y CPU.set_X CPU.set_A].
  repeat split.
  intros Hlo Hhi. now apply word_of_bytes.
Qed.

Lemma step_unfold c :
  CPU.step c
  = CPU.execute (fst (Memory.read (CPU.memory c) (CPU.PC c)))
      (CPU.set_memory (snd (Memory.read (CPU.memory c) (CPU.PC c)))
         (CPU.set_PC (CPU.PC c + 1) c)).
Proof.
  cbv beta iota zeta delta
    [CPU.step CPU.getImmediate CPU.read CPU.modify CPU.gets CPU.bind
     CPU.M_bind mbind].
  cbn [CPU.memory CPU.set_PC].
  now destruct (Memory.read (CPU.memory c) (CPU.PC c)).
Qed.

Lemma step2_unfold c :
  CPU.step2 c
  = CPU.execute2 (fst (Memory.read (CPU.memory c) (CPU.PC c)))
      (CPU.set_memory (snd (Memory.read (CPU.memory c) (CPU.PC c)))
         (CPU.set_PC (CPU.PC c + 1) c)).
Proof.
  cbv beta iota zeta delta
    [CPU.step2 CPU.getImmediate CPU.read CPU.modify CPU.gets CPU.bind
     CPU.M_bind mbind].
  cbn [CPU.memory CPU.set_PC].
  now destruct (Memory.read (CPU.memory c) (CPU.PC c)).
Qed.

Lemma execute_default opcode c :
  opcode ∉ CPU.implemented ->
  CPU.execute opcode c = (2, CPU.set_console (opcode :: CPU.console c) c).
Proof.
  unfold CPU.implemented. rewrite !not_elem_of_cons.
  intros (H1 & H2 & H3 & _). unfold CPU.execute.
  destruct (Z.eqb_spec opcode 0xA9); [congruence|].
  destruct (Z.eqb_spec opcode 0xAA); [congruence|].
  destruct (Z.eqb_spec opcode 0xE8); [congruence|].
  reflexivity.
Qed.

Lemma execute2_default opcode c :
  opcode ∉ CPU.implemented2 ->
  CPU.execute2 opcode c = (2, CPU.set_console (opcode :: CPU.console c) c).
Proof.
  unfold CPU.implemented2. rewrite !not_elem_of_cons.
  intros Hne. unfold CPU.execute2.
  repeat match goal with
         | |- context [Z.eqb opcode ?k] =>
             destruct (Z.eqb_spec opcode k); [tauto|]
         end.
  reflexivity.
Qed.

(** The class's [execute] always reports 2 cycles. *)
Lemma execute_two_cycles opcode c : fst (CPU.execute opcode c) = 2.
Proof.
  unfold CPU.execute.
  repeat match goal with
         | |- context [Z.eqb opcode ?k] => destruct (Z.eqb opcode k)
         end;
    unfold mbind, CPU.M_bind; repeat (apply fst_bind; intros); reflexivity.
Qed.

Lemma step_two_cycles c : fst (CPU.step c) = 2.
Proof. rewrite step_unfold. apply execute_two_cycles. Qed.

(** STA absolute reports 4 cycles wherever it stores. *)
Lemma sta_absolute_cycles c : fst (CPU.execute2 0x8D c) = 4.
Proof.
  unfold CPU.execute2. cbn [Z.eqb Pos.eqb].
  unfold mbind, CPU.M_bind. repeat (apply fst_bind; intros). reflexivity.
Qed.

(** C8 (as amended).  When the byte fetched at PC is no case label of
    [execute], [step] reports 2 cycles and is a NOP: A, X, Y, SP and the
    status are as before, PC has advanced by 1, the bus is as the opcode
    fetch left it (the RAM unchanged), and one warning naming the opcode has
    gone to the console.  The same holds for the second [execute] and its
    case labels. *)
Theorem unhandled_opcode_nop c :
  (fst (Memory.read (CPU.memory c) (CPU.PC c)) ∉ CPU.implemented ->
   CPU.step c
   = (2, {| CPU.A := CPU.A c; CPU.X := CPU.X c; CPU.Y := CPU.Y c;
            CPU.SP := CPU.SP c; CPU.PC := CPU.PC c + 1;
            CPU.status := CPU.status c; CPU.cycles := CPU.cycles c;
            CPU.memory := snd (Memory.read (CPU.memory c) (CPU.PC c));
            CPU.console :=
              fst (Memory.read (CPU.memory c) (CPU.PC c)) :: CPU.console c |}))
  /\ (fst (Memory.read (CPU.memory c) (CPU.PC c)) ∉ CPU.implemented2 ->
      CPU.step2 c
      = (2, {| CPU.A := CPU.A c; CPU.X := CPU.X c; CPU.Y := CPU.Y c;
               CPU.SP := CPU.SP c; CPU.PC := CPU.PC c + 1;
               CPU.status := CPU.status c; CPU.cycles := CPU.cycles c;
               CPU.memory := snd (Memory.read (CPU.memory c) (CPU.PC c));
               CPU.console :=
                 fst (Memory.read (CPU.memory c) (CPU.PC c))
                 :: CPU.console c |}))
  /\ Memory.ram (snd (Memory.read (CPU.memory c) (CPU.PC c)))
     = Memory.ram (CPU.memory c).
Proof.
  split; [|split].
  - intros Hop. rewrite step_unfold, execute_default by exact Hop. reflexivity.
  - intros Hop. rewrite step2_unfold, execute2_default by exact Hop.
    reflexivity.
  - apply read_keeps_ram.
Qed.

End Core.

End CPUFacts.

(** ** The scheduler (emulator.js) *)
Module EmulatorFacts.
Import Emulator.

(** [cpuCyclesRun < cpuCyclesPerFrame] in NTSC, where the target is
    1789773 / 60 = 29829.55: an integer count is below it up to 29829. *)
Lemma ntsc_target n :
  Qltb (inject_Z n) (inject_Z 1789773 / inject_Z 60) = (n <=? 29829).
Proof.
  unfold Qltb, Qle_bool, Qdiv, Qmult, Qinv, inject_Z. cbn [Qnum Qden].
  change (Z.pos (1 * 60)) with 60. change (1789773 * 1 * 1) with 1789773.
  destruct (Z.leb_spec 1789773 (n * 60)), (Z.leb_spec n 29829);
    cbn [negb]; first [reflexivity | lia].
Qed.

Section Scheduler.
Context {W : Type} `{Components W}.
Implicit Types e : Emulator.t W.

(** The PPU loop runs [n] cycles, counts them all, completes at most [n]
    frames and leaves the emulator's own fields alone. *)
Lemma ppu_cycles_spec n e pr fr :
  snd (fst (ppu_cycles n e pr fr)) = pr + Z.of_nat n
  /\ fr <= snd (ppu_cycles n e pr fr) <= fr + Z.of_nat n
  /\ region (fst (fst (ppu_cycles n e pr fr))) = region e
  /\ cpuCyclesPerFrame (fst (fst (ppu_cycles n e pr fr))) = cpuCyclesPerFrame e
  /\ _frameCounter (fst (fst (ppu_cycles n e pr fr))) = _frameCounter e.
Proof.
  revert e pr fr. induction n as [|n IH]; intros e pr fr.
  - cbn [ppu_cycles fst snd]. repeat split; lia.
  - cbn [ppu_cycles].
    destruct (ppu_step (world e)) as [newFrame w].
    destruct newFrame.
    + match goal with
      | |- context [ppu_cycles n ?e1 ?p1 ?f1] =>
          destruct (IH e1 p1 f1) as (Hp & Hf & Hr & Hq & Hc)
      end.
      rewrite Hp, Hr, Hq, Hc.
      repeat split; try lia;
        unfold _serviceNMI; cbn [set_world set_nmiPrev world _nmiPrev];
        destruct (ppu_nmiLine w && negb (_nmiPrev e)); reflexivity.
    + match goal with
      | |- context [ppu_cycles n ?e1 ?p1 ?f1] =>
          destruct (IH e1 p1 f1) as (Hp & Hf & Hr & Hq & Hc)
      end.
      rewrite Hp, Hr, Hq, Hc.
      repeat split; try lia;
        unfold _serviceNMI; cbn [set_world set_nmiPrev world _nmiPrev];
        destruct (ppu_nmiLine w && negb (_nmiPrev e)); reflexivity.
Qed.

(** One pass of the [while] loop in a region with 3 PPU cycles per CPU
    cycle, for an instruction of [c >= 0] cycles. *)
Lemma runFrame_body_spec e cr pr fr :
  PPU_PER_CPU (region e) = 3 ->
  0 <= fst (cpu_step (world e)) ->
  match runFrame_body e cr pr fr with
  | (e', cr', pr', fr') =>
      cr' = cr + fst (cpu_step (world e))
      /\ pr' = pr + 3 * fst (cpu_step (world e))
      /\ fr <= fr' <= fr + 3 * fst (cpu_step (world e))
      /\ region e' = region e
      /\ cpuCyclesPerFrame e' = cpuCyclesPerFrame e
      /\ _frameCounter e' = _frameCounter e
  end.
Proof.
  intros Hppu Hc. unfold runFrame_body.
  destruct (cpu_step (world e)) as [c w]. cbn [fst] in Hc |- *.
  cbn [region set_world]. rewrite Hppu.
  match goal with
  | |- context [ppu_cycles ?n ?e1 ?p1 ?f1] =>
      pose proof (ppu_cycles_spec n e1 p1 f1) as (Hp & Hf & Hr & Hq & Hk);
      destruct (ppu_cycles n e1 p1 f1) as [[e2 pr2] fr2]
  end.
  cbn [fst snd] in *. rewrite Z2Nat.id in * by lia.
  unfold _serviceIRQ. cbn [set_world region cpuCyclesPerFrame _frameCounter].
  repeat split; first [lia | assumption].
Qed.

(** Once a frame is counted the loop is over, whatever the fuel. *)
Lemma runFrame_loop_done fuel T e cr pr fr :
  fr <> 0 -> runFrame_loop fuel T e cr pr fr = Some (e, cr, pr, fr).
Proof.
  intros Hfr. destruct fuel; cbn [runFrame_loop];
    destruct (Z.eqb_spec fr 0); try contradiction; reflexivity.
Qed.

Section NTSC.
Variable cmax : Z.
Hypothesis step_cycles : forall w : W, 1 <= fst (cpu_step w) <= cmax.

Lemma runFrame_loop_ntsc fuel :
  forall e cr pr,
    region e = NTSC ->
    0 <= cr -> pr = 3 * cr ->
    (Z.to_nat (29830 - cr) <= fuel)%nat ->
    exists e' cr' pr' fr',
      runFrame_loop fuel (inject_Z 1789773 / inject_Z 60) e cr pr 0
      = Some (e', cr', pr', fr')
      /\ (29830 <= cr -> cr' = cr)
      /\ (cr < 29830 -> cr < cr' <= 29829 + cmax)
      /\ pr' = 3 * cr'
      /\ 0 <= fr' <= 3 * cmax
      /\ (fr' = 0 -> 29830 <= cr')
      /\ _frameCounter e' = _frameCounter e.
Proof.
  induction fuel as [|fuel IH]; intros e cr pr Hreg Hcr Hpr Hfuel.
  - (* no fuel is needed: the count has reached the target *)
    assert (29830 <= cr) by lia.
    exists e, cr, pr, 0. cbn [runFrame_loop].
    rewrite ntsc_target. destruct (Z.leb_spec cr 29829); [lia|].
    pose proof (step_cycles (world e)).
    cbn [andb Z.eqb]. repeat split; lia.
  - cbn [runFrame_loop]. rewrite ntsc_target. cbn [Z.eqb andb].
    destruct (Z.leb_spec cr 29829) as [Hlt|Hge].
    + pose proof (step_cycles (world e)) as Hc.
      pose proof (runFrame_body_spec e cr pr 0) as Hbody.
      rewrite Hreg in Hbody. specialize (Hbody eq_refl ltac:(lia)).
      destruct (runFrame_body e cr pr 0) as [[[e1 cr1] pr1] fr1].
      destruct Hbody as (Hcr1 & Hpr1 & Hfr1 & Hr1 & _ & Hk1).
      destruct (Z.eq_dec fr1 0) as [->|Hne].
      * destruct (IH e1 cr1 pr1) as (e' & cr' & pr' & fr' & Hrun & Hsame & Hup
                                     & Hp' & Hf' & Hz' & Hk');
          [congruence | lia | lia | lia |].
        exists e', cr', pr', fr'. rewrite Hrun.
        repeat split; try lia; try congruence.
        all: destruct (Z_lt_le_dec cr1 29830);
          [specialize (Hup ltac:(lia)) | specialize (Hsame ltac:(lia))]; lia.
      * exists e1, cr1, pr1, fr1.
        rewrite runFrame_loop_done by assumption.
        repeat split; first [lia | congruence].
    + exists e, cr, pr, 0.
      pose proof (step_cycles (world e)).
      repeat split; lia.
Qed.

(** The cycle budget alone, whatever the PPU does.  In the NTSC region,
    when every instruction takes between 1 and [cmax] cycles, [runFrame]
    returns (29830 passes of its loop always suffice) with
    [ppuCyclesRun = 3 * cpuCyclesRun] and
    [1 <= cpuCyclesRun <= 29829 + cmax]; [framesCompleted] is 0 only if
    [cpuCyclesRun >= 29830]. *)
Lemma runFrame_ntsc_budget (e : Emulator.t W) (fuel : nat) :
  region e = NTSC ->
  cpuCyclesPerFrame e = (inject_Z 1789773 / inject_Z 60)%Q ->
  (Z.to_nat 29830 <= fuel)%nat ->
  exists stats e',
    runFrame fuel e = Some (stats, e')
    /\ 1 <= cpuCyclesRun stats <= 29829 + cmax
    /\ ppuCyclesRun stats = 3 * cpuCyclesRun stats
    /\ 0 <= framesCompleted stats <= 3 * cmax
    /\ (framesCompleted stats = 0 -> 29830 <= cpuCyclesRun stats)
    /\ frameIndex stats = _frameCounter e + framesCompleted stats
    /\ _frameCounter e' = frameIndex stats.
Proof.
  intros Hreg Htarget Hfuel. unfold runFrame. rewrite Htarget.
  destruct (runFrame_loop_ntsc fuel e 0 0 Hreg ltac:(lia) ltac:(lia)
              ltac:(lia))
    as (e' & cr' & pr' & fr' & Hrun & _ & Hup & Hp & Hf & Hz & Hk).
  rewrite Hrun. eexists _, _. split; [reflexivity|].
  cbn [cpuCyclesRun ppuCyclesRun framesCompleted frameIndex _frameCounter
       set_frameCounter].
  specialize (Hup ltac:(lia)).
  repeat split; first [lia | assumption | now rewrite Hk].
Qed.

End NTSC.

End Scheduler.

Section Clock.
Context {W : Type} `{Components W}.
Implicit Types e : Emulator.t W.

Variables (period cmax : Z) (inv : W -> Prop) (pos : W -> Z).
Hypothesis clock : FrameClock period cmax inv pos.

Lemma serviceNMI_clock e :
  inv (world e) ->
  inv (world (_serviceNMI e))
  /\ pos (world (_serviceNMI e)) = pos (world e)
  /\ region (_serviceNMI e) = region e
  /\ cpuCyclesPerFrame (_serviceNMI e) = cpuCyclesPerFrame e
  /\ _frameCounter (_serviceNMI e) = _frameCounter e.
Proof.
  intros Hinv. unfold _serviceNMI.
  destruct (ppu_nmiLine (world e) && negb (_nmiPrev e));
    cbn [world set_world set_nmiPrev region cpuCyclesPerFrame _frameCounter].
  - destruct (clock_nmi _ _ _ _ clock (world e) Hinv) as [Hp Hi]. auto.
  - auto.
Qed.

(** The PPU loop on a frame clock: [n] dots from position [pos] report
    [(pos + n) / period] frames and leave the PPU at [(pos + n) mod period]. *)
Lemma ppu_cycles_clock n : forall e pr fr,
  inv (world e) ->
  snd (ppu_cycles n e pr fr) = fr + (pos (world e) + Z.of_nat n) / period
  /\ pos (world (fst (fst (ppu_cycles n e pr fr))))
     = (pos (world e) + Z.of_nat n) mod period
  /\ inv (world (fst (fst (ppu_cycles n e pr fr)))).
Proof.
  induction n as [|n IH]; intros e pr fr Hinv.
  - pose proof (clock_range _ _ _ _ clock (world e) Hinv) as Hr.
    cbn [ppu_cycles fst snd]. rewrite Z.add_0_r.
    rewrite Z.div_small, Z.mod_small by lia. split; [lia | auto].
  - pose proof (clock_range _ _ _ _ clock (world e) Hinv) as Hr.
    destruct (clock_ppu _ _ _ _ clock (world e) Hinv) as (Hnf & Hpos & Hinv1).
    cbn [ppu_cycles].
    destruct (ppu_step (world e)) as [newFrame w]. cbn [fst snd] in Hnf, Hpos, Hinv1.
    destruct (serviceNMI_clock (set_world e w) Hinv1) as (Hi2 & Hp2 & _).
    cbn [world set_world] in Hp2.
    replace (pos (world e) + Z.of_nat (S n))
      with (pos (world e) + 1 + Z.of_nat n) by lia.
    subst newFrame.
    destruct (Z.leb_spec period (pos (world e) + 1)) as [Hwrap|Hin].
    + destruct (clock_present _ _ _ _ clock _ Hi2) as [Hp3 Hi3].
      match goal with
      | |- context [ppu_cycles n ?e1 ?p1 ?f1] =>
          destruct (IH e1 p1 f1 Hi3) as (Hf & Hq & Hk)
      end.
      rewrite Hf, Hq. cbn [world set_world]. rewrite Hp3, Hp2, Hpos.
      assert (Heq : pos (world e) + 1 + Z.of_nat n
                    = 0 + Z.of_nat n + 1 * period) by lia.
      rewrite Heq, Z.div_add, Z.mod_add by lia.
      split; [lia|]. split; [reflexivity | exact Hk].
    + match goal with
      | |- context [ppu_cycles n ?e1 ?p1 ?f1] =>
          destruct (IH e1 p1 f1 Hi2) as (Hf & Hq & Hk)
      end.
      rewrite Hf, Hq, Hp2, Hpos.
      split; [reflexivity|]. split; [reflexivity | exact Hk].
Qed.

(** One pass of the loop of [runFrame] on a frame clock. *)
Lemma runFrame_body_clock e cr pr fr :
  PPU_PER_CPU (region e) = 3 ->
  inv (world e) ->
  match runFrame_body e cr pr fr with
  | (e', cr', pr', fr') =>
      exists c, 1 <= c <= cmax
        /\ cr' = cr + c /\ pr' = pr + 3 * c
        /\ fr' = fr + (pos (world e) + 3 * c) / period
        /\ pos (world e') = (pos (world e) + 3 * c) mod period
        /\ inv (world e')
        /\ region e' = region e
        /\ cpuCyclesPerFrame e' = cpuCyclesPerFrame e
        /\ _frameCounter e' = _frameCounter e
  end.
Proof.
  intros Hppu Hinv.
  pose proof (runFrame_body_spec e cr pr fr Hppu) as Hspec.
  destruct (clock_cpu _ _ _ _ clock (world e) Hinv) as (Hc & Hpc & Hic).
  specialize (Hspec ltac:(lia)).
  unfold runFrame_body in *.
  destruct (cpu_step (world e)) as [c w]. cbn [fst snd] in *.
  cbn [region set_world] in *. rewrite Hppu in *.
  pose proof (ppu_cycles_clock (Z.to_nat (c * 3)) (set_world e w) pr fr Hic)
    as (Hf & Hq & Hk).
  destruct (ppu_cycles (Z.to_nat (c * 3)) (set_world e w) pr fr)
    as [[e2 pr2] fr2].
  cbn [fst snd world set_world] in *.
  rewrite Z2Nat.id in Hf, Hq by lia.
  destruct Hspec as (Hcr & Hpr & _ & Hreg & Hcpf & Hfc).
  destruct (clock_apu _ _ _ _ clock c _ Hk) as [Hpa Hia].
  destruct (clock_pump _ _ _ _ clock _ Hia) as [Hpp Hip].
  destruct (clock_irq _ _ _ _ clock
              (apu_irqLine (pumpAudio (apu_step c (world e2)))
               || mapper_irqLine (pumpAudio (apu_step c (world e2)))
               || bus_irqLine (pumpAudio (apu_step c (world e2))))
              _ Hip) as [Hpi Hii].
  exists c. unfold _serviceIRQ in *. cbn [world set_world] in *.
  rewrite Hpc in Hf, Hq. rewrite Hpi, Hpp, Hpa, Hq.
  replace (c * 3) with (3 * c) in * by lia.
  repeat split; first [lia | assumption | reflexivity].
Qed.

Hypothesis ntsc_period : period = 341 * 262.
Hypothesis short_instructions : cmax <= 29780.

(** The loop of [runFrame] while no frame has been reported: [d] is the
    position of the PPU when [runFrame] was called. *)
Lemma runFrame_loop_clock fuel :
  forall e cr d,
    region e = NTSC -> inv (world e) ->
    0 <= cr -> pos (world e) = d + 3 * cr -> 0 <= d ->
    (Z.to_nat (29782 - cr) <= fuel)%nat ->
    exists e' cr' c,
      runFrame_loop fuel (inject_Z 1789773 / inject_Z 60) e cr (3 * cr) 0
      = Some (e', cr', 3 * cr', 1)
      /\ 1 <= c <= cmax
      /\ cr <= cr' - c
      /\ d + 3 * (cr' - c) < period <= d + 3 * cr'
      /\ pos (world e') = d + 3 * cr' - period
      /\ inv (world e')
      /\ _frameCounter e' = _frameCounter e.
Proof.
  induction fuel as [|fuel IH]; intros e cr d Hreg Hinv Hcr Hpos Hd Hfuel.
  - pose proof (clock_range _ _ _ _ clock (world e) Hinv). lia.
  - pose proof (clock_range _ _ _ _ clock (world e) Hinv) as Hr.
    cbn [runFrame_loop]. rewrite ntsc_target. cbn [Z.eqb andb].
    destruct (Z.leb_spec cr 29829) as [_|]; [|lia].
    pose proof (runFrame_body_clock e cr (3 * cr) 0) as Hbody.
    rewrite Hreg in Hbody. specialize (Hbody eq_refl Hinv).
    destruct (runFrame_body e cr (3 * cr) 0) as [[[e1 cr1] pr1] fr1].
    destruct Hbody as (c & Hc & Hcr1 & Hpr1 & Hfr1 & Hp1 & Hi1 & Hr1 & _ & Hk1).
    assert (Hpr : pr1 = 3 * cr1) by lia. clear Hpr1. subst pr1.
    rewrite Hpos in Hfr1, Hp1.
    destruct (Z.lt_ge_cases (d + 3 * cr + 3 * c) period) as [Hlt|Hge].
    + rewrite Z.div_small in Hfr1 by lia. rewrite Z.mod_small in Hp1 by lia.
      rewrite Z.add_0_l in Hfr1. subst fr1.
      destruct (IH e1 cr1 d) as (e' & cr' & c' & Hrun & Hc' & Hle & Hfirst
                                 & Hp' & Hi' & Hk');
        [congruence | assumption | lia | lia | lia | lia |].
      exists e', cr', c'. rewrite Hrun.
      repeat split; first [lia | assumption | congruence].
    + assert (Heq : d + 3 * cr + 3 * c
                    = (d + 3 * cr + 3 * c - period) + 1 * period) by lia.
      rewrite Heq, Z.div_add, Z.div_small in Hfr1 by lia.
      rewrite Heq, Z.mod_add, Z.mod_small in Hp1 by lia.
      rewrite Z.add_0_l in Hfr1. subst fr1.
      rewrite runFrame_loop_done by lia.
      exists e1, cr1, c.
      repeat split; first [lia | assumption | reflexivity].
Qed.

End Clock.


End EmulatorFacts.

(** ** The DMC channel (apu.js) *)
Module DMCFacts.
Import JSFacts DMCChannel.

Lemma write_level d addr value :
  0 <= outputLevel d <= 127 -> 0 <= outputLevel (write d addr value) <= 127.
Proof.
  intros Hd. unfold write.
  destruct (addr =? 0x4010); [exact Hd|].
  destruct (addr =? 0x4011).
  - cbn [outputLevel set_outputLevel]. apply band_range. lia.
  - destruct (addr =? 0x4012); [exact Hd|].
    destruct (addr =? 0x4013); exact Hd.
Qed.

Lemma setEnabled_level d on : outputLevel (setEnabled d on) = outputLevel d.
Proof.
  unfold setEnabled.
  destruct (enabled (set_enabled d on) && (currentLength (set_enabled d on) =? 0));
    reflexivity.
Qed.

(** A shifted-out 1 raises the level by 2 and a 0 lowers it by 2, each only
    when the result stays within [0, 127]; otherwise the level stays. *)
Lemma shiftBit_level d :
  0 < bitsRemaining d ->
  (JS.truthy (JS.band (shiftRegister d) 1) = true ->
   (outputLevel d + 2 <= 127 -> outputLevel (shiftBit d) = outputLevel d + 2)
   /\ (127 < outputLevel d + 2 -> outputLevel (shiftBit d) = outputLevel d))
  /\ (JS.truthy (JS.band (shiftRegister d) 1) = false ->
      (0 <= outputLevel d - 2 -> outputLevel (shiftBit d) = outputLevel d - 2)
      /\ (outputLevel d - 2 < 0 -> outputLevel (shiftBit d) = outputLevel d)).
Proof.
  intros Hbits. unfold shiftBit.
  destruct (Z.ltb_spec 0 (bitsRemaining d)) as [_|]; [|lia].
  destruct (JS.truthy (JS.band (shiftRegister d) 1)).
  - split; [intros _ | discriminate].
    destruct (Z.leb_spec (outputLevel d) 125); split; intros; cbn; lia.
  - split; [discriminate | intros _].
    destruct (Z.leb_spec 2 (outputLevel d)); split; intros; cbn; lia.
Qed.

Lemma shiftBit_bounded d :
  0 <= outputLevel d <= 127 -> 0 <= outputLevel (shiftBit d) <= 127.
Proof.
  intros Hd. unfold shiftBit.
  destruct (0 <? bitsRemaining d); [|exact Hd].
  destruct (JS.truthy (JS.band (shiftRegister d) 1)).
  - destruct (Z.leb_spec (outputLevel d) 125); cbn; lia.
  - destruct (Z.leb_spec 2 (outputLevel d)); cbn; lia.
Qed.

Section WithMemory.
Context {Mem : Type} `{BusRead Mem}.

Lemma fetchSample_level d (m : Mem) :
  outputLevel (fst (fetchSample d m)) = outputLevel d.
Proof.
  unfold fetchSample.
  destruct (0 <? currentLength d); [|reflexivity].
  destruct (bus_read m (currentAddress d)) as [v m1].
  cbn [fst].
  repeat match goal with
         | |- context [if ?b then _ else _] => destruct b
         end; reflexivity.
Qed.

(** The level going into the shift of [step] is the level before the step. *)
Lemma step_level d (m : Mem) :
  0 <= outputLevel d <= 127 -> 0 <= outputLevel (fst (step d m)) <= 127.
Proof.
  intros Hd. unfold step.
  destruct (enabled d); cbn [negb]; [|exact Hd].
  destruct (bitsRemaining d =? 0).
  - destruct (bufferEmpty d).
    + pose proof (fetchSample_level d m) as Hf.
      destruct (fetchSample d m) as [d1 m1]. cbn [fst] in Hf |- *.
      apply shiftBit_bounded.
      destruct (bufferEmpty d1); cbn; lia.
    + cbn [fst]. apply shiftBit_bounded.
      destruct (negb (bufferEmpty d)); cbn; lia.
  - cbn [fst]. now apply shiftBit_bounded.
Qed.

Lemma run_op_level (s : t * Mem) o :
  0 <= outputLevel (fst s) <= 127 -> 0 <= outputLevel (fst (run_op s o)) <= 127.
Proof.
  intros Hs. destruct o as [addr value|on|]; cbn [run_op fst].
  - now apply write_level.
  - now rewrite setEnabled_level.
  - now apply step_level.
Qed.

Lemma run_level ops : forall s : t * Mem,
  0 <= outputLevel (fst s) <= 127 -> 0 <= outputLevel (fst (run s ops)) <= 127.
Proof.
  induction ops as [|o ops IH]; intros s Hs; [exact Hs|].
  cbn [run foldl]. apply IH. now apply run_op_level.
Qed.

(** When the byte fetched is the last of the sample: with the loop flag the
    sample restarts (and no IRQ is raised by the fetch); without it, the IRQ
    is asserted if it is enabled. *)
Lemma fetch_last_byte d (m : Mem) :
  currentLength d = 1 ->
  (loop d = true ->
   currentLength (fst (fetchSample d m)) = sampleLength d
   /\ currentAddress (fst (fetchSample d m)) = sampleAddress d
   /\ dmcIRQ (fst (fetchSample d m)) = dmcIRQ d)
  /\ (loop d = false -> irqEnabled d = true ->
      dmcIRQ (fst (fetchSample d m)) = true
      /\ currentLength (fst (fetchSample d m)) = 0)
  /\ (loop d = false -> irqEnabled d = false ->
      dmcIRQ (fst (fetchSample d m)) = dmcIRQ d
      /\ currentLength (fst (fetchSample d m)) = 0).
Proof.
  intros Hlen.
  destruct d as [en irq sa sl cl sr br be ol ie lp rt ca sb].
  cbn [currentLength] in Hlen. subst cl.
  unfold fetchSample. cbn [currentLength currentAddress Z.ltb Z.compare].
  destruct (bus_read m ca) as [v m1].
  cbn -[Z.ltb Z.add].
  destruct (65535 <? ca + 1), lp, ie; cbn;
    repeat split; intros; first [reflexivity | discriminate | lia].
Qed.


End WithMemory.

End DMCFacts.

(** ** The controller ports (input.js behind the bus) *)
Module ControllerFacts.
Import JSFacts.

Lemma reads_S n c :
  Controller.reads (S n) c
  = (fst (Controller.read c)
       :: fst (Controller.reads n (snd (Controller.read c))),
     snd (Controller.reads n (snd (Controller.read c)))).
Proof.
  cbn [Controller.reads].
  destruct (Controller.read c) as [v c1]. cbn [fst snd].
  now destruct (Controller.reads n c1).
Qed.

Lemma reads_app a b c :
  fst (Controller.reads (a + b) c)
  = fst (Controller.reads a c)
    ++ fst (Controller.reads b (snd (Controller.reads a c))).
Proof.
  revert c. induction a as [|a IH]; intros c; [reflexivity|].
  cbn [Nat.add]. rewrite !reads_S. cbn [fst snd]. now rewrite IH.
Qed.

(** With the strobe low and the shift register empty, a read returns 0x40
    and the register stays empty: the shift feeds 0 into the top. *)
Lemma reads_empty n (b : gmap string Z) :
  fst (Controller.reads n
         {| Controller.buttons := b; Controller.strobe := 0;
            Controller.shiftRegister := 0 |})
  = replicate n 0x40.
Proof.
  induction n as [|n IH]; [reflexivity|].
  rewrite reads_S. cbn [fst replicate].
  change (Controller.read
            {| Controller.buttons := b; Controller.strobe := 0;
               Controller.shiftRegister := 0 |})
    with (0x40, {| Controller.buttons := b; Controller.strobe := 0;
                   Controller.shiftRegister := 0 |}).
  cbn [fst snd]. now rewrite IH.
Qed.

(** Eight reads shift the packed states out in order, each with 0x40 set,
    and leave the register empty. *)
Lemma shift_out (bs : gmap string Z) (a b sel st u d l r : bool) :
  Controller.reads 8
    {| Controller.buttons := bs; Controller.strobe := 0;
       Controller.shiftRegister := Controller.packed a b sel st u d l r |}
  = (map (fun x => JS.bor x 0x40)
       [if a then 1 else 0; if b then 1 else 0; if sel then 1 else 0;
        if st then 1 else 0; if u then 1 else 0; if d then 1 else 0;
        if l then 1 else 0; if r then 1 else 0],
     {| Controller.buttons := bs; Controller.strobe := 0;
        Controller.shiftRegister := 0 |}).
Proof.
  destruct a, b, sel, st, u, d, l, r; reflexivity.
Qed.

Lemma bit0_of_read (x : bool) :
  JS.band (JS.bor (if x then 1 else 0) 0x40) 1 = if x then 1 else 0.
Proof. now destruct x. Qed.

Lemma strobe_latch c :
  Controller.write (Controller.write c 1) 0
  = {| Controller.buttons := Controller.buttons c; Controller.strobe := 0;
       Controller.shiftRegister :=
         Controller.packed (JS.truthy_prop (Controller.buttons c !! "A"))
           (JS.truthy_prop (Controller.buttons c !! "B"))
           (JS.truthy_prop (Controller.buttons c !! "Select"))
           (JS.truthy_prop (Controller.buttons c !! "Start"))
           (JS.truthy_prop (Controller.buttons c !! "Up"))
           (JS.truthy_prop (Controller.buttons c !! "Down"))
           (JS.truthy_prop (Controller.buttons c !! "Left"))
           (JS.truthy_prop (Controller.buttons c !! "Right")) |}.
Proof.
  unfold Controller.write at 2.
  cbn [Controller.strobe].
  change (JS.truthy (JS.band 1 1)) with true. cbv iota.
  unfold Controller.write, Controller.reload.
  cbn [Controller.strobe Controller.buttons Controller.shiftRegister].
  change (JS.truthy (JS.band 0 1)) with false. cbv iota.
  unfold Controller.pressed, Controller.packed.
  cbn [Controller.buttons]. reflexivity.
Qed.

(** After the strobe 1 then 0, reads 1 to 8 return the latched buttons in
    the order A, B, Select, Start, Up, Down, Left, Right, each ORed with
    0x40; every later read returns 0x40. *)
Lemma controller_shift c n :
  fst (Controller.reads (8 + n) (Controller.write (Controller.write c 1) 0))
  = map (fun x => JS.bor x 0x40) (Controller.latched c) ++ replicate n 0x40.
Proof.
  rewrite reads_app, strobe_latch, shift_out. cbn [fst snd].
  now rewrite reads_empty.
Qed.

Section Bus.
Context {C A : Type} `{Cartridge C} `{ApuRegisters A}.
Implicit Types m : Memory.t C A.

Lemma write_4016 m v :
  Memory.write m 0x4016 v
  = Memory.set_controllers m
      {| Input.player1 :=
           Controller.write (Input.player1 (Memory.controllers m))
             (JS.band v 0xFF);
         Input.player2 :=
           Controller.write (Input.player2 (Memory.controllers m))
             (JS.band v 0xFF) |}.
Proof. reflexivity. Qed.

Lemma read_4016 m :
  Memory.read m 0x4016
  = (fst (Controller.read (Input.player1 (Memory.controllers m))),
     Memory.set_controllers m
       {| Input.player1 :=
            snd (Controller.read (Input.player1 (Memory.controllers m)));
          Input.player2 := Input.player2 (Memory.controllers m) |}).
Proof.
  unfold Memory.read. change (JS.band 0x4016 0xFFFF) with 0x4016.
  cbv beta iota zeta delta [Z.ltb Z.eqb Z.compare Pos.compare Pos.compare_cont
                            Pos.eqb orb Input.read].
  now destruct (Controller.read (Input.player1 (Memory.controllers m))).
Qed.

Lemma bus_reads_S n m addr :
  Memory.reads (S n) m addr
  = (fst (Memory.read m addr)
       :: fst (Memory.reads n (snd (Memory.read m addr)) addr),
     snd (Memory.reads n (snd (Memory.read m addr)) addr)).
Proof.
  cbn [Memory.reads].
  destruct (Memory.read m addr) as [v m1]. cbn [fst snd].
  now destruct (Memory.reads n m1 addr).
Qed.

Lemma bus_reads_4016 n : forall m,
  fst (Memory.reads n m 0x4016)
  = fst (Controller.reads n (Input.player1 (Memory.controllers m))).
Proof.
  induction n as [|n IH]; intros m; [reflexivity|].
  rewrite bus_reads_S, reads_S, IH, read_4016. reflexivity.
Qed.

(** C5 (as amended).  For every button state of port 1, after the bus
    writes of 1 then 0 to 0x4016, the next eight bus reads of 0x4016 return
    the latched buttons in the order A, B, Select, Start, Up, Down, Left,
    Right in bit 0, each ORed with 0x40; the 9th and every later read
    returns 0x40, whose bit 0 is 0. *)
Theorem controller_strobe_reads m n :
  fst (Memory.reads (8 + n)
         (Memory.write (Memory.write m 0x4016 1) 0x4016 0) 0x4016)
  = map (fun x => JS.bor x 0x40)
      (Controller.latched (Input.player1 (Memory.controllers m)))
    ++ replicate n 0x40
  /\ map (fun v => JS.band v 1)
       (map (fun x => JS.bor x 0x40)
          (Controller.latched (Input.player1 (Memory.controllers m))))
     = Controller.latched (Input.player1 (Memory.controllers m))
  /\ JS.band 0x40 1 = 0.
Proof.
  split; [|split; [|reflexivity]].
  - rewrite bus_reads_4016, !write_4016.
    cbn [Memory.controllers Memory.set_controllers Input.player1].
    change (JS.band 1 0xFF) with 1. change (JS.band 0 0xFF) with 0.
    apply controller_shift.
  - unfold Controller.latched, Controller.order, Controller.pressed.
    cbn [map]. now rewrite !bit0_of_read.
Qed.

End Bus.

End ControllerFacts.

(** ** OAM DMA (ppu.js, cpu.js) *)
Module DMAFacts.
Import JSFacts.

Section Core.
Context {Cart Apu : Type} `{Cartridge Cart} `{ApuRegisters Apu}.

(** C4.  A bus write to 0x4014 does not start a DMA.  For every bus state
    and every page, the write is handed to the APU's [writeRegister], as
    is every address of 0x4000-0x401F but the two controller ports; the
    PPU, its OAM included, and the RAM are as they were, whatever the APU's
    handler does.  The PPU's own case 0x4014, which calls [performDMA], is
    reached only by a direct call: there it does copy the page, to OAM
    index 0 on, with OAMADDR (4 here) neither used nor changed. *)
Theorem bus_write_4014_skips_dma (m : Memory.t Cart Apu) (page : Z) :
  Memory.write m 0x4014 page
  = Memory.set_apu m (writeRegister (Memory.apu m) 0x4014 (JS.band page 0xFF))
  /\ Memory.ppu (Memory.write m 0x4014 page) = Memory.ppu m
  /\ PPU.oam (Memory.ppu (Memory.write m 0x4014 page)) = PPU.oam (Memory.ppu m)
  /\ Memory.ram (Memory.write m 0x4014 page) = Memory.ram m
  /\ JS.get (PPU.oam (PPU.writeRegister dma_ppu 0x4014 2)) 0 = 7
  /\ JS.get (PPU.oam (PPU.writeRegister dma_ppu 0x4014 2)) 4 = 0
  /\ PPU.oamAddr (PPU.writeRegister dma_ppu 0x4014 2) = 4.
Proof.
  assert (Hw : Memory.write m 0x4014 page
               = Memory.set_apu m
                   (writeRegister (Memory.apu m) 0x4014 (JS.band page 0xFF))).
  { cbv beta zeta delta [Memory.write].
    rewrite (band_FFFF_small 0x4014) by lia. reflexivity. }
  split; [exact Hw|]. rewrite Hw.
  cbn [Memory.ppu Memory.ram Memory.set_apu].
  do 3 (split; [reflexivity|]).
  vm_compute. repeat split; reflexivity.
Qed.

End Core.

End DMAFacts.

(** ** The claims on concrete consoles *)
Module Console.
Import JSFacts.

(** Reset vector: with 0x34, 0x12 at 0xFFFC, 0xFFFD, [reset] loads 0x1234. *)
Example reset_vector_1234 :
  CPU.PC (snd (CPU.reset loaded_cpu)) = 0x1234.
Proof. vm_compute. reflexivity. Qed.

(** Immediate LDA and its flags: LDA #$00 then LDA #$80 take 2 cycles each
    and leave A = 0x80, Z clear, N set. *)
Example lda_immediate_flags :
  fst (steps2 2 (snd (CPU.reset
                        (console_cpu (NROM.program [0xA9; 0x00; 0xA9; 0x80])))))
  = [2; 2]
  /\ CPU.A (snd (steps2 2 (snd (CPU.reset
                 (console_cpu (NROM.program [0xA9; 0x00; 0xA9; 0x80]))))))
     = 0x80
  /\ fst (CPU.getFlag CPU.FLAG_Z
            (snd (steps2 2 (snd (CPU.reset
                    (console_cpu (NROM.program [0xA9; 0x00; 0xA9; 0x80])))))))
     = false
  /\ fst (CPU.getFlag CPU.FLAG_N
            (snd (steps2 2 (snd (CPU.reset
                    (console_cpu (NROM.program [0xA9; 0x00; 0xA9; 0x80])))))))
     = true.
Proof. vm_compute. repeat split; reflexivity. Qed.

(** C1 as stated fails on A, X and Y: [reset] assigns 0 to each. *)
Lemma reset_clears_registers_cex :
  (CPU.A loaded_cpu = 0x42 /\ CPU.X loaded_cpu = 0x17 /\ CPU.Y loaded_cpu = 0x99)
  /\ (CPU.A (snd (CPU.reset loaded_cpu)) = 0
      /\ CPU.X (snd (CPU.reset loaded_cpu)) = 0
      /\ CPU.Y (snd (CPU.reset loaded_cpu)) = 0)
  /\ CPU.A (snd (CPU.reset loaded_cpu)) <> CPU.A loaded_cpu.
Proof.
  vm_compute. repeat split; discriminate.
Qed.

(** Controller strobe: with only Start held, the bit 0 of the eight reads
    after the strobe is 0, 0, 0, 1, 0, 0, 0, 0. *)
Example start_only_reads :
  map (fun v => JS.band v 1)
    (fst (Memory.reads 8
            (Memory.writes start_held_bus [(0x4016, 1); (0x4016, 0)]) 0x4016))
  = [0; 0; 0; 1; 0; 0; 0; 0].
Proof. vm_compute. reflexivity. Qed.

(** C5 as stated fails at the 9th read: it returns 0x40, bit 0 clear. *)
Lemma ninth_read_cex :
  fst (Memory.reads 9
         (Memory.writes start_held_bus [(0x4016, 1); (0x4016, 0)]) 0x4016)
  = [0x40; 0x40; 0x40; 0x41; 0x40; 0x40; 0x40; 0x40; 0x40]
  /\ JS.band
       (nth 8
          (fst (Memory.reads 9
                  (Memory.writes start_held_bus [(0x4016, 1); (0x4016, 0)])
                  0x4016)) 0) 1 = 0
  /\ JS.band
       (nth 8
          (fst (Memory.reads 9
                  (Memory.writes start_held_bus [(0x4016, 1); (0x4016, 0)])
                  0x4016)) 0) 1 <> 1.
Proof.
  vm_compute. repeat split; discriminate.
Qed.

(** The class's [step] always reports 2 cycles, so the harness's does. *)
Lemma harness_step_cycles (w : Harness.t) :
  1 <= fst (Emulator.cpu_step w) <= 2.
Proof.
  cbn [Emulator.cpu_step Harness_Components Harness.cpu_step fst].
  rewrite CPUFacts.step_two_cycles. lia.
Qed.

(** The harness with the 341 * 262-dot frame is a frame clock whose
    instructions take 2 cycles. *)
Lemma harness_clock :
  Emulator.FrameClock (341 * 262) 2 Harness.ntsc_frame Harness.dots.
Proof.
  unfold Harness.ntsc_frame, Harness.ntscDots.
  split.
  - intros w [_ Hd]. exact Hd.
  - intros w [Hf Hd].
    cbn [Emulator.ppu_step Harness_Components]. unfold Harness.ppu_step.
    rewrite Hf.
    destruct (Z.leb_spec (341 * 262) (Harness.dots w + 1));
      cbn [fst snd Harness.dots Harness.frameDots]; repeat split; lia.
  - intros w [Hf Hd].
    cbn [Emulator.cpu_step Harness_Components Harness.cpu_step fst snd
         Harness.dots Harness.frameDots].
    rewrite CPUFacts.step_two_cycles. repeat split; lia.
  - intros w [Hf Hd]. cbn. repeat split; lia.
  - intros level w [Hf Hd].
    cbn [Emulator.cpu_irq Harness_Components Harness.cpu_irq Harness.dots
         Harness.frameDots].
    repeat split; lia.
  - intros c w Hw. cbn. auto.
  - intros w Hw. cbn. auto.
  - intros w Hw. cbn. auto.
Qed.



Lemma unhandled_opcode_nop_witness :
  (fst (Memory.read (CPU.memory (snd (CPU.reset (console_cpu (NROM.image 0x02 0x00 0x80)))))
          (CPU.PC (snd (CPU.reset (console_cpu (NROM.image 0x02 0x00 0x80))))))
   = 0x02)
  /\ (0x02 ∉ CPU.implemented)
  /\ (0x02 ∉ CPU.implemented2)
  /\ fst (CPU.step (snd (CPU.reset (console_cpu (NROM.image 0x02 0x00 0x80)))))
     = 2
  /\ fst (CPU.step2 (snd (CPU.reset (console_cpu (NROM.image 0x02 0x00 0x80)))))
     = 2.
Proof.
  assert (Hop : fst (Memory.read
                       (CPU.memory
                          (snd (CPU.reset (console_cpu (NROM.image 0x02 0x00 0x80)))))
                       (CPU.PC
                          (snd (CPU.reset (console_cpu (NROM.image 0x02 0x00 0x80))))))
                = 0x02) by (vm_compute; reflexivity).
  assert (H1 : 0x02 ∉ CPU.implemented).
  { unfold CPU.implemented. rewrite !not_elem_of_cons.
    repeat (split; [lia|]). apply not_elem_of_nil. }
  assert (H2 : 0x02 ∉ CPU.implemented2).
  { unfold CPU.implemented2. rewrite !not_elem_of_cons.
    repeat (split; [lia|]). apply not_elem_of_nil. }
  split; [exact Hop|]. split; [exact H1|]. split; [exact H2|].
  destruct (CPUFacts.unhandled_opcode_nop
              (snd (CPU.reset (console_cpu (NROM.image 0x02 0x00 0x80)))))
    as (Hs1 & Hs2 & _).
  rewrite Hop in Hs1, Hs2.
  rewrite (Hs1 H1), (Hs2 H2). split; reflexivity.
Defined.

(** C8 as stated fails on the counter.  Six dots before the end of the
    PPU's frame, [runFrame] executes one instruction.  When that is the
    unhandled opcode 0x02, one warning goes to the console; when it is INX
    (0xE8), none does; the FrameStats returned are the same, field by
    field, so no field of them counts unhandled opcodes. *)
Lemma unhandled_counter_cex :
  option_map fst
    (Emulator.runFrame 1
       (ntsc_emulator
          (Harness.power_on (NROM.image 0x02 0x00 0x80)
             (Harness.ntscDots - 6) Harness.ntscDots)))
  = Some {| Emulator.cpuCyclesRun := 2; Emulator.ppuCyclesRun := 6;
            Emulator.framesCompleted := 1; Emulator.frameIndex := 1 |}
  /\ option_map fst
       (Emulator.runFrame 1
          (ntsc_emulator
             (Harness.power_on (NROM.image 0xE8 0x00 0x80)
                (Harness.ntscDots - 6) Harness.ntscDots)))
     = Some {| Emulator.cpuCyclesRun := 2; Emulator.ppuCyclesRun := 6;
               Emulator.framesCompleted := 1; Emulator.frameIndex := 1 |}
  /\ warnings_after
       (Emulator.runFrame 1
          (ntsc_emulator
             (Harness.power_on (NROM.image 0x02 0x00 0x80)
                (Harness.ntscDots - 6) Harness.ntscDots)))
     = Some [0x02]
  /\ warnings_after
       (Emulator.runFrame 1
          (ntsc_emulator
             (Harness.power_on (NROM.image 0xE8 0x00 0x80)
                (Harness.ntscDots - 6) Harness.ntscDots)))
     = Some [].
Proof.
  vm_compute. repeat split; reflexivity.
Qed.


End Console.

(** ** More of the bus (memory.js) *)
Module MemoryExtra.
Import JSFacts.

Lemma band_FF z : JS.band z 0xFF = z mod 256.
Proof.
  rewrite band_mask by lia.
  change 0xFF with (Z.ones 8). now rewrite Z.land_ones by lia.
Qed.

Lemma get_store_eq (arr : list Z) i v :
  0 <= i < Z.of_nat (length arr) -> JS.get (JS.store arr i v) i = v mod 256.
Proof.
  intros Hi. unfold JS.get, JS.store, JS.toUint8.
  destruct (Z.ltb_spec i 0); [lia|].
  apply list_lookup_total_insert_eq. lia.
Qed.

Lemma get_store_ne (arr : list Z) i j v :
  0 <= i -> 0 <= j -> i <> j -> JS.get (JS.store arr i v) j = JS.get arr j.
Proof.
  intros Hi Hj Hne. unfold JS.get, JS.store.
  destruct (Z.ltb_spec i 0); [lia|].
  apply list_lookup_total_insert_ne. lia.
Qed.

Lemma length_store (arr : list Z) i v : length (JS.store arr i v) = length arr.
Proof.
  unfold JS.store. destruct (i <? 0); [reflexivity | apply length_insert].
Qed.

Lemma Forall_store (arr : list Z) i v :
  Forall WF.byte arr -> Forall WF.byte (JS.store arr i v).
Proof.
  intros Harr. unfold JS.store. destruct (i <? 0); [exact Harr|].
  apply Forall_insert; [exact Harr|].
  unfold WF.byte, JS.toUint8. apply Z.mod_pos_bound. lia.
Qed.

Section Decode.
Context {C A : Type} `{Cartridge C} `{ApuRegisters A}.
Implicit Types m : Memory.t C A.

Lemma write_ram m a v :
  0 <= a < 0x2000 ->
  Memory.write m a v
  = Memory.set_ram m (JS.store (Memory.ram m) (a mod 0x0800) (JS.band v 0xFF)).
Proof.
  intros Ha. cbv beta zeta delta [Memory.write].
  rewrite band_FFFF_small by lia.
  destruct (Z.ltb_spec a 0x2000) as [_|]; [|lia].
  now rewrite rem_nonneg by lia.
Qed.

(** X1.  A byte written to a RAM address is read back, masked to 8 bits,
    from that address and from each of its mirrors in 0x0000-0x1FFF. *)
Theorem ram_write_read m a b v :
  length (Memory.ram m) = Z.to_nat 0x0800 ->
  0 <= a < 0x2000 -> 0 <= b < 0x2000 -> a mod 0x0800 = b mod 0x0800 ->
  fst (Memory.read (Memory.write m a v) b) = v mod 256.
Proof.
  intros Hlen Ha Hb Hab.
  rewrite write_ram, BusFacts.read_ram by lia.
  cbn [fst Memory.ram Memory.set_ram]. rewrite <- Hab.
  rewrite get_store_eq, band_FF.
  - apply Z.mod_mod. lia.
  - rewrite Hlen. pose proof (Z.mod_pos_bound a 0x0800). lia.
Qed.

(** X2.  A write to a RAM address leaves every RAM address that is not one
    of its mirrors as it read before, and leaves the cartridge, the PPU,
    the APU and the controllers untouched. *)
Theorem ram_write_frame m a b v :
  0 <= a < 0x2000 -> 0 <= b < 0x2000 -> a mod 0x0800 <> b mod 0x0800 ->
  fst (Memory.read (Memory.write m a v) b) = fst (Memory.read m b)
  /\ Memory.cartridge (Memory.write m a v) = Memory.cartridge m
  /\ Memory.ppu (Memory.write m a v) = Memory.ppu m
  /\ Memory.apu (Memory.write m a v) = Memory.apu m
  /\ Memory.controllers (Memory.write m a v) = Memory.controllers m.
Proof.
  intros Ha Hb Hab.
  rewrite write_ram, !BusFacts.read_ram by lia.
  cbn [fst Memory.ram Memory.set_ram Memory.cartridge Memory.ppu Memory.apu
       Memory.controllers].
  split; [|repeat split].
  pose proof (Z.mod_pos_bound a 0x0800). pose proof (Z.mod_pos_bound b 0x0800).
  apply get_store_ne; lia.
Qed.

(** X3.  Addresses wrap to 16 bits and values to 8: an access at
    [addr + 0x10000 * k] is the access at [addr], and a write of
    [v + 256 * j] is the write of [v]. *)
Theorem bus_wraps m addr k v j :
  Memory.read m (addr + 0x10000 * k) = Memory.read m addr
  /\ Memory.write m (addr + 0x10000 * k) (v + 256 * j) = Memory.write m addr v.
Proof.
  assert (Ha : JS.band (addr + 0x10000 * k) 0xFFFF = JS.band addr 0xFFFF).
  { rewrite !band_FFFF. rewrite Z.mul_comm. apply Z.mod_add. lia. }
  assert (Hv : JS.band (v + 256 * j) 0xFF = JS.band v 0xFF).
  { rewrite !band_FF. rewrite (Z.mul_comm 256). apply Z.mod_add. lia. }
  split.
  - cbv beta zeta delta [Memory.read]. now rewrite Ha.
  - cbv beta zeta delta [Memory.write]. now rewrite Ha, Hv.
Qed.

Lemma write_keeps_wf m a v : WF.ram m -> WF.ram (Memory.write m a v).
Proof.
  intros [Hlen Hall]. cbv beta zeta delta [Memory.write].
  repeat match goal with
         | |- context [if ?b then _ else _] => destruct b
         end; try (split; assumption).
  split; cbn [Memory.ram Memory.set_ram].
  - now rewrite length_store.
  - now apply Forall_store.
Qed.

Lemma writes_keep_wf ws : forall m, WF.ram m -> WF.ram (Memory.writes m ws).
Proof.
  induction ws as [|w ws IH]; intros m Hm; [exact Hm|].
  cbn [Memory.writes foldl]. apply IH. now apply write_keeps_wf.
Qed.

(** X4.  The RAM keeps its shape: after any sequence of bus writes, to any
    addresses, it still has 0x0800 cells and every cell is a byte, so every
    read of 0x0000-0x1FFF returns a value in [0, 255]. *)
Theorem ram_stays_bytes m (ws : list (Z * Z)) addr :
  WF.ram m -> 0 <= addr < 0x2000 ->
  WF.ram (Memory.writes m ws)
  /\ 0 <= fst (Memory.read (Memory.writes m ws) addr) < 256.
Proof.
  intros Hm Ha. pose proof (writes_keep_wf ws m Hm) as Hwf.
  split; [exact Hwf|].
  rewrite BusFacts.read_ram by lia. cbn [fst].
  destruct Hwf as [Hlen Hall].
  pose proof (Z.mod_pos_bound addr 0x0800 ltac:(lia)) as Hi.
  unfold JS.get.
  apply (Forall_lookup_1 _ _ (Z.to_nat (addr mod 0x0800)) _ Hall).
  apply list_lookup_lookup_total_lt. lia.
Qed.

(** X5.  A bus write to 0x4017 changes nothing: it is handed to the
    controllers, whose [write] only acts on 0x4016, and never reaches the
    APU (whose frame-counter register 0x4017 is therefore out of reach of
    the CPU). *)
Theorem write_4017_dropped m v :
  Memory.write m 0x4017 v = m
  /\ Memory.apu (Memory.write m 0x4017 v) = Memory.apu m.
Proof.
  assert (Hw : Memory.write m 0x4017 v = m) by now destruct m.
  rewrite Hw. split; reflexivity.
Qed.

End Decode.

End MemoryExtra.

(** ** More of the controller ports (input.js) *)
Module ControllerExtra.
Import JSFacts.

Lemma read_strobe_high c :
  JS.truthy (Controller.strobe c) = true ->
  Controller.read c = (JS.bor (Controller.pressed c "A") 0x40, c).
Proof.
  intros Hs. unfold Controller.read, Controller.pressed. now rewrite Hs.
Qed.

Lemma reads_strobe_high n c :
  JS.truthy (Controller.strobe c) = true ->
  Controller.reads n c
  = (replicate n (JS.bor (Controller.pressed c "A") 0x40), c).
Proof.
  intros Hs. induction n as [|n IH]; [reflexivity|].
  rewrite ControllerFacts.reads_S, read_strobe_high by exact Hs.
  cbn [fst snd]. now rewrite IH.
Qed.

Lemma write_strobe_high c v :
  JS.truthy (JS.band v 1) = true ->
  JS.truthy (Controller.strobe (Controller.write c v)) = true
  /\ Controller.buttons (Controller.write c v) = Controller.buttons c.
Proof.
  intros Hv. unfold Controller.write. cbn [Controller.strobe].
  rewrite Hv. cbn [Controller.reload Controller.strobe Controller.buttons].
  split; [exact Hv | reflexivity].
Qed.

(** X7.  [setButton] ignores a name that is not a button.  For a button it
    records the new state of that button and of no other; with the strobe
    low the shift register, and so the state already latched, is untouched,
    and with the strobe high the register is reloaded from the new
    state. *)
Theorem setButton_effect c name other (down : bool) :
  (Controller.buttons c !! name = None -> Controller.setButton c name down = c)
  /\ (is_Some (Controller.buttons c !! name) ->
      Controller.pressed (Controller.setButton c name down) name
      = (if down then 1 else 0)
      /\ (other <> name ->
          Controller.pressed (Controller.setButton c name down) other
          = Controller.pressed c other)
      /\ Controller.strobe (Controller.setButton c name down)
         = Controller.strobe c
      /\ (JS.truthy (Controller.strobe c) = false ->
          Controller.shiftRegister (Controller.setButton c name down)
          = Controller.shiftRegister c)
      /\ (JS.truthy (Controller.strobe c) = true ->
          Controller.shiftRegister (Controller.setButton c name down)
          = Controller.shiftRegister
              (Controller.reload (Controller.setButton c name down)))).
Proof.
  split.
  - intros Hnone. unfold Controller.setButton.
    rewrite bool_decide_eq_false_2; [reflexivity|].
    rewrite Hnone. intros [x Hx]. discriminate.
  - intros Hsome. unfold Controller.setButton.
    rewrite bool_decide_eq_true_2 by exact Hsome.
    cbn [Controller.strobe].
    destruct (JS.truthy (Controller.strobe c)) eqn:Hs;
      unfold Controller.pressed;
      cbn [Controller.reload Controller.buttons Controller.strobe
           Controller.shiftRegister];
      (split; [rewrite lookup_insert_eq; now destruct down|]);
      (split; [intros Hne; now rewrite lookup_insert_ne by congruence|]);
      (split; [reflexivity|]);
      split; intros Hd; first [discriminate | reflexivity].
Qed.

Section Bus.
Context {C A : Type} `{Cartridge C} `{ApuRegisters A}.
Implicit Types m : Memory.t C A.

(** With the strobe of port 1 high, reads of 0x4016 leave the whole bus,
    the shift register included, as it was. *)
Lemma bus_reads_strobe_high n : forall m,
  JS.truthy (Controller.strobe (Input.player1 (Memory.controllers m))) = true ->
  snd (Memory.reads n m 0x4016) = m.
Proof.
  induction n as [|n IH]; intros m Hs; [reflexivity|].
  rewrite ControllerFacts.bus_reads_S, ControllerFacts.read_4016.
  rewrite read_strobe_high by exact Hs. cbn [fst snd].
  assert (Hsame : Memory.set_controllers m
                    {| Input.player1 := Input.player1 (Memory.controllers m);
                       Input.player2 := Input.player2 (Memory.controllers m) |}
                  = m) by (destruct m as [r c p a [p1 p2]]; reflexivity).
  rewrite Hsame. now apply IH.
Qed.

(** X6.  While the strobe is high (after a bus write to 0x4016 of a value
    with bit 0 set), reads of 0x4016 do not shift: each returns the current
    state of button A, ORed with 0x40, however many are made; the bus after
    the reads is the bus after the write, and the shift register of port 1
    still holds the eight buttons as the write latched them. *)
Theorem strobe_high_reads m v n :
  JS.truthy (JS.band (JS.band v 0xFF) 1) = true ->
  fst (Memory.reads n (Memory.write m 0x4016 v) 0x4016)
  = replicate n
      (JS.bor (Controller.pressed (Input.player1 (Memory.controllers m)) "A")
         0x40)
  /\ snd (Memory.reads n (Memory.write m 0x4016 v) 0x4016)
     = Memory.write m 0x4016 v
  /\ Controller.shiftRegister
       (Input.player1
          (Memory.controllers
             (snd (Memory.reads n (Memory.write m 0x4016 v) 0x4016))))
     = Controller.shiftRegister
         (Controller.reload (Input.player1 (Memory.controllers m))).
Proof.
  intros Hv.
  destruct (write_strobe_high (Input.player1 (Memory.controllers m))
              (JS.band v 0xFF) Hv) as [Hs Hb].
  assert (Hhigh : JS.truthy
                    (Controller.strobe
                       (Input.player1
                          (Memory.controllers (Memory.write m 0x4016 v))))
                  = true).
  { rewrite ControllerFacts.write_4016.
    cbn [Memory.controllers Memory.set_controllers Input.player1]. exact Hs. }
  rewrite (bus_reads_strobe_high n _ Hhigh).
  split; [|split; [reflexivity|]].
  - rewrite ControllerFacts.bus_reads_4016, ControllerFacts.write_4016.
    cbn [Memory.controllers Memory.set_controllers Input.player1].
    rewrite reads_strobe_high by exact Hs. cbn [fst].
    unfold Controller.pressed. now rewrite Hb.
  - rewrite ControllerFacts.write_4016.
    cbn [Memory.controllers Memory.set_controllers Input.player1].
    unfold Controller.write. cbn [Controller.strobe]. rewrite Hv.
    cbn [Controller.reload Controller.shiftRegister]. unfold Controller.pressed.
    cbn [Controller.buttons]. reflexivity.
Qed.

Lemma read_4017 m :
  Memory.read m 0x4017
  = (fst (Controller.read (Input.player2 (Memory.controllers m))),
     Memory.set_controllers m
       {| Input.player1 := Input.player1 (Memory.controllers m);
          Input.player2 :=
            snd (Controller.read (Input.player2 (Memory.controllers m))) |}).
Proof.
  unfold Memory.read. change (JS.band 0x4017 0xFFFF) with 0x4017.
  cbv beta iota zeta delta [Z.ltb Z.eqb Z.compare Pos.compare Pos.compare_cont
                            Pos.eqb orb Input.read].
  now destruct (Controller.read (Input.player2 (Memory.controllers m))).
Qed.

Lemma bus_reads_4017 n : forall m,
  fst (Memory.reads n m 0x4017)
  = fst (Controller.reads n (Input.player2 (Memory.controllers m)))
  /\ Input.player1 (Memory.controllers (snd (Memory.reads n m 0x4017)))
     = Input.player1 (Memory.controllers m).
Proof.
  induction n as [|n IH]; intros m; [split; reflexivity|].
  rewrite ControllerFacts.bus_reads_S, ControllerFacts.reads_S, read_4017.
  cbn [fst snd].
  destruct (IH (Memory.set_controllers m
       {| Input.player1 := Input.player1 (Memory.controllers m);
          Input.player2 :=
            snd (Controller.read (Input.player2 (Memory.controllers m))) |}))
    as [Hv Hp].
  cbn [Memory.controllers Memory.set_controllers Input.player1 Input.player2]
    in Hv, Hp.
  rewrite Hv, Hp. split; reflexivity.
Qed.

(** X8.  The strobe written to 0x4016 latches port 2 as well: the next
    eight reads of 0x4017 return the buttons of port 2 in the order A, B,
    Select, Start, Up, Down, Left, Right, each ORed with 0x40, and 0x40
    from then on; and reading port 2 leaves port 1 as it was. *)
Theorem port2_strobe_reads m n :
  fst (Memory.reads (8 + n)
         (Memory.write (Memory.write m 0x4016 1) 0x4016 0) 0x4017)
  = map (fun x => JS.bor x 0x40)
      (Controller.latched (Input.player2 (Memory.controllers m)))
    ++ replicate n 0x40
  /\ Input.player1
       (Memory.controllers
          (snd (Memory.reads (8 + n)
                  (Memory.write (Memory.write m 0x4016 1) 0x4016 0) 0x4017)))
     = Input.player1
         (Memory.controllers (Memory.write (Memory.write m 0x4016 1) 0x4016 0)).
Proof.
  destruct (bus_reads_4017 (8 + n)
              (Memory.write (Memory.write m 0x4016 1) 0x4016 0)) as [Hv Hp].
  split; [|exact Hp].
  rewrite Hv, !ControllerFacts.write_4016.
  cbn [Memory.controllers Memory.set_controllers Input.player2].
  change (JS.band 1 0xFF) with 1. change (JS.band 0 0xFF) with 0.
  apply ControllerFacts.controller_shift.
Qed.

End Bus.

End ControllerExtra.

(** ** Checking a decidable property on every value of a range *)
Module Enum.

Lemma forallb_range (P : Z -> bool) lo n :
  forallb P (seqZ lo n) = true -> forall x, lo <= x < lo + n -> P x = true.
Proof.
  intros Hall x Hx. rewrite forallb_forall in Hall.
  apply Hall. apply list_elem_of_In, elem_of_seqZ. lia.
Qed.

Lemma forallb_bytes2 (P : Z -> Z -> bool) :
  forallb (fun a => forallb (P a) (seqZ 0 256)) (seqZ 0 256) = true ->
  forall a b, 0 <= a < 256 -> 0 <= b < 256 -> P a b = true.
Proof.
  intros Hall a b Ha Hb.
  pose proof (forallb_range _ 0 256 Hall a ltac:(lia)) as Hrow.
  cbv beta in Hrow. exact (forallb_range _ 0 256 Hrow b ltac:(lia)).
Qed.

End Enum.

(** ** More of the PPU (ppu.js): name tables, attributes, pixels *)
Module PPUExtra.
Import JSFacts Checks.

Lemma mirrorAddress_other mt addr :
  mt <> "horizontal" -> PPU.mirrorAddress mt addr = PPU.mirrorAddress "vertical" addr.
Proof.
  intros Hmt. unfold PPU.mirrorAddress.
  rewrite (bool_decide_eq_false_2 _ Hmt).
  now rewrite bool_decide_eq_false_2 by discriminate.
Qed.

Lemma mirrorAddress_range mt addr : 0 <= PPU.mirrorAddress mt addr < 0x0800.
Proof.
  unfold PPU.mirrorAddress.
  set (vi := JS.band addr 0x2FFF - 0x2000).
  pose proof (band_range vi 0x3FF ltac:(lia)).
  pose proof (band_range (vi / 0x400) 1 ltac:(lia)).
  destruct (bool_decide (mt = "horizontal")); [lia|].
  destruct (JS.truthy (JS.band (vi / 0x400) 2)); lia.
Qed.

Lemma horizontal_checked : forallb horizontal_ok (seqZ 0x2000 0x2000) = true.
Proof. vm_compute. reflexivity. Qed.

Lemma other_checked : forallb other_ok (seqZ 0x2000 0x2000) = true.
Proof. vm_compute. reflexivity. Qed.

(** X9.  [mirrorAddress] always yields an index into the 2 KiB of name-table
    memory.  On the name-table addresses 0x2000-0x3FFF, with mirror type
    "horizontal" it keeps the offset within the 1 KiB table and selects the
    half by bit 10 of the address, so tables 0 and 2 share one half and
    tables 1 and 3 the other; with any other mirror type it selects the
    half by bit 11, so tables 0 and 1 share one half and 2 and 3 the
    other. *)
Theorem nametable_mirroring (mt : string) (a : Z) :
  0x2000 <= a < 0x4000 ->
  0 <= PPU.mirrorAddress mt a < 0x0800
  /\ (mt = "horizontal" ->
      PPU.mirrorAddress mt a = a mod 0x400 + 0x400 * ((a / 0x400) mod 2))
  /\ (mt <> "horizontal" ->
      PPU.mirrorAddress mt a = a mod 0x400 + 0x400 * ((a / 0x800) mod 2)).
Proof.
  intros Ha. split; [apply mirrorAddress_range|]. split.
  - intros ->. apply Z.eqb_eq.
    exact (Enum.forallb_range _ _ _ horizontal_checked a ltac:(lia)).
  - intros Hmt. rewrite mirrorAddress_other by exact Hmt. apply Z.eqb_eq.
    exact (Enum.forallb_range _ _ _ other_checked a ltac:(lia)).
Qed.

Lemma quadrant x x' :
  0 <= x -> 0 <= x' -> x / 2 = x' / 2 ->
  x / 4 = x' / 4 /\ (2 <=? JS.rem x 4) = (2 <=? JS.rem x' 4).
Proof.
  intros Hx Hx' Heq. rewrite !rem_nonneg by lia.
  assert (H4 : x / 4 = x' / 4).
  { change 4 with (2 * 2). rewrite <- !Z.div_div by lia. now rewrite Heq. }
  split; [exact H4|].
  pose proof (Z.div_mod x 4 ltac:(lia)). pose proof (Z.div_mod x' 4 ltac:(lia)).
  pose proof (Z.div_mod x 2 ltac:(lia)). pose proof (Z.div_mod x' 2 ltac:(lia)).
  pose proof (Z.mod_pos_bound x 4 ltac:(lia)).
  pose proof (Z.mod_pos_bound x' 4 ltac:(lia)).
  pose proof (Z.mod_pos_bound x 2 ltac:(lia)).
  pose proof (Z.mod_pos_bound x' 2 ltac:(lia)).
  destruct (Z.leb_spec 2 (x mod 4)), (Z.leb_spec 2 (x' mod 4));
    first [reflexivity | lia].
Qed.

(** X10.  The attribute lookup has a granularity of 2 x 2 tiles: two tiles
    with the same halved coordinates get the same palette number, and that
    number is always one of 0, 1, 2, 3. *)
Theorem attribute_granularity (p : PPU.t) (mt : string) (x y x' y' : Z) :
  0 <= x -> 0 <= y -> 0 <= x' -> 0 <= y' ->
  x / 2 = x' / 2 -> y / 2 = y' / 2 ->
  PPU.getAttributePalette p mt x y = PPU.getAttributePalette p mt x' y'
  /\ 0 <= PPU.getAttributePalette p mt x y <= 3.
Proof.
  intros Hx Hy Hx' Hy' Hxx Hyy.
  destruct (quadrant x x' Hx Hx' Hxx) as [Hx4 Hxr].
  destruct (quadrant y y' Hy Hy' Hyy) as [Hy4 Hyr].
  unfold PPU.getAttributePalette. rewrite Hx4, Hy4, Hxr, Hyr.
  split; [reflexivity|]. apply band_range. lia.
Qed.

Lemma get_clamped_eq (arr : list Z) i v :
  0 <= i < Z.of_nat (length arr) ->
  JS.get (PPU.store_clamped arr i v) i = Z.max 0 (Z.min 255 (default 0 v)).
Proof.
  intros Hi. unfold JS.get, PPU.store_clamped.
  destruct (Z.ltb_spec i 0); [lia|].
  apply list_lookup_total_insert_eq. lia.
Qed.

Lemma get_clamped_ne (arr : list Z) i j v :
  0 <= j -> i <> j -> JS.get (PPU.store_clamped arr i v) j = JS.get arr j.
Proof.
  intros Hj Hne. unfold JS.get, PPU.store_clamped.
  destruct (Z.ltb_spec i 0); [reflexivity|].
  apply list_lookup_total_insert_ne. lia.
Qed.

Lemma length_clamped (arr : list Z) i v :
  length (PPU.store_clamped arr i v) = length arr.
Proof.
  unfold PPU.store_clamped. destruct (i <? 0); [reflexivity|].
  apply length_insert.
Qed.

(** X11.  [drawPixel] draws nothing outside the 256 x 240 screen.  Inside
    it, on a frame buffer of 256 * 240 * 4 bytes, it writes the four bytes
    of the pixel and no other: the alpha byte becomes 255, the red, green
    and blue bytes the components 0, 1 and 2 of [color], each clamped to
    [0, 255], every byte of every other pixel stays, and the buffer keeps
    its length. *)
Theorem drawPixel_bounds (fb color : list Z) (x y j : Z) :
  length fb = Z.to_nat (256 * 240 * 4) ->
  0 <= j ->
  ((x < 0 \/ 256 <= x \/ y < 0 \/ 240 <= y) -> PPU.drawPixel fb x y color = fb)
  /\ (0 <= x < 256 -> 0 <= y < 240 ->
      length (PPU.drawPixel fb x y color) = length fb
      /\ JS.get (PPU.drawPixel fb x y color) ((y * 256 + x) * 4 + 3) = 255
      /\ JS.get (PPU.drawPixel fb x y color) ((y * 256 + x) * 4)
         = Z.max 0 (Z.min 255 (default 0 (JS.index color 0)))
      /\ JS.get (PPU.drawPixel fb x y color) ((y * 256 + x) * 4 + 1)
         = Z.max 0 (Z.min 255 (default 0 (JS.index color 1)))
      /\ JS.get (PPU.drawPixel fb x y color) ((y * 256 + x) * 4 + 2)
         = Z.max 0 (Z.min 255 (default 0 (JS.index color 2)))
      /\ ((j < (y * 256 + x) * 4 \/ (y * 256 + x) * 4 + 3 < j) ->
          JS.get (PPU.drawPixel fb x y color) j = JS.get fb j)).
Proof.
  intros Hlen Hj. split.
  - intros Hout. unfold PPU.drawPixel.
    destruct (Z.ltb_spec x 0), (Z.leb_spec 256 x), (Z.ltb_spec y 0),
      (Z.leb_spec 240 y); cbn [orb]; first [reflexivity | lia].
  - intros Hx Hy. unfold PPU.drawPixel.
    destruct (Z.ltb_spec x 0), (Z.leb_spec 256 x), (Z.ltb_spec y 0),
      (Z.leb_spec 240 y); try lia. cbn [orb].
    set (idx := (y * 256 + x) * 4).
    assert (Hidx : 0 <= idx /\ idx + 3 < 256 * 240 * 4) by (unfold idx; lia).
    split; [now rewrite !length_clamped|]. split; [|split; [|split; [|split]]].
    + rewrite get_clamped_eq; [reflexivity|].
      rewrite !length_clamped, Hlen. lia.
    + rewrite !get_clamped_ne by lia.
      rewrite get_clamped_eq; [reflexivity|]. rewrite Hlen. lia.
    + rewrite !get_clamped_ne by lia.
      rewrite get_clamped_eq; [reflexivity|].
      rewrite !length_clamped, Hlen. lia.
    + rewrite get_clamped_ne by lia.
      rewrite get_clamped_eq; [reflexivity|].
      rewrite !length_clamped, Hlen. lia.
    + intros Hfar. rewrite !get_clamped_ne by lia. reflexivity.
Qed.

End PPUExtra.

(** ** The PPU's dot clock (ppu.js) *)
Module PPUTiming.
Import JSFacts Checks.

Lemma status_checked : forallb status_ok (seqZ 0 256) = true.
Proof. vm_compute. reflexivity. Qed.

Lemma status_updates s :
  0 <= s < 256 ->
  (0 <= JS.bor s 0x80 < 256) /\ (0 <= JS.bor s 0x40 < 256)
  /\ (0 <= JS.band s 0x7F < 256)
  /\ JS.truthy (JS.band (JS.bor s 0x80) 0x80) = true
  /\ JS.truthy (JS.band (JS.band s 0x7F) 0x80) = false
  /\ JS.truthy (JS.band (JS.bor s 0x40) 0x80) = JS.truthy (JS.band s 0x80).
Proof.
  intros Hs.
  pose proof (Enum.forallb_range _ _ _ status_checked s ltac:(lia)) as Hok.
  unfold status_ok in Hok.
  repeat (apply andb_prop in Hok; destruct Hok as [Hok ?]).
  repeat match goal with
         | H : (_ <=? _) = true |- _ => apply Z.leb_le in H
         | H : (_ <? _) = true |- _ => apply Z.ltb_lt in H
         | H : negb _ = true |- _ => apply negb_true_iff in H
         | H : Bool.eqb _ _ = true |- _ => apply Bool.eqb_prop in H
         end.
  repeat split; assumption.
Qed.

Lemma renderFrame_position hit p :
  PPU.cycle (PPU.renderFrame hit p) = PPU.cycle p
  /\ PPU.scanline (PPU.renderFrame hit p) = PPU.scanline p.
Proof. destruct hit; split; reflexivity. Qed.

(** One dot moves the position one place forward in the frame. *)
Lemma step_position hit p :
  WF.position p ->
  WF.position (PPU.step hit p)
  /\ PPU.dot (PPU.step hit p) = (PPU.dot p + 1) mod (341 * 262).
Proof.
  intros [Hc Hs]. unfold WF.position, PPU.dot, PPU.step.
  cbn [PPU.cycle PPU.set_cycle PPU.scanline PPU.set_scanline PPU.status
       PPU.set_status].
  destruct (Z.ltb_spec 340 (PPU.cycle p + 1)) as [Hline|Hline].
  - destruct (Z.eqb_spec (PPU.scanline p + 1) 241) as [H241|H241].
    + destruct (renderFrame_position hit
                  (PPU.set_status
                     (PPU.set_scanline (PPU.set_cycle
                        (PPU.set_cycle p (PPU.cycle p + 1)) 0)
                        (PPU.scanline p + 1))
                     (JS.bor (PPU.status p) 0x80))) as [Hrc Hrs].
      cbn [PPU.cycle PPU.set_cycle PPU.scanline PPU.set_scanline PPU.status
           PPU.set_status] in Hrc, Hrs.
      rewrite Hrs. destruct (Z.leb_spec 262 (PPU.scanline p + 1)); [lia|].
      rewrite Hrc, Hrs. split; [lia|].
      apply Z.mod_unique with (q := 0); lia.
    + cbn [PPU.cycle PPU.set_cycle PPU.scanline PPU.set_scanline
           PPU.set_status].
      destruct (Z.leb_spec 262 (PPU.scanline p + 1)) as [Hwrap|Hwrap];
        cbn [PPU.cycle PPU.set_cycle PPU.scanline PPU.set_scanline
             PPU.set_status].
      * split; [lia|]. apply Z.mod_unique with (q := 1); lia.
      * split; [lia|]. apply Z.mod_unique with (q := 0); lia.
  - cbn [PPU.cycle PPU.set_cycle PPU.scanline]. split; [lia|].
    apply Z.mod_unique with (q := 0); lia.
Qed.

Lemma steps_position hits : forall p,
  WF.position p ->
  WF.position (PPU.steps p hits)
  /\ PPU.dot (PPU.steps p hits)
     = (PPU.dot p + Z.of_nat (length hits)) mod (341 * 262).
Proof.
  induction hits as [|h hits IH]; intros p Hp.
  - cbn [PPU.steps foldl length]. split; [exact Hp|].
    destruct Hp as [Hc Hs]. unfold PPU.dot. rewrite Z.add_0_r.
    symmetry. apply Z.mod_small. lia.
  - destruct (step_position h p Hp) as [Hp1 Hd1].
    destruct (IH (PPU.step h p) Hp1) as [Hp2 Hd2].
    cbn [PPU.steps foldl]. split; [exact Hp2|].
    unfold PPU.steps in Hd2. rewrite Hd2, Hd1.
    rewrite Zplus_mod_idemp_l. f_equal. cbn [length]. lia.
Qed.

(** X12.  The dot clock keeps the position inside the frame (cycle in
    [0, 340], scanline in [0, 261]) and advances it by one dot per step,
    modulo the 341 * 262 dots of a frame, whatever the renderer finds: after
    exactly 341 * 262 steps the PPU is back on the cycle and the scanline it
    started from. *)
Theorem frame_period (p : PPU.t) (hits : list bool) :
  WF.position p ->
  WF.position (PPU.steps p hits)
  /\ PPU.dot (PPU.steps p hits)
     = (PPU.dot p + Z.of_nat (length hits)) mod (341 * 262)
  /\ (Z.of_nat (length hits) = 341 * 262 ->
      PPU.cycle (PPU.steps p hits) = PPU.cycle p
      /\ PPU.scanline (PPU.steps p hits) = PPU.scanline p).
Proof.
  intros Hp. destruct (steps_position hits p Hp) as [Hp' Hd].
  split; [exact Hp'|]. split; [exact Hd|].
  intros Hlen. rewrite Hlen in Hd.
  rewrite <- (Z.mul_1_l (341 * 262)) in Hd at 1.
  rewrite Z.mod_add in Hd by lia.
  destruct Hp as [Hc Hs], Hp' as [Hc' Hs'].
  unfold PPU.dot in Hd. rewrite Z.mod_small in Hd by lia. lia.
Qed.

Lemma step_vblank hit p :
  WF.position p -> WF.vblank p -> WF.vblank (PPU.step hit p).
Proof.
  intros [Hc Hs] [Hb Hv]. unfold WF.vblank, PPU.step.
  destruct (status_updates (PPU.status p) Hb)
    as (Hb80 & Hb40 & Hb7F & Hset & Hclr & Hkeep).
  cbn [PPU.cycle PPU.set_cycle PPU.scanline PPU.set_scanline PPU.status
       PPU.set_status].
  destruct (Z.ltb_spec 340 (PPU.cycle p + 1)) as [Hline|Hline].
  - destruct (Z.eqb_spec (PPU.scanline p + 1) 241) as [H241|H241].
    + destruct (status_updates (JS.bor (PPU.status p) 0x80) Hb80)
        as (_ & Hb40' & _ & _ & _ & Hkeep').
      destruct hit; unfold PPU.renderFrame;
        cbn [PPU.cycle PPU.set_cycle PPU.scanline PPU.set_scanline PPU.status
             PPU.set_status PPU.set_sprite0Hit];
        rewrite H241; cbn [Z.leb Z.compare Pos.compare Pos.compare_cont];
        cbn [PPU.status PPU.scanline PPU.set_status PPU.set_sprite0Hit].
      * split; [exact Hb40'|]. now rewrite Hkeep', Hset.
      * split; [exact Hb80 | exact Hset].
    + cbn [PPU.status PPU.scanline PPU.set_status PPU.set_scanline
           PPU.set_cycle].
      destruct (Z.leb_spec 262 (PPU.scanline p + 1)) as [Hwrap|Hwrap];
        cbn [PPU.status PPU.scanline PPU.set_status PPU.set_scanline
             PPU.set_cycle].
      * split; [exact Hb7F|]. now rewrite Hclr.
      * split; [exact Hb|]. rewrite Hv.
        destruct (Z.leb_spec 241 (PPU.scanline p)),
          (Z.leb_spec 241 (PPU.scanline p + 1)); first [reflexivity | lia].
  - cbn [PPU.status PPU.scanline PPU.set_cycle]. split; assumption.
Qed.

(** X13.  Left to the dot clock alone, the VBlank bit follows the raster:
    if bit 7 of the status is set exactly on the lines 241 to 261 (as in the
    constructor's state, line 0 with a clear status), it still is after any
    number of steps, and the status stays a byte.  The bit is set when a
    step enters line 241 and cleared when a step wraps from line 261 to
    line 0. *)
Theorem vblank_follows_raster (p : PPU.t) (hits : list bool) :
  WF.position p -> WF.vblank p ->
  WF.position (PPU.steps p hits) /\ WF.vblank (PPU.steps p hits).
Proof.
  revert p. induction hits as [|h hits IH]; intros p Hp Hv.
  - split; assumption.
  - cbn [PPU.steps foldl]. apply IH.
    + exact (proj1 (step_position h p Hp)).
    + now apply step_vblank.
Qed.

End PPUTiming.

(** ** More of the PPU's register handlers (ppu.js) *)
Module PPURegs.
Import JSFacts Checks.

Lemma latch_checked :
  forallb (fun r => forallb (latch_ok r) (seqZ 0 256)) (seqZ 0 256) = true.
Proof. vm_compute. reflexivity. Qed.

Lemma shl_8 hi : 0 <= hi < 256 -> JS.shl hi 8 = 256 * hi.
Proof.
  intros Hhi. unfold JS.shl. rewrite (toInt32_small hi) by lia.
  change (8 mod 32) with 8. rewrite Z.shiftl_mul_pow2 by lia.
  change (2 ^ 8) with 256. rewrite toInt32_small; lia.
Qed.

Lemma latch_high r hi :
  0 <= r < 256 -> 0 <= hi < 256 ->
  JS.band (JS.bor r (JS.shl hi 8)) 0xFF00 = 256 * hi
  /\ JS.shl hi 8 = 256 * hi.
Proof.
  intros Hr Hhi. split; [|now apply shl_8].
  assert (Hcomm : JS.bor r (JS.shl hi 8) = JS.bor (JS.shl hi 8) r)
    by (unfold JS.bor; apply Z.lor_comm).
  rewrite Hcomm, word_of_bytes, band_mask by lia.
  apply Z.eqb_eq.
  exact (Enum.forallb_bytes2 _ latch_checked r hi Hr Hhi).
Qed.

Lemma address_latch_from_first (p : PPU.t) (hi lo : Z) :
  PPU.writeToggle p = 0 -> 0 <= hi < 256 -> 0 <= lo < 256 ->
  PPU.vramAddr (PPU.writeRegister (PPU.writeRegister p 0x2006 hi) 0x2006 lo)
  = lo + 256 * hi
  /\ PPU.tempAddr (PPU.writeRegister (PPU.writeRegister p 0x2006 hi) 0x2006 lo)
     = lo + 256 * hi
  /\ PPU.writeToggle
       (PPU.writeRegister (PPU.writeRegister p 0x2006 hi) 0x2006 lo) = 0.
Proof.
  intros Hw Hhi Hlo.
  pose proof (band_range (PPU.tempAddr p) 0x00FF ltac:(lia)) as Hr.
  destruct (latch_high (JS.band (PPU.tempAddr p) 0x00FF) hi ltac:(lia) Hhi)
    as [Hhigh Hshl].
  assert (Hfirst : PPU.writeRegister p 0x2006 hi
                   = PPU.set_writeToggle
                       (PPU.set_tempAddr p
                          (JS.bor (JS.band (PPU.tempAddr p) 0x00FF)
                             (JS.shl hi 8))) 1).
  { unfold PPU.writeRegister. cbn [Z.eqb Pos.eqb]. now rewrite Hw. }
  rewrite Hfirst. unfold PPU.writeRegister. cbn [Z.eqb Pos.eqb].
  cbn [PPU.writeToggle PPU.set_writeToggle PPU.tempAddr PPU.set_tempAddr
       PPU.vramAddr PPU.set_vramAddr Z.eqb].
  rewrite Hhigh, <- Hshl, word_of_bytes by assumption.
  rewrite Hshl. repeat split.
Qed.

(** X14.  The address latch of 0x2006: starting from a clear write toggle,
    a write of the high byte and then of the low byte loads the VRAM address
    (and the temporary address) with [high * 256 + low] and leaves the
    toggle clear; and a read of the status register clears the toggle, so
    the same holds after it whatever the toggle was. *)
Theorem address_latch (p q : PPU.t) (hi lo : Z) :
  PPU.writeToggle p = 0 -> 0 <= hi < 256 -> 0 <= lo < 256 ->
  (PPU.vramAddr (PPU.writeRegister (PPU.writeRegister p 0x2006 hi) 0x2006 lo)
   = lo + 256 * hi
   /\ PPU.tempAddr (PPU.writeRegister (PPU.writeRegister p 0x2006 hi) 0x2006 lo)
      = lo + 256 * hi
   /\ PPU.writeToggle
        (PPU.writeRegister (PPU.writeRegister p 0x2006 hi) 0x2006 lo) = 0)
  /\ PPU.vramAddr
       (PPU.writeRegister
          (PPU.writeRegister (snd (PPU.readRegister q 0x2002)) 0x2006 hi)
          0x2006 lo)
     = lo + 256 * hi.
Proof.
  intros Hw Hhi Hlo. split.
  - now apply address_latch_from_first.
  - now apply address_latch_from_first.
Qed.

(** X15.  A write to 0x2007 stores the byte in the VRAM cell
    [vramAddr & 0x3FFF], leaves every other cell, and advances the VRAM
    address by 32 when bit 2 of the control register is set and by 1
    otherwise; nothing else in the PPU changes. *)
Theorem data_write (p : PPU.t) (v j : Z) :
  length (PPU.vram p) = Z.to_nat 0x4000 ->
  0 <= j -> j <> JS.band (PPU.vramAddr p) 0x3FFF ->
  JS.get (PPU.vram (PPU.writeRegister p 0x2007 v))
    (JS.band (PPU.vramAddr p) 0x3FFF) = v mod 256
  /\ JS.get (PPU.vram (PPU.writeRegister p 0x2007 v)) j = JS.get (PPU.vram p) j
  /\ PPU.vramAddr (PPU.writeRegister p 0x2007 v)
     = PPU.vramAddr p + (if JS.truthy (JS.band (PPU.ctrl p) 0x04) then 32 else 1)
  /\ PPU.writeRegister p 0x2007 v
     = PPU.set_vramAddr
         (PPU.set_vram p (PPU.vram (PPU.writeRegister p 0x2007 v)))
         (PPU.vramAddr (PPU.writeRegister p 0x2007 v)).
Proof.
  intros Hlen Hj Hne.
  pose proof (band_range (PPU.vramAddr p) 0x3FFF ltac:(lia)) as Hi.
  change (PPU.writeRegister p 0x2007 v)
    with (PPU.bump_vramAddr
            (PPU.set_vram p
               (JS.store (PPU.vram p) (JS.band (PPU.vramAddr p) 0x3FFF) v))).
  unfold PPU.bump_vramAddr.
  cbn [PPU.vram PPU.set_vram PPU.vramAddr PPU.set_vramAddr PPU.ctrl].
  split; [|split; [|split; reflexivity]].
  - apply MemoryExtra.get_store_eq. rewrite Hlen. lia.
  - apply MemoryExtra.get_store_ne; lia.
Qed.

(** X16.  A read of 0x2007 never returns VRAM: the address masked with
    0x1FFF is always below 0x2000, so the value is the CHR-ROM byte at
    [vramAddr & 0x1FFF] whatever the VRAM holds, also right after a write
    through 0x2007; the read advances the VRAM address like a write. *)
Theorem data_read_is_chr (p : PPU.t) (vram' : list Z) (v : Z) :
  fst (PPU.readRegister p 0x2007)
  = JS.get (PPU.chrROM p) (JS.band (PPU.vramAddr p) 0x1FFF)
  /\ fst (PPU.readRegister (PPU.set_vram p vram') 0x2007)
     = fst (PPU.readRegister p 0x2007)
  /\ fst (PPU.readRegister (PPU.writeRegister p 0x2007 v) 0x2007)
     = JS.get (PPU.chrROM p)
         (JS.band (PPU.vramAddr (PPU.writeRegister p 0x2007 v)) 0x1FFF)
  /\ PPU.vramAddr (snd (PPU.readRegister p 0x2007))
     = PPU.vramAddr p + (if JS.truthy (JS.band (PPU.ctrl p) 0x04) then 32 else 1).
Proof.
  assert (Hread : forall r : PPU.t,
            PPU.readRegister r 0x2007
            = (JS.get (PPU.chrROM r) (JS.band (PPU.vramAddr r) 0x1FFF),
               PPU.bump_vramAddr r)).
  { intros r. unfold PPU.readRegister. cbn [Z.eqb Pos.eqb].
    pose proof (band_range (PPU.vramAddr r) 0x1FFF ltac:(lia)) as Hr.
    destruct (Z.ltb_spec (JS.band (PPU.vramAddr r) 0x1FFF) 0x2000); [|lia].
    reflexivity. }
  rewrite !Hread. cbn [fst snd]. repeat split.
Qed.

(** X17.  A write to 0x2004 stores the byte in the OAM cell OAMADDR when
    OAMADDR is inside the 256-byte OAM and stores nothing otherwise; either
    way OAMADDR becomes OAMADDR + 1, without wrapping at 256, so writes
    that follow the 256th are lost. *)
Theorem oam_data_write (p : PPU.t) (v : Z) :
  length (PPU.oam p) = 256%nat ->
  PPU.oamAddr (PPU.writeRegister p 0x2004 v) = PPU.oamAddr p + 1
  /\ (0 <= PPU.oamAddr p < 256 ->
      JS.get (PPU.oam (PPU.writeRegister p 0x2004 v)) (PPU.oamAddr p)
      = v mod 256)
  /\ (PPU.oamAddr p < 0 \/ 256 <= PPU.oamAddr p ->
      PPU.oam (PPU.writeRegister p 0x2004 v) = PPU.oam p)
  /\ length (PPU.oam (PPU.writeRegister p 0x2004 v)) = 256%nat.
Proof.
  intros Hlen.
  change (PPU.writeRegister p 0x2004 v)
    with (PPU.set_oamAddr
            (PPU.set_oam p (JS.store (PPU.oam p) (PPU.oamAddr p) v))
            (PPU.oamAddr p + 1)).
  cbn [PPU.oamAddr PPU.set_oamAddr PPU.oam PPU.set_oam].
  split; [reflexivity|]. split; [|split].
  - intros Hin. apply MemoryExtra.get_store_eq. rewrite Hlen. lia.
  - intros Hout. unfold JS.store.
    destruct (Z.ltb_spec (PPU.oamAddr p) 0); [reflexivity|].
    apply list_insert_ge. lia.
  - now rewrite MemoryExtra.length_store.
Qed.

(** X18.  With a DMA source that has no indexed elements (the Memory
    object that emulator.js hands to the PPU), [performDMA] clears the OAM:
    all 256 bytes become 0, for every page. *)
Theorem dma_from_empty_clears (p : PPU.t) (page : Z) :
  length (PPU.oam p) = 256%nat -> PPU.cpuMemory p = [] ->
  PPU.oam (PPU.performDMA p page) = replicate 256 0.
Proof.
  intros Hlen Hsrc. apply list_eq. intros i.
  destruct (Nat.lt_ge_cases i 256) as [Hi|Hi].
  - destruct (PPUFacts.performDMA_spec p page (Z.of_nat i) Hlen ltac:(lia))
      as (Hget & Hl & _).
    rewrite lookup_replicate_2 by exact Hi.
    rewrite Hsrc in Hget. unfold JS.get in Hget. rewrite Nat2Z.id in Hget.
    assert (Hnone : JS.index [] (JS.shl page 8 + Z.of_nat i) = None).
    { unfold JS.index. now destruct (_ <? 0). }
    rewrite Hnone in Hget. cbn [default] in Hget.
    change (JS.toUint8 0) with 0 in Hget.
    rewrite <- Hget. apply list_lookup_lookup_total_lt. lia.
  - destruct (PPUFacts.performDMA_spec p page 0 Hlen ltac:(lia))
      as (_ & Hl & _).
    rewrite !lookup_ge_None_2; [reflexivity| |].
    + rewrite length_replicate. lia.
    + lia.
Qed.

End PPURegs.

(** ** The status register and the arithmetic of the CPU (cpu.js) *)
Module CPUFlags.
Import JSFacts Checks.

Lemma flag_checked :
  forallb (fun s => forallb (flag_ok s) (seqZ 0 8)) (seqZ 0 256) = true.
Proof. vm_compute. reflexivity. Qed.

Lemma flag_bits s k :
  0 <= s < 256 -> 0 <= k < 8 ->
  sf s (flag k) true = Z.setbit s k
  /\ sf s (flag k) false = Z.clearbit s k
  /\ gf s (flag k) = Z.testbit s k
  /\ 0 <= Z.setbit s k < 256
  /\ 0 <= Z.clearbit s k < 256.
Proof.
  intros Hs Hk.
  pose proof (Enum.forallb_range _ _ _ flag_checked s ltac:(lia)) as H1.
  cbv beta in H1.
  pose proof (Enum.forallb_range _ _ _ H1 k ltac:(lia)) as Hok.
  unfold flag_ok in Hok.
  repeat (apply andb_prop in Hok; destruct Hok as [Hok ?]).
  repeat match goal with
         | H : (_ <=? _) = true |- _ => apply Z.leb_le in H
         | H : (_ <? _) = true |- _ => apply Z.ltb_lt in H
         | H : (_ =? _) = true |- _ => apply Z.eqb_eq in H
         | H : Bool.eqb _ _ = true |- _ => apply Bool.eqb_prop in H
         end.
  repeat split; first [assumption | lia].
Qed.

Lemma sf_gf s k g b :
  0 <= s < 256 -> 0 <= k < 8 -> 0 <= g < 8 ->
  0 <= sf s (flag k) b < 256
  /\ gf (sf s (flag k) b) (flag k) = b
  /\ (g <> k -> gf (sf s (flag k) b) (flag g) = gf s (flag g)).
Proof.
  intros Hs Hk Hg.
  destruct (flag_bits s k Hs Hk) as (Hset & Hclr & _ & Hbs & Hbc).
  destruct (flag_bits s g Hs Hg) as (_ & _ & Hgs & _ & _).
  destruct b.
  - rewrite Hset.
    destruct (flag_bits (Z.setbit s k) k Hbs Hk) as (_ & _ & Hk' & _ & _).
    destruct (flag_bits (Z.setbit s k) g Hbs Hg) as (_ & _ & Hg' & _ & _).
    split; [exact Hbs|]. split.
    + rewrite Hk'. apply Z.setbit_eq. lia.
    + intros Hne. rewrite Hg', Hgs. apply Z.setbit_neq; lia.
  - rewrite Hclr.
    destruct (flag_bits (Z.clearbit s k) k Hbc Hk) as (_ & _ & Hk' & _ & _).
    destruct (flag_bits (Z.clearbit s k) g Hbc Hg) as (_ & _ & Hg' & _ & _).
    split; [exact Hbc|]. split.
    + rewrite Hk'. apply Z.clearbit_eq.
    + intros Hne. rewrite Hg', Hgs. apply Z.clearbit_neq. lia.
Qed.

Lemma sum_checked : forallb sum_ok (seqZ 0 512) = true.
Proof. vm_compute. reflexivity. Qed.

Lemma sum_bits r :
  0 <= r < 512 ->
  JS.truthy (JS.band r 0x80) = (128 <=? r mod 256)
  /\ JS.band r 0xFF = r mod 256.
Proof.
  intros Hr.
  pose proof (Enum.forallb_range _ _ _ sum_checked r ltac:(lia)) as Hok.
  unfold sum_ok in Hok. apply andb_prop in Hok. destruct Hok as [H1 H2].
  split; [now apply Bool.eqb_prop | now apply Z.eqb_eq].
Qed.

Lemma overflow_checked :
  forallb (fun a => forallb (overflow_ok a) (seqZ 0 256)) (seqZ 0 256) = true.
Proof. vm_compute. reflexivity. Qed.

Lemma lxor_bound a b :
  0 <= a < 1024 -> 0 <= b < 1024 -> 0 <= Z.lxor a b < 1024.
Proof.
  intros Ha Hb.
  assert (Hnn : 0 <= Z.lxor a b) by (apply Z.lxor_nonneg; lia).
  split; [exact Hnn|].
  destruct (Z.eq_dec (Z.lxor a b) 0) as [->|Hne]; [lia|].
  change 1024 with (2 ^ 10). apply Z.log2_lt_pow2; [lia|].
  pose proof (Z.log2_lxor a b ltac:(lia) ltac:(lia)) as Hlog.
  assert (Hla : Z.log2 a < 10).
  { destruct (Z.eq_dec a 0) as [->|]; [cbn; lia|].
    apply Z.log2_lt_pow2; [lia|]. change (2 ^ 10) with 1024. lia. }
  assert (Hlb : Z.log2 b < 10).
  { destruct (Z.eq_dec b 0) as [->|]; [cbn; lia|].
    apply Z.log2_lt_pow2; [lia|]. change (2 ^ 10) with 1024. lia. }
  lia.
Qed.

Lemma overflow_code_bitwise a v carry :
  0 <= a < 256 -> 0 <= v < 256 -> 0 <= carry <= 1 ->
  overflow_code a v carry = overflow_bitwise a v carry.
Proof.
  intros Ha Hv Hc. unfold overflow_code, overflow_bitwise, JS.truthy.
  rewrite band_mask by lia. do 2 f_equal. f_equal.
  pose proof (lxor_bound a v ltac:(lia) ltac:(lia)) as Hx1.
  pose proof (lxor_bound a (a + v + carry) ltac:(lia) ltac:(lia)) as Hx2.
  unfold JS.band, JS.bnot, JS.bxor.
  rewrite (toInt32_small a), (toInt32_small v),
    (toInt32_small (a + v + carry)) by lia.
  rewrite (toInt32_small (Z.lxor a v)) by lia.
  rewrite (toInt32_small (Z.lxor a (a + v + carry))) by lia.
  rewrite toInt32_small; [reflexivity|].
  unfold Z.lnot. lia.
Qed.

Lemma overflow_bits a v (cf : bool) :
  0 <= a < 256 -> 0 <= v < 256 ->
  overflow_code a v (if cf then 1 else 0)
  = overflow_signed a v (if cf then 1 else 0)
  /\ JS.band (JS.bnot v) 0xFF = 255 - v.
Proof.
  intros Ha Hv.
  pose proof (Enum.forallb_bytes2 _ overflow_checked a v Ha Hv) as Hok.
  unfold overflow_ok in Hok.
  repeat (apply andb_prop in Hok; destruct Hok as [Hok ?]).
  split.
  - rewrite overflow_code_bitwise by (destruct cf; lia).
    destruct cf; now apply Bool.eqb_prop.
  - rewrite band_mask by lia. unfold JS.bnot.
    rewrite toInt32_small by lia. now apply Z.eqb_eq.
Qed.

Section Core.
Context {Cart Apu : Type} `{Cartridge Cart} `{ApuRegisters Apu}.
Implicit Types c : CPU.t Cart Apu.

Lemma setFlag_unfold f b c :
  CPU.setFlag f b c = (tt, CPU.set_status (sf (CPU.status c) f b) c).
Proof. unfold CPU.setFlag, CPU.modify, sf. now destruct b. Qed.

Lemma getFlag_unfold f c : CPU.getFlag f c = (gf (CPU.status c) f, c).
Proof. reflexivity. Qed.

(** X19.  The status register behaves as eight independent bits: on a
    status byte, [getFlag] after [setFlag] of the same flag returns the
    value set, every other flag reads as before, the status stays a byte,
    and nothing but the status changes. *)
Theorem flag_set_get c (k g : Z) (b : bool) :
  0 <= CPU.status c < 256 -> 0 <= k < 8 -> 0 <= g < 8 ->
  fst (CPU.getFlag (JS.shl 1 k) (snd (CPU.setFlag (JS.shl 1 k) b c))) = b
  /\ (g <> k ->
      fst (CPU.getFlag (JS.shl 1 g) (snd (CPU.setFlag (JS.shl 1 k) b c)))
      = fst (CPU.getFlag (JS.shl 1 g) c))
  /\ 0 <= CPU.status (snd (CPU.setFlag (JS.shl 1 k) b c)) < 256
  /\ snd (CPU.setFlag (JS.shl 1 k) b c)
     = CPU.set_status (CPU.status (snd (CPU.setFlag (JS.shl 1 k) b c))) c.
Proof.
  intros Hs Hk Hg. rewrite setFlag_unfold, !getFlag_unfold.
  cbn [fst snd CPU.status CPU.set_status].
  destruct (sf_gf (CPU.status c) k g b Hs Hk Hg) as (Hb & Hget & Hframe).
  fold (flag k). fold (flag g). repeat split; first [lia | assumption].
Qed.

Lemma adc_unfold v c :
  CPU.adc v c
  = (tt,
     CPU.set_A
       (JS.band (CPU.A c + v + (if gf (CPU.status c) CPU.FLAG_C then 1 else 0))
          0xFF)
       (CPU.set_status
          (sf (sf (sf (sf (CPU.status c) CPU.FLAG_C
                        (0xFF <? CPU.A c + v
                                 + (if gf (CPU.status c) CPU.FLAG_C
                                    then 1 else 0)))
                     CPU.FLAG_Z
                     (JS.band (CPU.A c + v
                               + (if gf (CPU.status c) CPU.FLAG_C
                                  then 1 else 0)) 0xFF =? 0))
                 CPU.FLAG_N
                 (JS.truthy
                    (JS.band (CPU.A c + v
                              + (if gf (CPU.status c) CPU.FLAG_C
                                 then 1 else 0)) 0x80)))
             CPU.FLAG_V
             (overflow_code (CPU.A c) v
                (if gf (CPU.status c) CPU.FLAG_C then 1 else 0)))
          c)).
Proof.
  unfold CPU.adc, mbind, CPU.M_bind, CPU.bind.
  rewrite getFlag_unfold. unfold CPU.gets.
  rewrite !setFlag_unfold. unfold CPU.modify.
  cbn [CPU.status CPU.set_status CPU.A CPU.set_A].
  reflexivity.
Qed.

(** The flags and the accumulator after [adc], read off its status. *)
Lemma adc_result v c :
  0 <= CPU.A c < 256 -> 0 <= v < 256 -> 0 <= CPU.status c < 256 ->
  CPU.A (snd (CPU.adc v c))
  = (CPU.A c + v + (if fst (CPU.getFlag CPU.FLAG_C c) then 1 else 0)) mod 256
  /\ fst (CPU.getFlag CPU.FLAG_C (snd (CPU.adc v c)))
     = (255 <? CPU.A c + v + (if fst (CPU.getFlag CPU.FLAG_C c) then 1 else 0))
  /\ fst (CPU.getFlag CPU.FLAG_Z (snd (CPU.adc v c)))
     = (CPU.A (snd (CPU.adc v c)) =? 0)
  /\ fst (CPU.getFlag CPU.FLAG_N (snd (CPU.adc v c)))
     = (128 <=? CPU.A (snd (CPU.adc v c)))
  /\ fst (CPU.getFlag CPU.FLAG_V (snd (CPU.adc v c)))
     = overflow_signed (CPU.A c) v
         (if fst (CPU.getFlag CPU.FLAG_C c) then 1 else 0)
  /\ 0 <= CPU.status (snd (CPU.adc v c)) < 256.
Proof.
  intros Ha Hv Hs. rewrite adc_unfold, !getFlag_unfold.
  cbn [fst snd CPU.A CPU.set_A CPU.status CPU.set_status].
  set (cf := gf (CPU.status c) CPU.FLAG_C).
  set (r := CPU.A c + v + (if cf then 1 else 0)).
  assert (Hr : 0 <= r < 512) by (unfold r; destruct cf; lia).
  destruct (sum_bits r Hr) as [HN Hlow].
  destruct (overflow_bits (CPU.A c) v cf Ha Hv) as [HV _].
  rewrite Hlow, HN, HV.
  change CPU.FLAG_C with (flag 0). change CPU.FLAG_Z with (flag 1).
  change CPU.FLAG_N with (flag 7). change CPU.FLAG_V with (flag 6).
  set (s1 := sf (CPU.status c) (flag 0) (255 <? r)).
  destruct (sf_gf (CPU.status c) 0 0 (255 <? r) Hs ltac:(lia) ltac:(lia))
    as (Hb1 & Hg1 & _).
  fold s1 in Hb1, Hg1.
  set (s2 := sf s1 (flag 1) (r mod 256 =? 0)).
  destruct (sf_gf s1 1 0 (r mod 256 =? 0) Hb1 ltac:(lia) ltac:(lia))
    as (Hb2 & Hg2 & Hf20).
  fold s2 in Hb2, Hg2, Hf20.
  set (s3 := sf s2 (flag 7) (128 <=? r mod 256)).
  destruct (sf_gf s2 7 0 (128 <=? r mod 256) Hb2 ltac:(lia) ltac:(lia))
    as (Hb3 & Hg3 & Hf30).
  destruct (sf_gf s2 7 1 (128 <=? r mod 256) Hb2 ltac:(lia) ltac:(lia))
    as (_ & _ & Hf31).
  fold s3 in Hb3, Hg3, Hf30, Hf31.
  set (bv := overflow_signed (CPU.A c) v (if cf then 1 else 0)).
  destruct (sf_gf s3 6 0 bv Hb3 ltac:(lia) ltac:(lia)) as (Hb4 & Hg4 & Hf40).
  destruct (sf_gf s3 6 1 bv Hb3 ltac:(lia) ltac:(lia)) as (_ & _ & Hf41).
  destruct (sf_gf s3 6 7 bv Hb3 ltac:(lia) ltac:(lia)) as (_ & _ & Hf47).
  split; [reflexivity|].
  split; [rewrite Hf40, Hf30, Hf20 by lia; exact Hg1|].
  split; [rewrite Hf41, Hf31 by lia; exact Hg2|].
  split; [rewrite Hf47 by lia; exact Hg3|].
  split; [exact Hg4 | exact Hb4].
Qed.

(** X20.  [adc] is the 8-bit addition with carry: on bytes, the new
    accumulator and the new carry together hold the sum
    [A + value + carry], Z tells that the accumulator is 0, N is its bit 7,
    and V tells that the sum of the operands read as signed numbers, plus
    the carry, left [-128, 127].  The status stays a byte and nothing but A
    and the status changes. *)
Theorem adc_adds v c :
  0 <= CPU.A c < 256 -> 0 <= v < 256 -> 0 <= CPU.status c < 256 ->
  CPU.A (snd (CPU.adc v c))
  + 256 * (if fst (CPU.getFlag CPU.FLAG_C (snd (CPU.adc v c))) then 1 else 0)
  = CPU.A c + v + (if fst (CPU.getFlag CPU.FLAG_C c) then 1 else 0)
  /\ 0 <= CPU.A (snd (CPU.adc v c)) < 256
  /\ fst (CPU.getFlag CPU.FLAG_Z (snd (CPU.adc v c)))
     = (CPU.A (snd (CPU.adc v c)) =? 0)
  /\ fst (CPU.getFlag CPU.FLAG_N (snd (CPU.adc v c)))
     = (128 <=? CPU.A (snd (CPU.adc v c)))
  /\ fst (CPU.getFlag CPU.FLAG_V (snd (CPU.adc v c)))
     = ((WF.signed (CPU.A c) + WF.signed v
         + (if fst (CPU.getFlag CPU.FLAG_C c) then 1 else 0) <? -128)
        || (127 <? WF.signed (CPU.A c) + WF.signed v
                   + (if fst (CPU.getFlag CPU.FLAG_C c) then 1 else 0)))
  /\ 0 <= CPU.status (snd (CPU.adc v c)) < 256
  /\ snd (CPU.adc v c)
     = CPU.set_A (CPU.A (snd (CPU.adc v c)))
         (CPU.set_status (CPU.status (snd (CPU.adc v c))) c).
Proof.
  intros Ha Hv Hs.
  destruct (adc_result v c Ha Hv Hs) as (HA & HC & HZ & HN & HV & Hb).
  set (cin := if fst (CPU.getFlag CPU.FLAG_C c) then 1 else 0) in *.
  assert (Hcin : 0 <= cin <= 1) by (unfold cin; destruct (fst _); lia).
  pose proof (Z.mod_pos_bound (CPU.A c + v + cin) 256 ltac:(lia)) as Hm.
  pose proof (Z.div_mod (CPU.A c + v + cin) 256 ltac:(lia)) as Hdm.
  split; [|split; [|split; [|split; [|split; [|split]]]]];
    try assumption.
  - rewrite HC, HA.
    destruct (Z.ltb_spec 255 (CPU.A c + v + cin)) as [Hov|Hno]; lia.
  - rewrite HA. exact Hm.
  - rewrite adc_unfold. reflexivity.
Qed.

(** X21.  [sbc] is the 8-bit subtraction with borrow, the carry being the
    inverted borrow: on bytes, [A - value - (1 - carry)] equals the new
    accumulator minus 256 when the new carry is clear (a borrow), and the
    new accumulator itself when it is set. *)
Theorem sbc_subtracts v c :
  0 <= CPU.A c < 256 -> 0 <= v < 256 -> 0 <= CPU.status c < 256 ->
  CPU.A c - v - (1 - (if fst (CPU.getFlag CPU.FLAG_C c) then 1 else 0))
  = CPU.A (snd (CPU.sbc v c))
    - 256 * (1 - (if fst (CPU.getFlag CPU.FLAG_C (snd (CPU.sbc v c)))
                  then 1 else 0))
  /\ 0 <= CPU.A (snd (CPU.sbc v c)) < 256
  /\ fst (CPU.getFlag CPU.FLAG_Z (snd (CPU.sbc v c)))
     = (CPU.A (snd (CPU.sbc v c)) =? 0)
  /\ fst (CPU.getFlag CPU.FLAG_N (snd (CPU.sbc v c)))
     = (128 <=? CPU.A (snd (CPU.sbc v c))).
Proof.
  intros Ha Hv Hs. unfold CPU.sbc.
  destruct (overflow_bits (CPU.A c) v false Ha Hv) as [_ Hnot].
  rewrite Hnot.
  destruct (adc_result (255 - v) c Ha ltac:(lia) Hs)
    as (HA & HC & HZ & HN & _ & _).
  set (cin := if fst (CPU.getFlag CPU.FLAG_C c) then 1 else 0) in *.
  assert (Hcin : 0 <= cin <= 1) by (unfold cin; destruct (fst _); lia).
  pose proof (Z.mod_pos_bound (CPU.A c + (255 - v) + cin) 256 ltac:(lia)) as Hm.
  pose proof (Z.div_mod (CPU.A c + (255 - v) + cin) 256 ltac:(lia)) as Hdm.
  split; [|split; [|split]]; try assumption.
  - rewrite HC, HA.
    destruct (Z.ltb_spec 255 (CPU.A c + (255 - v) + cin)) as [Hov|Hno]; lia.
  - rewrite HA. exact Hm.
Qed.

End Core.

End CPUFlags.

(** ** The stack and the interrupts (cpu.js) *)
Module CPUStack.
Import JSFacts.

Section Core.
Context {Cart Apu : Type} `{Cartridge Cart} `{ApuRegisters Apu}.
Implicit Types c : CPU.t Cart Apu.

Lemma bind_unfold {R S : Type} (m : CPU.M R) (k : R -> CPU.M S) c :
  CPU.bind m k c = k (fst (m c)) (snd (m c)).
Proof. unfold CPU.bind. now destruct (m c). Qed.

Lemma push_unfold v c :
  CPU.push v c
  = (tt, CPU.set_memory (Memory.write (CPU.memory c) (0x0100 + CPU.SP c) v)
           (CPU.set_SP (CPU.SP c - 1) c)).
Proof. reflexivity. Qed.

Lemma pull_unfold c :
  CPU.pull c
  = (fst (Memory.read (CPU.memory c) (0x0100 + (CPU.SP c + 1))),
     CPU.set_memory (snd (Memory.read (CPU.memory c) (0x0100 + (CPU.SP c + 1))))
       (CPU.set_SP (CPU.SP c + 1) c)).
Proof.
  cbv beta iota zeta delta
    [CPU.pull CPU.read CPU.modify CPU.gets CPU.bind CPU.M_bind mbind].
  cbn [CPU.memory CPU.set_SP].
  now destruct (Memory.read (CPU.memory c) (256 + (CPU.SP c + 1))).
Qed.

(** X22.  With SP in 0x00-0xFF, [push] followed by [pull] returns the
    value pushed, reduced to a byte, and leaves SP and every register as
    they were; the value stays in the stack page at [0x0100 + SP]. *)
Theorem push_pull c v :
  length (Memory.ram (CPU.memory c)) = Z.to_nat 0x0800 ->
  0 <= CPU.SP c <= 0xFF ->
  CPU.bind (CPU.push v) (fun _ => CPU.pull) c
  = (v mod 256,
     CPU.set_memory (Memory.write (CPU.memory c) (0x0100 + CPU.SP c) v) c).
Proof.
  intros Hlen Hsp. unfold CPU.bind. rewrite push_unfold, pull_unfold.
  cbn [CPU.memory CPU.SP CPU.set_memory CPU.set_SP].
  replace (CPU.SP c - 1 + 1) with (CPU.SP c) by lia.
  rewrite MemoryExtra.write_ram, BusFacts.read_ram by lia.
  cbn [fst snd Memory.ram Memory.set_ram].
  rewrite MemoryExtra.get_store_eq, MemoryExtra.band_FF.
  - rewrite Z.mod_mod by lia. now destruct c.
  - rewrite Hlen. pose proof (Z.mod_pos_bound (256 + CPU.SP c) 0x0800). lia.
Qed.

Lemma shr_8 w : 0 <= w < 65536 -> JS.band (JS.shr w 8) 0xFF = w / 256.
Proof.
  intros Hw. unfold JS.shr. rewrite toInt32_small by lia.
  change (8 mod 32) with 8. rewrite Z.shiftr_div_pow2 by lia.
  change (2 ^ 8) with 256. apply band_FF_byte.
  split; [apply Z.div_pos; lia | apply Z.div_lt_upper_bound; lia].
Qed.

Lemma pushWord_unfold w c :
  CPU.pushWord w c
  = (tt,
     CPU.set_memory
       (Memory.write
          (Memory.write (CPU.memory c) (0x0100 + CPU.SP c)
             (JS.band (JS.shr w 8) 0xFF))
          (0x0100 + (CPU.SP c - 1)) (JS.band w 0xFF))
       (CPU.set_SP (CPU.SP c - 1 - 1) c)).
Proof. reflexivity. Qed.

Lemma pullWord_unfold c :
  CPU.pullWord c
  = (JS.bor
       (JS.shl (fst (CPU.pull (snd (CPU.pull c)))) 8) (fst (CPU.pull c)),
     snd (CPU.pull (snd (CPU.pull c)))).
Proof.
  cbv beta iota zeta delta [CPU.pullWord CPU.bind CPU.M_bind mbind].
  destruct (CPU.pull c) as [low c1]. cbn [fst snd].
  now destruct (CPU.pull c1) as [high c2].
Qed.

(** The RAM after the two stores of [pushWord], and what the two cells read
    as: the stack grows down from [0x0100 + SP], and nothing wraps SP. *)
Lemma word_on_stack (ram : list Z) sp w :
  length ram = Z.to_nat 0x0800 ->
  -0xFF <= sp <= 0xFF -> 0 <= w < 65536 ->
  let ram' :=
    JS.store (JS.store ram ((0x0100 + sp) mod 0x0800) (w / 256))
      ((0x0100 + (sp - 1)) mod 0x0800) (w mod 256) in
  JS.get ram' ((0x0100 + (sp - 1)) mod 0x0800) = w mod 256
  /\ JS.get ram' ((0x0100 + sp) mod 0x0800) = w / 256.
Proof.
  intros Hlen Hsp Hw ram'. subst ram'.
  rewrite !Z.mod_small by lia.
  assert (0 <= w / 256 < 256)
    by (split; [apply Z.div_pos; lia | apply Z.div_lt_upper_bound; lia]).
  split.
  - rewrite MemoryExtra.get_store_eq.
    + apply Z.mod_mod. lia.
    + rewrite MemoryExtra.length_store, Hlen. lia.
  - rewrite MemoryExtra.get_store_ne by lia.
    rewrite MemoryExtra.get_store_eq by (rewrite Hlen; lia).
    apply Z.mod_small. lia.
Qed.

(** X23.  [pushWord] followed by [pullWord] returns the 16-bit word pushed
    and restores SP: the high byte goes to [0x0100 + SP] and the low byte
    to the cell below it.  SP is never wrapped to 8 bits: with SP = 0 it
    becomes -2, and the low byte goes to 0x00FF, in the zero page. *)
Theorem pushWord_pullWord c w :
  length (Memory.ram (CPU.memory c)) = Z.to_nat 0x0800 ->
  -0xFF <= CPU.SP c <= 0xFF ->
  0 <= w < 65536 ->
  CPU.bind (CPU.pushWord w) (fun _ => CPU.pullWord) c
  = (w,
     CPU.set_memory
       (Memory.write
          (Memory.write (CPU.memory c) (0x0100 + CPU.SP c) (w / 256))
          (0x0100 + CPU.SP c - 1) w) c).
Proof.
  intros Hlen Hsp Hw. unfold CPU.bind.
  rewrite pushWord_unfold, pullWord_unfold, !pull_unfold.
  cbn [fst snd CPU.memory CPU.SP CPU.set_memory CPU.set_SP].
  replace (CPU.SP c - 1 - 1 + 1) with (CPU.SP c - 1) by lia.
  replace (CPU.SP c - 1 + 1) with (CPU.SP c) by lia.
  replace (256 + CPU.SP c - 1) with (256 + (CPU.SP c - 1)) by lia.
  rewrite shr_8 by lia.
  rewrite !MemoryExtra.write_ram by (cbn [Memory.ram Memory.set_ram]; lia).
  rewrite !BusFacts.read_ram by lia.
  cbn [fst snd Memory.ram Memory.set_ram].
  rewrite !MemoryExtra.band_FF.
  assert (Hhi : 0 <= w / 256 < 256)
    by (split; [apply Z.div_pos; lia | apply Z.div_lt_upper_bound; lia]).
  rewrite (Z.mod_small (w / 256) 256) by lia.
  destruct (word_on_stack (Memory.ram (CPU.memory c)) (CPU.SP c) w Hlen Hsp Hw)
    as [Hlo Hh].
  rewrite !(Z.mod_mod w 256) by lia. rewrite Hlo, Hh.
  rewrite word_of_bytes by (try apply Z.mod_pos_bound; lia).
  f_equal. pose proof (Z.div_mod w 256). lia.
Qed.

Lemma readWord_unfold addr c :
  CPU.readWord addr c
  = (JS.bor
       (JS.shl
          (fst (Memory.read (snd (Memory.read (CPU.memory c) addr)) (addr + 1)))
          8)
       (fst (Memory.read (CPU.memory c) addr)),
     CPU.set_memory
       (snd (Memory.read (snd (Memory.read (CPU.memory c) addr)) (addr + 1)))
       c).
Proof.
  cbv beta iota zeta delta
    [CPU.readWord CPU.read CPU.bind CPU.M_bind CPU.M_ret CPU.ret mbind mret].
  destruct (Memory.read (CPU.memory c) addr) as [low m1].
  cbn [fst snd CPU.memory CPU.set_memory].
  destruct (Memory.read m1 (addr + 1)) as [high m2].
  cbn [fst snd]. now destruct c.
Qed.

Lemma nmi_unfold c :
  CPU.nmi c
  = (tt,
     CPU.set_PC
       (fst (CPU.readWord 0xFFFA
               (CPU.set_status (JS.bor (CPU.status c) CPU.FLAG_I)
                  (snd (CPU.push (CPU.status c)
                          (snd (CPU.pushWord (CPU.PC c) c)))))))
       (snd (CPU.readWord 0xFFFA
               (CPU.set_status (JS.bor (CPU.status c) CPU.FLAG_I)
                  (snd (CPU.push (CPU.status c)
                          (snd (CPU.pushWord (CPU.PC c) c)))))))).
Proof.
  unfold CPU.nmi, mbind, CPU.M_bind. rewrite !bind_unfold. reflexivity.
Qed.

(** Setting bit 2 makes the test of bit 2 succeed, on any status. *)
Lemma interrupt_flag_set s :
  negb (JS.band (JS.bor s CPU.FLAG_I) CPU.FLAG_I =? 0) = true.
Proof.
  change CPU.FLAG_I with 4. rewrite band_mask by lia.
  unfold JS.bor. change (JS.toInt32 4) with 4.
  apply negb_true_iff, Z.eqb_neq. intros Hz.
  assert (Hbit : Z.testbit (Z.land (Z.lor (JS.toInt32 s) 4) 4) 2 = true).
  { rewrite Z.land_spec, Z.lor_spec. change (Z.testbit 4 2) with true.
    now rewrite orb_true_r. }
  rewrite Hz in Hbit. discriminate.
Qed.

(** X24.  [nmi] loads PC from the vector at 0xFFFA and 0xFFFB in the
    cartridge, sets the I flag and lowers SP by 3, leaving A, X and Y; what
    it pushed is found again: a [pull] and then a [pullWord] return the
    status and the program counter of the interrupted program. *)
Theorem nmi_saves_context c :
  length (Memory.ram (CPU.memory c)) = Z.to_nat 0x0800 ->
  2 <= CPU.SP c <= 0xFF ->
  0 <= CPU.PC c < 65536 ->
  0 <= CPU.status c < 256 ->
  CPU.PC (snd (CPU.nmi c))
  = JS.bor
      (JS.shl
         (fst (cpuRead
                 (snd (cpuRead (Memory.cartridge (CPU.memory c)) 0xFFFA))
                 0xFFFB)) 8)
      (fst (cpuRead (Memory.cartridge (CPU.memory c)) 0xFFFA))
  /\ CPU.SP (snd (CPU.nmi c)) = CPU.SP c - 3
  /\ CPU.status (snd (CPU.nmi c)) = JS.bor (CPU.status c) CPU.FLAG_I
  /\ fst (CPU.getFlag CPU.FLAG_I (snd (CPU.nmi c))) = true
  /\ CPU.A (snd (CPU.nmi c)) = CPU.A c
  /\ CPU.X (snd (CPU.nmi c)) = CPU.X c
  /\ CPU.Y (snd (CPU.nmi c)) = CPU.Y c
  /\ fst (CPU.bind CPU.pull
            (fun st => CPU.bind CPU.pullWord (fun pc => CPU.ret (st, pc)))
            (snd (CPU.nmi c)))
     = (CPU.status c, CPU.PC c).
Proof.
  intros Hlen Hsp Hpc Hst.
  rewrite nmi_unfold, readWord_unfold, push_unfold, pushWord_unfold.
  cbn [fst snd CPU.memory CPU.SP CPU.PC CPU.status CPU.A CPU.X CPU.Y
       CPU.set_memory CPU.set_SP CPU.set_PC CPU.set_status].
  rewrite shr_8 by lia.
  rewrite !MemoryExtra.write_ram by lia.
  change (0xFFFA + 1) with 0xFFFB.
  rewrite !CPUFacts.read_cartridge by lia.
  cbn [fst snd Memory.cartridge Memory.set_ram Memory.set_cartridge Memory.ram].
  split; [reflexivity|]. split; [lia|]. split; [reflexivity|].
  split; [apply interrupt_flag_set|].
  do 3 (split; [reflexivity|]).
  rewrite bind_unfold. cbv beta. rewrite bind_unfold. cbv beta.
  rewrite pullWord_unfold, !pull_unfold. unfold CPU.ret.
  cbn [fst snd CPU.memory CPU.SP CPU.set_memory CPU.set_SP CPU.set_PC
       CPU.set_status].
  rewrite !BusFacts.read_ram by lia.
  cbn [fst snd Memory.ram Memory.set_ram Memory.set_cartridge].
  assert (Hhi : 0 <= CPU.PC c / 256 < 256)
    by (split; [apply Z.div_pos; lia | apply Z.div_lt_upper_bound; lia]).
  pose proof (Z.mod_pos_bound (CPU.PC c) 256 ltac:(lia)) as Hlo.
  rewrite (band_FF_byte (CPU.PC c / 256)), (band_FF_byte (CPU.status c)) by lia.
  rewrite (MemoryExtra.band_FF (CPU.PC c)), band_FF_byte by lia.
  replace ((256 + (CPU.SP c - 1 - 1 - 1 + 1 + 1 + 1)) mod 2048)
    with (256 + CPU.SP c) by (rewrite Z.mod_small; lia).
  replace ((256 + (CPU.SP c - 1 - 1 - 1 + 1 + 1)) mod 2048)
    with (255 + CPU.SP c) by (rewrite Z.mod_small; lia).
  replace ((256 + (CPU.SP c - 1 - 1 - 1 + 1)) mod 2048)
    with (254 + CPU.SP c) by (rewrite Z.mod_small; lia).
  replace ((256 + (CPU.SP c - 1 - 1)) mod 2048)
    with (254 + CPU.SP c) by (rewrite Z.mod_small; lia).
  replace ((256 + (CPU.SP c - 1)) mod 2048)
    with (255 + CPU.SP c) by (rewrite Z.mod_small; lia).
  replace ((256 + CPU.SP c) mod 2048)
    with (256 + CPU.SP c) by (rewrite Z.mod_small; lia).
  rewrite (MemoryExtra.get_store_eq _ (254 + CPU.SP c))
    by (rewrite !MemoryExtra.length_store, Hlen; lia).
  rewrite (MemoryExtra.get_store_ne _ (254 + CPU.SP c) (255 + CPU.SP c))
    by lia.
  rewrite (MemoryExtra.get_store_eq _ (255 + CPU.SP c))
    by (rewrite !MemoryExtra.length_store, Hlen; lia).
  rewrite (MemoryExtra.get_store_ne _ (254 + CPU.SP c) (256 + CPU.SP c))
    by lia.
  rewrite (MemoryExtra.get_store_ne _ (255 + CPU.SP c) (256 + CPU.SP c))
    by lia.
  rewrite (MemoryExtra.get_store_eq _ (256 + CPU.SP c))
    by (rewrite Hlen; lia).
  rewrite Z.mod_mod by lia.
  rewrite (Z.mod_small (CPU.status c)), (Z.mod_small (CPU.PC c / 256)) by lia.
  rewrite word_of_bytes by lia.
  f_equal. pose proof (Z.div_mod (CPU.PC c) 256). lia.
Qed.

Lemma irq_unfold c :
  CPU.irq c
  = if negb (JS.band (CPU.status c) CPU.FLAG_I =? 0) then (tt, c)
    else
      (tt,
       CPU.set_PC
         (fst (CPU.readWord 0xFFFE
                 (CPU.set_status (JS.bor (CPU.status c) CPU.FLAG_I)
                    (snd (CPU.push (CPU.status c)
                            (snd (CPU.pushWord (CPU.PC c) c)))))))
         (snd (CPU.readWord 0xFFFE
                 (CPU.set_status (JS.bor (CPU.status c) CPU.FLAG_I)
                    (snd (CPU.push (CPU.status c)
                            (snd (CPU.pushWord (CPU.PC c) c)))))))).
Proof.
  unfold CPU.irq, mbind, CPU.M_bind. rewrite bind_unfold.
  change (fst (CPU.getFlag CPU.FLAG_I c))
    with (negb (JS.band (CPU.status c) CPU.FLAG_I =? 0)).
  destruct (negb (JS.band (CPU.status c) CPU.FLAG_I =? 0)); cbn [negb].
  - reflexivity.
  - rewrite !bind_unfold. reflexivity.
Qed.

Lemma irq_sets_flag c : fst (CPU.getFlag CPU.FLAG_I (snd (CPU.irq c))) = true.
Proof.
  rewrite irq_unfold. unfold CPU.getFlag, CPU.gets. cbn [fst].
  destruct (negb (JS.band (CPU.status c) CPU.FLAG_I =? 0)) eqn:Hi;
    cbn [snd]; [exact Hi|].
  rewrite readWord_unfold.
  cbn [snd CPU.status CPU.set_PC CPU.set_memory CPU.set_status].
  apply interrupt_flag_set.
Qed.

(** X25.  [irq] does nothing when the I flag is set; whenever it returns
    the I flag is set, so a second [irq] in a row does nothing. *)
Theorem irq_masked c :
  (fst (CPU.getFlag CPU.FLAG_I c) = true -> CPU.irq c = (tt, c))
  /\ fst (CPU.getFlag CPU.FLAG_I (snd (CPU.irq c))) = true
  /\ CPU.irq (snd (CPU.irq c)) = (tt, snd (CPU.irq c)).
Proof.
  assert (Hmask : forall c0 : CPU.t Cart Apu,
             fst (CPU.getFlag CPU.FLAG_I c0) = true -> CPU.irq c0 = (tt, c0)).
  { intros c0 Hi. rewrite irq_unfold.
    unfold CPU.getFlag, CPU.gets in Hi. cbn [fst] in Hi. now rewrite Hi. }
  split; [apply Hmask|]. split; [apply irq_sets_flag|].
  apply Hmask, irq_sets_flag.
Qed.

(** X26.  An instruction of the second [execute] takes between 2 and 7
    cycles, and the count depends on the opcode alone, not on the operands
    or on the state of the CPU. *)
Theorem step2_cycles c :
  2 <= fst (CPU.step2 c) <= 7
  /\ forall opcode (c1 c2 : CPU.t Cart Apu),
       fst (CPU.execute2 opcode c1) = fst (CPU.execute2 opcode c2).
Proof.
  assert (Hcases : forall opcode (c0 : CPU.t Cart Apu),
             fst (CPU.execute2 opcode c0)
             = if opcode =? 0xA9 then 2 else if opcode =? 0x85 then 3
               else if opcode =? 0x8D then 4 else if opcode =? 0x4C then 3
               else if opcode =? 0x00 then 7 else if opcode =? 0x69 then 2
               else if opcode =? 0xE9 then 2 else if opcode =? 0x48 then 3
               else if opcode =? 0x68 then 4 else 2).
  { intros opcode c0. unfold CPU.execute2.
    repeat match goal with
           | |- context [Z.eqb opcode ?k] => destruct (Z.eqb opcode k)
           end;
      unfold mbind, CPU.M_bind; repeat (apply CPUFacts.fst_bind; intros);
      reflexivity. }
  split.
  - rewrite CPUFacts.step2_unfold, Hcases.
    repeat match goal with
           | |- context [if ?b then _ else _] => destruct b
           end; lia.
  - intros opcode c1 c2. now rewrite !Hcases.
Qed.

End Core.
End CPUStack.

(** ** The APU's status register and frame sequencer (apu.js) *)
Module APUExtra.
Import JSFacts Checks.

Lemma enable_checked : forallb enable_ok (seqZ 0 256) = true.
Proof. vm_compute. reflexivity. Qed.

Lemma setEnabled_enabled d on :
  DMCChannel.enabled (DMCChannel.setEnabled d on) = on.
Proof.
  unfold DMCChannel.setEnabled.
  destruct (DMCChannel.enabled (DMCChannel.set_enabled d on)
            && (DMCChannel.currentLength (DMCChannel.set_enabled d on) =? 0));
    reflexivity.
Qed.

Lemma status_of_enable a w :
  0 <= w < 256 ->
  fst (APU.read (APU.write a 0x4015 w) 0x4015) = w mod 32.
Proof.
  intros Hw.
  pose proof (Enum.forallb_range _ _ _ enable_checked w ltac:(lia)) as Hok.
  unfold enable_ok in Hok. apply Z.eqb_eq in Hok.
  change (APU.write a 0x4015 w) with (APU.setChannelEnable a w).
  unfold APU.read. cbn [Z.eqb Pos.eqb fst].
  unfold APU.setChannelEnable.
  cbn [APU.pulse1 APU.pulse2 APU.triangle APU.noise APU.dmc].
  rewrite setEnabled_enabled. exact Hok.
Qed.

Section Bus.
Context {C : Type} `{Cartridge C}.
Implicit Types m : Memory.t C APU.t.

Lemma write_apu m addr v :
  0x4000 <= addr < 0x4016 ->
  Memory.write m addr v
  = Memory.set_apu m (APU.write (Memory.apu m) addr (JS.band v 0xFF)).
Proof.
  intros Ha. cbv beta zeta delta [Memory.write].
  rewrite band_FFFF_small by lia.
  destruct (Z.ltb_spec addr 0x2000); [lia|].
  destruct (Z.ltb_spec addr 0x4000); [lia|].
  destruct (Z.leb_spec 0x4000 addr); [|lia].
  destruct (Z.ltb_spec addr 0x4020); [|lia].
  destruct (Z.eqb_spec addr 0x4016); [lia|].
  destruct (Z.eqb_spec addr 0x4017); [lia|].
  reflexivity.
Qed.

Lemma read_apu m addr :
  0x4000 <= addr < 0x4016 ->
  Memory.read m addr
  = (fst (APU.read (Memory.apu m) addr),
     Memory.set_apu m (snd (APU.read (Memory.apu m) addr))).
Proof.
  intros Ha. cbv beta zeta delta [Memory.read].
  rewrite band_FFFF_small by lia.
  destruct (Z.ltb_spec addr 0x2000); [lia|].
  destruct (Z.ltb_spec addr 0x4000); [lia|].
  destruct (Z.eqb_spec addr 0x4016); [lia|].
  destruct (Z.eqb_spec addr 0x4017); [lia|].
  destruct (Z.leb_spec 0x4000 addr); [|lia].
  destruct (Z.ltb_spec addr 0x4020); [|lia].
  cbn [orb andb].
  change (readRegister (Memory.apu m) addr) with (APU.read (Memory.apu m) addr).
  now destruct (APU.read (Memory.apu m) addr).
Qed.

(** X27.  A bus write of [v] to 0x4015 followed by a bus read of 0x4015
    returns the five enable bits just written, [v mod 32]; the read clears
    the frame IRQ flag and the RAM is untouched. *)
Theorem status_round_trip m v :
  fst (Memory.read (Memory.write m 0x4015 v) 0x4015) = v mod 32
  /\ APU.frameIRQ
       (Memory.apu (snd (Memory.read (Memory.write m 0x4015 v) 0x4015)))
     = false
  /\ Memory.ram (snd (Memory.read (Memory.write m 0x4015 v) 0x4015))
     = Memory.ram m.
Proof.
  rewrite write_apu, read_apu by lia.
  cbn [fst snd Memory.apu Memory.set_apu Memory.ram].
  split; [|split; reflexivity].
  rewrite MemoryExtra.band_FF, status_of_enable by (apply Z.mod_pos_bound; lia).
  change 256 with (32 * 8). rewrite Z.rem_mul_r by lia.
  rewrite (Z.mul_comm 32 ((v / 32) mod 8)), Z.mod_add by lia.
  apply Z.mod_mod. lia.
Qed.

End Bus.

Section Sequencer.
Context {Mem : Type} `{BusRead Mem}.

Lemma step_counters (a : APU.t) (m : Mem) :
  APU.cycles (fst (APU.step a m)) = APU.cycles a + 1
  /\ APU.frameCounterMode (fst (APU.step a m)) = APU.frameCounterMode a
  /\ APU.frameStep (fst (APU.step a m))
     = (if JS.rem (APU.cycles a + 1) 7457 =? 0
        then if APU.frameCounterMode a =? 0
             then JS.rem (APU.frameStep a + 1) 4
             else JS.rem (APU.frameStep a + 1) 5
        else APU.frameStep a)
  /\ APU.frameIRQ (fst (APU.step a m))
     = (if (JS.rem (APU.cycles a + 1) 7457 =? 0)
           && (APU.frameCounterMode a =? 0)
           && (JS.rem (APU.frameStep a + 1) 4 =? 3)
        then true else APU.frameIRQ a).
Proof.
  unfold APU.step, APU.stepFrameCounter.
  cbn [APU.cycles APU.set_cycles APU.frameCounterMode APU.frameStep].
  destruct (JS.rem (APU.cycles a + 1) 7457 =? 0);
    [destruct (APU.frameCounterMode a =? 0) eqn:Hmode;
     cbn [APU.frameStep APU.set_frameStep];
     [destruct (JS.rem (APU.frameStep a + 1) 4 =? 3)|]|];
    match goal with
    | |- context [DMCChannel.step ?d m] => destruct (DMCChannel.step d m)
    end; cbn; rewrite ?Hmode; repeat split; reflexivity.
Qed.

Lemma steps_sequencer n : forall (a : APU.t) (m : Mem) k,
  APU.cycles a = k -> 0 <= k ->
  APU.frameCounterMode a = 0 ->
  APU.frameStep a = (k / 7457) mod 4 ->
  APU.frameIRQ a = (22371 <=? k) ->
  APU.cycles (fst (APU.steps n a m)) = k + Z.of_nat n
  /\ APU.frameStep (fst (APU.steps n a m)) = ((k + Z.of_nat n) / 7457) mod 4
  /\ APU.frameIRQ (fst (APU.steps n a m)) = (22371 <=? k + Z.of_nat n).
Proof.
  induction n as [|n IH]; intros a m k Hc Hk Hmode Hstep Hirq.
  - cbn [APU.steps fst]. rewrite Z.add_0_r. auto.
  - cbn [APU.steps].
    pose proof (step_counters a m) as (Hc1 & Hm1 & Hs1 & Hi1).
    destruct (APU.step a m) as [a1 m1]. cbn [fst] in Hc1, Hm1, Hs1, Hi1.
    replace (k + Z.of_nat (S n)) with ((k + 1) + Z.of_nat n) by lia.
    apply IH; try lia; try congruence.
    + rewrite Hs1, Hc, Hmode, Hstep. cbn [Z.eqb].
      rewrite !rem_nonneg
        by (try lia; pose proof (Z.mod_pos_bound (k / 7457) 4); lia).
      destruct (Z.eqb_spec ((k + 1) mod 7457) 0) as [Hz|Hnz].
      * assert ((k + 1) / 7457 = k / 7457 + 1) as -> by
          (pose proof (Z.div_mod k 7457);
           pose proof (Z.div_mod (k + 1) 7457);
           pose proof (Z.mod_pos_bound k 7457);
           nia).
        now rewrite Zplus_mod_idemp_l.
      * assert ((k + 1) / 7457 = k / 7457) as -> by
          (pose proof (Z.div_mod k 7457);
           pose proof (Z.div_mod (k + 1) 7457);
           pose proof (Z.mod_pos_bound k 7457);
           pose proof (Z.mod_pos_bound (k + 1) 7457);
           nia).
        reflexivity.
    + rewrite Hi1, Hc, Hmode, Hstep, Hirq. cbn [Z.eqb andb].
      rewrite !rem_nonneg
        by (try lia; pose proof (Z.mod_pos_bound (k / 7457) 4); lia).
      rewrite Zplus_mod_idemp_l.
      pose proof (Z.div_mod k 7457 ltac:(lia)).
      pose proof (Z.mod_pos_bound k 7457 ltac:(lia)).
      pose proof (Z.div_mod (k / 7457 + 1) 4 ltac:(lia)).
      pose proof (Z.mod_pos_bound (k / 7457 + 1) 4 ltac:(lia)).
      assert (0 <= k / 7457) by (apply Z.div_pos; lia).
      destruct (Z.eqb_spec ((k + 1) mod 7457) 0) as [Hz|Hnz]; cbn [andb].
      * pose proof (Z.div_mod (k + 1) 7457 ltac:(lia)).
        destruct (Z.eqb_spec ((k / 7457 + 1) mod 4) 3) as [Hq3|Hqn3].
        -- destruct (Z.leb_spec 22371 (k + 1)); [reflexivity|]. nia.
        -- destruct (Z.leb_spec 22371 k), (Z.leb_spec 22371 (k + 1));
             first [reflexivity | lia | nia].
      * destruct (Z.leb_spec 22371 k), (Z.leb_spec 22371 (k + 1));
          try reflexivity; try lia.
        exfalso. apply Hnz. assert (k + 1 = 22371) as -> by lia. reflexivity.
Qed.

(** X28.  From an APU at cycle 0 and step 0 of the 4-step sequence with no
    frame IRQ pending, after [n] calls of [step] the cycle counter is [n],
    the sequencer is at step [(n / 7457) mod 4], and the frame IRQ flag is
    set exactly when [n] has reached 3 * 7457 = 22371. *)
Theorem frame_irq_timing (a : APU.t) (m : Mem) (n : nat) :
  APU.cycles a = 0 -> APU.frameStep a = 0 ->
  APU.frameCounterMode a = 0 -> APU.frameIRQ a = false ->
  APU.cycles (fst (APU.steps n a m)) = Z.of_nat n
  /\ APU.frameStep (fst (APU.steps n a m)) = (Z.of_nat n / 7457) mod 4
  /\ APU.frameIRQ (fst (APU.steps n a m)) = (3 * 7457 <=? Z.of_nat n).
Proof.
  intros Hc Hs Hmode Hirq.
  apply (steps_sequencer n a m 0); try assumption; try lia.
Qed.

End Sequencer.

End APUExtra.

(** ** The sample window of the DMC (apu.js) *)
Module DMCExtra.
Import JSFacts DMCChannel.

Lemma write_window d addr value :
  WF.byte value -> WF.dmc d -> WF.dmc (write d addr value).
Proof.
  unfold WF.byte, WF.dmc. intros Hv (Hcl & Hsl & Hsa & Hca). unfold write.
  destruct (addr =? 0x4010); [cbn; auto|].
  destruct (addr =? 0x4011); [cbn; auto|].
  destruct (addr =? 0x4012); [cbn; repeat split; auto; lia|].
  destruct (addr =? 0x4013); [cbn; repeat split; auto; lia|].
  auto.
Qed.

Lemma setEnabled_window d on : WF.dmc d -> WF.dmc (setEnabled d on).
Proof.
  unfold WF.dmc. intros (Hcl & Hsl & Hsa & Hca). unfold setEnabled.
  destruct (enabled (set_enabled d on)
            && (currentLength (set_enabled d on) =? 0));
    cbn; repeat split; auto; lia.
Qed.

Lemma shiftBit_window d : WF.dmc d -> WF.dmc (shiftBit d).
Proof.
  unfold WF.dmc. intros Hd. unfold shiftBit.
  destruct (0 <? bitsRemaining d); [|exact Hd].
  destruct (JS.truthy (JS.band (shiftRegister d) 1));
    [destruct (outputLevel d <=? 125) | destruct (2 <=? outputLevel d)];
    exact Hd.
Qed.

Section Bus.
Context {C A : Type} `{Cartridge C} `{ApuRegisters A}.
Implicit Types m : Memory.t C A.

Lemma fetchSample_window d m :
  WF.dmc d ->
  WF.dmc (fst (fetchSample d m))
  /\ (Memory.ram (snd (fetchSample d m)), Memory.ppu (snd (fetchSample d m)), Memory.apu (snd (fetchSample d m)),
     Memory.controllers (snd (fetchSample d m)))
     = (Memory.ram m, Memory.ppu m, Memory.apu m,
     Memory.controllers m).
Proof.
  unfold WF.dmc. intros (Hcl & Hsl & Hsa & Hca). unfold fetchSample.
  destruct (Z.ltb_spec 0 (currentLength d)) as [Hpos|Hzero];
    [|cbn [fst snd]; auto].
  specialize (Hca Hpos).
  change (bus_read m (currentAddress d))
    with (Memory.read m (currentAddress d)).
  rewrite CPUFacts.read_cartridge by lia.
  cbn [fst snd]. split; [|reflexivity].
  destruct d as [en irq sa sl cl sr br be ol ie lp rt ca sb].
  cbn [currentLength sampleLength sampleAddress currentAddress] in *.
  cbn -[Z.ltb Z.eqb Z.add Z.sub].
  destruct (Z.ltb_spec 65535 (ca + 1)); cbn -[Z.ltb Z.eqb Z.add Z.sub];
    destruct (Z.eqb_spec (cl - 1) 0); try destruct lp; try destruct ie;
    cbn -[Z.ltb Z.eqb Z.add Z.sub]; repeat split; intros; lia.
Qed.

Lemma step_window d m :
  WF.dmc d ->
  WF.dmc (fst (step d m))
  /\ (Memory.ram (snd (step d m)), Memory.ppu (snd (step d m)), Memory.apu (snd (step d m)),
     Memory.controllers (snd (step d m)))
     = (Memory.ram m, Memory.ppu m, Memory.apu m,
     Memory.controllers m).
Proof.
  intros Hd. unfold step.
  destruct (enabled d); cbn [negb fst snd]; [|auto].
  destruct (bitsRemaining d =? 0); [|cbn [fst snd]; auto using shiftBit_window].
  destruct (bufferEmpty d) eqn:Hbe.
  - destruct (fetchSample_window d m Hd) as [Hd1 Hm1].
    destruct (fetchSample d m) as [d1 m1]. cbn [fst snd] in *.
    split; [|exact Hm1]. apply shiftBit_window.
    destruct (negb (bufferEmpty d1)); exact Hd1.
  - cbn [fst snd]. split; [|reflexivity]. apply shiftBit_window.
    rewrite Hbe. exact Hd.
Qed.

Lemma run_window ops : forall d m,
  WF.dmc d -> Forall WF.dmc_op ops ->
  WF.dmc (fst (run (d, m) ops))
  /\ (Memory.ram (snd (run (d, m) ops)), Memory.ppu (snd (run (d, m) ops)), Memory.apu (snd (run (d, m) ops)),
     Memory.controllers (snd (run (d, m) ops)))
     = (Memory.ram m, Memory.ppu m, Memory.apu m,
     Memory.controllers m).
Proof.
  induction ops as [|o ops IH]; intros d m Hd Hops; [cbn; auto|].
  inversion Hops as [|? ? Ho Hrest]; subst.
  cbn [run foldl]. destruct o as [addr value|on|]; cbn [run_op fst snd].
  - apply (IH _ m); [now apply write_window | assumption].
  - apply (IH _ m); [now apply setEnabled_window | assumption].
  - destruct (step_window d m Hd) as [Hd1 Hm1].
    destruct (step d m) as [d1 m1]. cbn [fst snd] in *.
    rewrite <- Hm1. now apply IH.
Qed.

(** X29.  From a channel whose sample window is well formed (the
    constructor's is), any sequence of byte writes to its registers, enables
    and clocks keeps it well formed: every byte the channel fetches is read
    from 0x8000-0xFFFF.  On the bus of memory.js such a read goes to the
    cartridge, so the RAM, the PPU, the APU registers and the controllers
    are as they were. *)
Theorem dmc_fetches_cartridge (d : DMCChannel.t) m (ops : list op) :
  WF.dmc d -> Forall WF.dmc_op ops ->
  WF.dmc (fst (run (d, m) ops))
  /\ Memory.ram (snd (run (d, m) ops)) = Memory.ram m
  /\ Memory.ppu (snd (run (d, m) ops)) = Memory.ppu m
  /\ Memory.apu (snd (run (d, m) ops)) = Memory.apu m
  /\ Memory.controllers (snd (run (d, m) ops)) = Memory.controllers m.
Proof.
  intros Hd Hops. destruct (run_window ops d m Hd Hops) as [Hwf Hrest].
  split; [exact Hwf|].
  repeat split; congruence.
Qed.

End Bus.

End DMCExtra.

(** ** Single-stepping the scheduler (emulator.js) *)
Module SchedulerExtra.
Import Emulator.

Section Scheduler.
Context {W : Type} `{Components W}.
Implicit Types e : Emulator.t W.

Hypothesis no_sink : forall w : W, presentFrame w = w.

Lemma ppu_loops_agree n : forall e pr fr,
  fst (fst (ppu_cycles n e pr fr)) = stepInstruction_ppu n e.
Proof.
  induction n as [|n IH]; intros e pr fr; [reflexivity|].
  cbn [ppu_cycles stepInstruction_ppu].
  destruct (ppu_step (world e)) as [newFrame w].
  destruct newFrame; rewrite IH; [|reflexivity].
  rewrite no_sink. f_equal.
Qed.

End Scheduler.

(** X30.  With no video sink to present a frame to, [stepInstruction] is
    one pass of the loop of [runFrame]: it leaves the emulator in the same
    state and returns the cycles that the pass adds to [cpuCyclesRun]; the
    frame counter is not advanced, even if the PPU completed a frame. *)
Theorem stepInstruction_is_loop_body {W : Type} `{Components W}
    (e : Emulator.t W) (cr pr fr : Z) :
  (forall w : W, presentFrame w = w) ->
  snd (stepInstruction e) = fst (fst (fst (runFrame_body e cr pr fr)))
  /\ cr + fst (stepInstruction e) = snd (fst (fst (runFrame_body e cr pr fr)))
  /\ _frameCounter (snd (stepInstruction e)) = _frameCounter e.
Proof.
  intros Hsink. unfold stepInstruction, runFrame_body.
  destruct (cpu_step (world e)) as [c w].
  pose proof (ppu_loops_agree Hsink
                (Z.to_nat (c * PPU_PER_CPU (region (set_world e w))))
                (set_world e w) pr fr) as Hloop.
  pose proof (EmulatorFacts.ppu_cycles_spec
                (Z.to_nat (c * PPU_PER_CPU (region (set_world e w))))
                (set_world e w) pr fr) as (_ & _ & _ & _ & Hk).
  destruct (ppu_cycles _ (set_world e w) pr fr) as [[e1 pr1] fr1].
  cbn [fst snd] in *. rewrite <- Hloop.
  repeat split. unfold _serviceIRQ. cbn [_frameCounter set_world]. exact Hk.
Qed.

End SchedulerExtra.

(** ** The properties above on a concrete console *)
Module ConsoleExtra.

Lemma blank_ram : Memory.ram blank_bus = replicate (Z.to_nat 0x0800) 0.
Proof. reflexivity. Qed.

Lemma blank_wf : WF.ram blank_bus.
Proof.
  split; rewrite blank_ram.
  - apply length_replicate.
  - apply Forall_replicate. unfold WF.byte. lia.
Qed.

Lemma ram_write_read_witness :
  fst (Memory.read (Memory.write blank_bus 0x0001 0x1FF) 0x0801) = 0x1FF mod 256.
Proof.
  apply MemoryExtra.ram_write_read;
    [rewrite blank_ram; apply length_replicate | lia | lia | reflexivity].
Defined.

Lemma ram_write_frame_witness :
  fst (Memory.read (Memory.write blank_bus 0x0001 7) 0x0002)
  = fst (Memory.read blank_bus 0x0002).
Proof.
  apply (MemoryExtra.ram_write_frame blank_bus 0x0001 0x0002 7);
    [lia | lia | ].
  change (0x0001 mod 0x0800) with 1. change (0x0002 mod 0x0800) with 2. lia.
Defined.

Lemma ram_stays_bytes_witness :
  0 <= fst (Memory.read
              (Memory.writes blank_bus [(0x0000, 0x1FF); (0x2000, 1)]) 0x0000)
    < 256.
Proof.
  apply (MemoryExtra.ram_stays_bytes blank_bus
           [(0x0000, 0x1FF); (0x2000, 1)] 0x0000 blank_wf).
  lia.
Defined.

Lemma strobe_high_reads_witness :
  fst (Memory.reads 3 (Memory.write blank_bus 0x4016 1) 0x4016)
  = replicate 3
      (JS.bor
         (Controller.pressed (Input.player1 (Memory.controllers blank_bus)) "A")
         0x40).
Proof.
  apply (ControllerExtra.strobe_high_reads blank_bus 1 3). reflexivity.
Defined.

Lemma nametable_mirroring_witness :
  0 <= PPU.mirrorAddress "vertical" 0x2C05 < 0x0800.
Proof.
  apply (PPUExtra.nametable_mirroring "vertical" 0x2C05). lia.
Defined.

Lemma attribute_granularity_witness :
  PPU.getAttributePalette fresh_ppu "horizontal" 2 4
  = PPU.getAttributePalette fresh_ppu "horizontal" 3 5.
Proof.
  apply (PPUExtra.attribute_granularity fresh_ppu "horizontal" 2 4 3 5);
    first [lia | reflexivity].
Defined.

Lemma drawPixel_bounds_witness :
  PPU.drawPixel (replicate (Z.to_nat (256 * 240 * 4)) 0) 256 0 [300; -5; 7]
  = replicate (Z.to_nat (256 * 240 * 4)) 0.
Proof.
  apply (PPUExtra.drawPixel_bounds (replicate (Z.to_nat (256 * 240 * 4)) 0)
           [300; -5; 7] 256 0 0);
    [apply length_replicate | lia | lia].
Defined.

Lemma fresh_ppu_position : WF.position fresh_ppu.
Proof. unfold WF.position, fresh_ppu. cbn [PPU.constructor PPU.cycle PPU.scanline]. lia. Qed.

Lemma fresh_ppu_vblank : WF.vblank fresh_ppu.
Proof. split; [unfold WF.byte; cbn; lia | reflexivity]. Qed.

Lemma frame_period_witness :
  PPU.dot (PPU.steps fresh_ppu [false; true; false])
  = (PPU.dot fresh_ppu + Z.of_nat (length [false; true; false])) mod (341 * 262).
Proof.
  apply (PPUTiming.frame_period fresh_ppu [false; true; false] fresh_ppu_position).
Defined.

Lemma vblank_follows_raster_witness :
  WF.vblank (PPU.steps fresh_ppu [false; true; false]).
Proof.
  apply (PPUTiming.vblank_follows_raster fresh_ppu [false; true; false]
           fresh_ppu_position fresh_ppu_vblank).
Defined.

Lemma address_latch_witness :
  PPU.vramAddr
    (PPU.writeRegister (PPU.writeRegister fresh_ppu 0x2006 0x21) 0x2006 0x08)
  = 0x08 + 256 * 0x21.
Proof.
  apply (PPURegs.address_latch fresh_ppu fresh_ppu 0x21 0x08); [reflexivity | lia | lia].
Defined.

Lemma data_write_witness :
  JS.get (PPU.vram (PPU.writeRegister fresh_ppu 0x2007 0x1FF))
    (JS.band (PPU.vramAddr fresh_ppu) 0x3FFF) = 0x1FF mod 256.
Proof.
  apply (PPURegs.data_write fresh_ppu 0x1FF 1);
    [apply length_replicate | lia | ].
  change (JS.band (PPU.vramAddr fresh_ppu) 0x3FFF) with 0. lia.
Defined.

Lemma oam_data_write_witness :
  PPU.oamAddr (PPU.writeRegister fresh_ppu 0x2004 9) = PPU.oamAddr fresh_ppu + 1.
Proof.
  apply (PPURegs.oam_data_write fresh_ppu 9). apply length_replicate.
Defined.

Lemma dma_from_empty_clears_witness :
  PPU.oam (PPU.performDMA fresh_ppu 2) = replicate 256 0.
Proof.
  apply (PPURegs.dma_from_empty_clears fresh_ppu 2);
    [apply length_replicate | reflexivity].
Defined.

Lemma fresh_cpu_status : 0 <= CPU.status fresh_cpu < 256.
Proof. change (CPU.status fresh_cpu) with 0x24. lia. Qed.

Lemma fresh_cpu_ram :
  length (Memory.ram (CPU.memory fresh_cpu)) = Z.to_nat 0x0800.
Proof.
  change (Memory.ram (CPU.memory fresh_cpu)) with (replicate (Z.to_nat 0x0800) 0).
  apply length_replicate.
Qed.

Lemma flag_set_get_witness :
  fst (CPU.getFlag (JS.shl 1 0) (snd (CPU.setFlag (JS.shl 1 0) true fresh_cpu)))
  = true.
Proof.
  apply (CPUFlags.flag_set_get fresh_cpu 0 7 true fresh_cpu_status); lia.
Defined.

Lemma loaded_status : 0 <= CPU.status loaded_cpu < 256.
Proof. change (CPU.status loaded_cpu) with 0x24. lia. Qed.

Lemma loaded_A : 0 <= CPU.A loaded_cpu < 256.
Proof. change (CPU.A loaded_cpu) with 0x42. lia. Qed.

Lemma adc_adds_witness :
  0 <= CPU.A (snd (CPU.adc 0x50 loaded_cpu)) < 256.
Proof.
  apply (CPUFlags.adc_adds 0x50 loaded_cpu loaded_A ltac:(lia) loaded_status).
Defined.

Lemma sbc_subtracts_witness :
  0 <= CPU.A (snd (CPU.sbc 0x50 loaded_cpu)) < 256.
Proof.
  apply (CPUFlags.sbc_subtracts 0x50 loaded_cpu loaded_A ltac:(lia)
           loaded_status).
Defined.

Lemma fresh_cpu_SP : CPU.SP fresh_cpu = 0xFD.
Proof. reflexivity. Qed.

Lemma push_pull_witness :
  CPU.bind (CPU.push 0x1AB) (fun _ => CPU.pull) fresh_cpu
  = (0x1AB mod 256,
     CPU.set_memory
       (Memory.write (CPU.memory fresh_cpu) (0x0100 + CPU.SP fresh_cpu) 0x1AB) fresh_cpu).
Proof.
  apply (CPUStack.push_pull fresh_cpu 0x1AB fresh_cpu_ram). rewrite fresh_cpu_SP. lia.
Defined.

Lemma pushWord_pullWord_witness :
  fst (CPU.bind (CPU.pushWord 0x1234) (fun _ => CPU.pullWord) fresh_cpu) = 0x1234.
Proof.
  rewrite (CPUStack.pushWord_pullWord fresh_cpu 0x1234 fresh_cpu_ram);
    [reflexivity | rewrite fresh_cpu_SP; lia | lia].
Defined.

Lemma nmi_saves_context_witness :
  CPU.SP (snd (CPU.nmi fresh_cpu)) = CPU.SP fresh_cpu - 3.
Proof.
  apply (CPUStack.nmi_saves_context fresh_cpu fresh_cpu_ram);
    [rewrite fresh_cpu_SP; lia | change (CPU.PC fresh_cpu) with 0; lia | exact fresh_cpu_status].
Defined.

Lemma frame_irq_timing_witness :
  APU.frameIRQ (fst (APU.steps 2 APU.constructor blank_bus))
  = (3 * 7457 <=? Z.of_nat 2).
Proof.
  apply (APUExtra.frame_irq_timing APU.constructor blank_bus 2); reflexivity.
Defined.

Lemma dmc_fetches_cartridge_witness :
  Memory.ram
    (snd (DMCChannel.run (DMCChannel.constructor, blank_bus)
            [DMCChannel.OpWrite 0x4012 0xFF; DMCChannel.OpWrite 0x4013 1;
             DMCChannel.OpSetEnabled true; DMCChannel.OpStep]))
  = Memory.ram blank_bus.
Proof.
  apply (DMCExtra.dmc_fetches_cartridge DMCChannel.constructor blank_bus
           [DMCChannel.OpWrite 0x4012 0xFF; DMCChannel.OpWrite 0x4013 1;
            DMCChannel.OpSetEnabled true; DMCChannel.OpStep]).
  - unfold WF.dmc. cbn. lia.
  - repeat constructor; unfold WF.byte; lia.
Defined.

Lemma stepInstruction_is_loop_body_witness :
  Emulator._frameCounter
    (snd (Emulator.stepInstruction
            (ntsc_emulator
               (Harness.power_on (NROM.image 0 0 0) 0 Harness.ntscDots))))
  = Emulator._frameCounter
      (ntsc_emulator (Harness.power_on (NROM.image 0 0 0) 0 Harness.ntscDots)).
Proof.
  apply (SchedulerExtra.stepInstruction_is_loop_body
           (ntsc_emulator
              (Harness.power_on (NROM.image 0 0 0) 0 Harness.ntscDots))
           0 0 0).
  intros w. reflexivity.
Defined.

End ConsoleExtra.
